(* ===== verification/_CoqProject ===== *)
-Q . S2P
Prelude.v
Effects.v
Ownership.v
Hashing.v
Constants.v
Rpc.v
ServiceApi.v
Service.v
ServiceSpec.v
ServiceDemo.v
TemplatePallet.v
TemplateSpec.v
Mock.v
RuntimeParams.v
RuntimeOrigins.v
ChainSpec.v
GenesisSpec.v
ConstructRuntime.v
CompositionSpec.v
TypeAliases.v
TypesSpec.v
OriginTypes.v
TransactionChecks.v
KeyValue.v
KeyValueDemo.v
RuntimeApi.v
BenchmarkKeys.v
Cli.v
CliSpec.v
ServiceOwnership.v
CliDemo.v
Process.v
ProcessOwnership.v
ProcessDemo.v
