(* ===== verification/Prelude.v ===== *)
(** * A verification library for the node template

    The repository is a Substrate node: a blockchain runtime assembled from
    FRAME pallets (src/runtime), one custom pallet (src/pallets/template), and
    a node that runs it (src/node).  Little of its code computes anything by
    itself; most of it wires external crates together, and that wiring is what
    can be wrong.  The development therefore models the code as functions and
    as programs over external calls, and proves what holds for whatever the
    external code answers.

    ** How the code is represented

    - Integers are [Z] at a [width]; checked, saturating and casting operations
      are those of Rust ([checked_add], [saturating_sub], [as_]).  A panic is [None].  The
      plain operators panic on overflow or wrap around depending on the build:
      code that may overflow takes a [BuildProfile] and its theorems hold for
      either.  A constant ([const!]) does not type-check unless its evaluation
      succeeds.
    - [Result] is [result E A], and [?] is [let?]; the conversion of errors
      that [?] makes is an instance of [From], which is the identity unless the
      called function has an error type of its own.
    - A function that calls external crates is a [prog E A] (Effects.v): a tree
      of the calls it makes.  [exec p t a] relates a program to every trace [t]
      of calls and answers it can have and to its result; [run] evaluates it in
      a concrete environment.  All programs are finite trees, so each run
      returns: no fuel is needed.  [follows p s] says that [p] makes the calls
      of the schedule [s] in order and stops at its first failing call with
      that call's error.
    - An external crate is a type class (its types, functions and calls), and
      the documented behaviour that a theorem needs is a second class of laws,
      named [...Laws].  Every such class has an instance, in which the theorems
      are applied to concrete inputs (the [..._witness] lemmas).

    ** Files and what they model

    - Prelude.v, Effects.v: results, machine integers, lists; programs.
      Ownership.v: a discipline for the objects that calls take, use and make,
      as a machine ([owned_run]) and as a condition on programs ([permitted]).
    - Constants.v: runtime/src/constants.rs and the widths of common.rs.
    - Rpc.v: node/src/rpc.rs.
    - ServiceApi.v, Service.v: node/src/service.rs.  [new_partial], [new_full]
      and [new_light] are the functions of the same name; the blocks of
      [new_full] that start authoring and voting are [start_authoring] and
      [start_grandpa].  Every fallible external function has its own error type
      ([CallError]), of which [ServiceError] is made by [from_call_error].
    - TemplatePallet.v: pallets/template/src/lib.rs.  [do_something] and
      [cause_error] are programs over the storage item and the event log;
      [apply_call] dispatches one call in a chain state, without rolling back
      what a failed call wrote, and [apply_calls] a sequence of them.  Mock.v: mock.rs and tests.rs.
    - RuntimeParams.v, RuntimeOrigins.v, ConstructRuntime.v, RuntimeApi.v:
      runtime/src/lib.rs, that is its [parameter_types!], its privileged
      origins, [construct_runtime!] with the [Config] implementations, and
      [impl_runtime_apis!].
    - TypeAliases.v: the type aliases of common.rs, lib.rs, service.rs and
      chain_spec.rs, as expressions that [expand] to what they stand for.
    - Hashing.v: the keys of the runtime's key-value store.  KeyValue.v
      implements the storage item of the template pallet in that store, at the
      key that its name in [construct_runtime!] gives it.
    - ChainSpec.v: node/src/chain_spec.rs.
    - Cli.v: node/src/cli.rs, command.rs and main.rs.

    How the parts meet: [run] (Cli.v) hands the runner closures over
    [new_partial], [new_full] and [new_light] (Service.v) and chooses the
    specifications of ChainSpec.v; [new_full] serves the RPC handler of Rpc.v;
    the genesis state of ChainSpec.v must fit the pallets of ConstructRuntime.v,
    whose parameters are those of RuntimeParams.v, one of whose names places the
    storage of the template pallet (KeyValue.v), and whose types are those of
    TypeAliases.v, which also decide who may do what (OriginTypes.v).

    ** What is proved

    - TemplateSpec.v: the pallet refines a bounded counter
      ([template_refines_counter]); its stored value after any history, its
      event log, the absence of wrap-around, that a failed call changes nothing,
      and when its weights cover its database accesses, in builds with and
      without overflow checks.
    - ServiceSpec.v: the order in which a full or light node is brought up, what
      a failure leaves behind (with the converted error of the call that
      failed), and that all parts of a node are given the parts of the same
      node.  ServiceDemo.v applies these in an environment.
    - CliSpec.v: the runner and job of each command, what the job may do, the
      node started for each role, the chain selected by a name.  CliDemo.v
      applies them.
    - ServiceOwnership.v, ProcessOwnership.v: every call into the client crates,
      in every job of a process, uses objects as Rust's ownership rules allow:
      they were made by earlier calls of the job, or given to it, and have not
      been moved, where an argument passed by value is a move unless the code
      clones it; a node that is up has put to use what it made.
    - Process.v: a node whose calls succeed comes up, every start decides after
      a bounded number of calls, and the process of a command goes online
      exactly when it is that of a node.  ProcessDemo.v applies these.
    - KeyValue.v: the template pallet writes no other entry than its own, so none
      under a prefix of another hash, whatever the prefixes are that the other
      pallets choose; and the laws that TemplateSpec.v relies on hold in the
      shared store.  KeyValueDemo.v is such a store.
    - BenchmarkKeys.v: the hexadecimal keys of [dispatch_benchmark].
    - TypesSpec.v: what the types of a configuration expand to, with the types
      that the node and the runtime share as examples.  TransactionChecks.v:
      what [SignedExtra] checks before the fee is taken.
    - GenesisSpec.v: validity of the genesis state, for any arguments and for
      both presets, its issuance, when building it panics, and what the counts
      of validators are in every build, wrap-around included.
    - CompositionSpec.v: every pallet and parameter a configuration mentions
      exists, pallets and configurations correspond, events and genesis
      fields are complete, and the mock runtime mirrors the real one.
    - RuntimeParams.v, Constants.v: deposits, staking periods and weight limits
      at their integer widths.  RuntimeOrigins.v: who may perform each
      privileged operation; OriginTypes.v reads that off the types in the
      configurations.  RuntimeApi.v: equivocation reports, the BABE
      configuration, benchmarks.

    ** Bounds and fuel

    Two definitions recurse on fuel: [expand] (TypeAliases.v), which is [None]
    when it runs out, so that every theorem that gives the expansion of a type
    shows that its twenty steps were enough; and the blocks of [xxh64]
    (Hashing.v), whose number is computed from the length of the input.

    ** What is not modelled

    The bodies of external crates; the expansions of FRAME's macros, and with
    them the encoding and numbering of calls and the storage prefixes of other
    pallets; the points of the reward curve, which an external macro computes
    from the modelled input; the two build.rs, which only call external crates
    that talk to Cargo.  Generic bounds and reference counting ([Arc], [clone]) have no counterpart:
    a shared object is its name, and ServiceOwnership.v says which objects are
    shared and which are moved. *)
From Stdlib Require Export ZArith Lia Bool.
From stdpp Require Export base list strings gmap.
#[export] Set Warnings "-clear-no-such-hyp".

#[global] Open Scope Z_scope.

(** ** Results and panics *)

(** Rust's [Result<T, E>].  The error type comes first, so that [result E] is
    a type constructor with a monad structure. *)
Inductive result (E A : Type) : Type :=
| Ok (a : A)
| Err (e : E).
Arguments Ok {E A} _.
Arguments Err {E A} _.

#[export] Instance result_eq_dec {E A} `{EqDecision E, EqDecision A} :
  EqDecision (result E A).
Proof. solve_decision. Defined.

(** The [?] operator on a pure result. *)
Definition result_bind {E A B} (r : result E A) (f : A -> result E B) : result E B :=
  match r with Ok a => f a | Err e => Err e end.

(** [Result::map] and [Result::map_err]. *)
Definition result_map {E A B} (f : A -> B) (r : result E A) : result E B :=
  match r with Ok a => Ok (f a) | Err e => Err e end.
Definition map_err {E F A} (f : E -> F) (r : result E A) : result F A :=
  match r with Ok a => Ok a | Err e => Err (f e) end.

(** [Option::ok_or] (and [ok_or_else], whose closure is a pure value here). *)
Definition ok_or {E A} (o : option A) (e : E) : result E A :=
  match o with Some a => Ok a | None => Err e end.

Definition is_ok {E A} (r : result E A) : bool :=
  match r with Ok _ => true | Err _ => false end.

(** The conversion of errors that [?] applies, [std::convert::From]; converting
    to the same type changes nothing. *)
Class From (A B : Type) := from : A -> B.
#[export] Instance from_refl {A} : From A A := fun a => a.

(** The converted error a result carries. *)
Definition failure_of {E F A} `{From E F} (r : result E A) : option F :=
  match r with Ok _ => None | Err e => Some (from e) end.

(** The error a result carries. *)
Definition err_of {E A} (r : result E A) : option E :=
  match r with Ok _ => None | Err e => Some e end.

Lemma ok_or_Ok {E A} (o : option A) (e : E) a : ok_or o e = Ok a <-> o = Some a.
Proof. destruct o; naive_solver. Qed.

Lemma ok_or_Err {E A} (o : option A) (e e' : E) :
  ok_or o e = Err e' <-> o = None /\ e' = e.
Proof. destruct o; naive_solver. Qed.

Lemma is_ok_err_of {E A} (r : result E A) : is_ok r = true <-> err_of r = None.
Proof. destruct r; naive_solver. Qed.

(** ** Machine integers

    A w-bit unsigned integer is a [Z]; an operation that Rust checks returns
    [None] when the exact result does not fit (the compile error of a
    constant, the [None] of a [checked_] method). *)
Inductive width := W8 | W16 | W32 | W64 | W128.

Definition bits (w : width) : Z :=
  match w with W8 => 8 | W16 => 16 | W32 => 32 | W64 => 64 | W128 => 128 end.

Definition modulus (w : width) : Z := 2 ^ bits w.
Definition max_value (w : width) : Z := modulus w - 1.

Definition in_range (w : width) (z : Z) : Prop := 0 <= z <= max_value w.
Definition in_rangeb (w : width) (z : Z) : bool := (0 <=? z) && (z <=? max_value w).

(** The cast [z as uN]. *)
Definition as_ (w : width) (z : Z) : Z := z mod modulus w.

Definition checked (w : width) (z : Z) : option Z :=
  if in_rangeb w z then Some z else None.

Definition checked_add (w : width) (a b : Z) : option Z := checked w (a + b).
Definition checked_sub (w : width) (a b : Z) : option Z := checked w (a - b).
Definition checked_mul (w : width) (a b : Z) : option Z := checked w (a * b).
Definition checked_div (w : width) (a b : Z) : option Z :=
  if b =? 0 then None else checked w (a / b).
(** [1 << n]: Rust checks the shift amount, and drops the bits shifted out. *)
Definition checked_shl (w : width) (a n : Z) : option Z :=
  if (0 <=? n) && (n <? bits w) then Some (as_ w (Z.shiftl a n)) else None.

Definition saturating_sub (w : width) (a b : Z) : Z := Z.max 0 (a - b).
Definition saturating_mul (w : width) (a b : Z) : Z := Z.min (max_value w) (a * b).
Definition saturating_add (w : width) (a b : Z) : Z := Z.min (max_value w) (a + b).

(** Whether the build checks the plain operators for overflow: a debug build
    does, and panics; a release build does not unless its profile says so, and
    the result wraps around. *)
Class BuildProfile := overflow_checks : bool.

(** The product [a * b] of two [uN]s. *)
Definition mul {profile : BuildProfile} (w : width) (a b : Z) : option Z :=
  if overflow_checks then checked_mul w a b else Some (as_ w (a * b)).

(** The sum [a + b] of two [uN]s. *)
Definition add {profile : BuildProfile} (w : width) (a b : Z) : option Z :=
  if overflow_checks then checked_add w a b else Some (as_ w (a + b)).

(** A constant: Rust refuses to compile it unless its evaluation succeeds, and
    [const!] refuses to type-check unless the model's evaluation does. *)
Definition const_eval {A} (o : option A) :
  (match o with Some _ => true | None => false end) = true -> A :=
  match o with
  | Some v => fun _ => v
  | None => fun H => False_rect A (Bool.diff_false_true H)
  end.
Notation "'const!' e" := (const_eval e eq_refl) (at level 10, e at level 9).

Lemma in_rangeb_spec w z : in_rangeb w z = true <-> in_range w z.
Proof. unfold in_rangeb, in_range. rewrite andb_true_iff, !Z.leb_le. done. Qed.

#[export] Instance in_range_dec w z : Decision (in_range w z).
Proof. unfold in_range. apply _. Defined.

Lemma checked_Some w z v : checked w z = Some v <-> v = z /\ in_range w z.
Proof.
  unfold checked. destruct (in_rangeb w z) eqn:H.
  - apply in_rangeb_spec in H. naive_solver.
  - split; [done|]. intros [_ H']. apply in_rangeb_spec in H'. congruence.
Qed.

Lemma checked_None w z : checked w z = None <-> ~ in_range w z.
Proof.
  unfold checked. destruct (in_rangeb w z) eqn:H.
  - apply in_rangeb_spec in H. naive_solver.
  - split; [|done]. intros _ H'. apply in_rangeb_spec in H'. congruence.
Qed.

Lemma checked_in_range w z : in_range w z -> checked w z = Some z.
Proof. intros. by apply checked_Some. Qed.

Lemma modulus_pos w : 0 < modulus w.
Proof. by destruct w. Qed.

Lemma as_small w z : in_range w z -> as_ w z = z.
Proof. unfold in_range, max_value, as_. intros. apply Z.mod_small. lia. Qed.

Lemma as_in_range w z : in_range w (as_ w z).
Proof.
  unfold in_range, max_value, as_.
  pose proof (Z.mod_pos_bound z (modulus w) (modulus_pos w)). lia.
Qed.

Lemma mul_exact {profile : BuildProfile} w a b :
  in_range w (a * b) -> mul w a b = Some (a * b).
Proof.
  intros H. unfold mul, checked_mul. destruct overflow_checks.
  - by apply checked_in_range.
  - by rewrite as_small.
Qed.

Lemma add_exact {profile : BuildProfile} w a b :
  in_range w (a + b) -> add w a b = Some (a + b).
Proof.
  intros H. unfold add, checked_add. destruct overflow_checks.
  - by apply checked_in_range.
  - by rewrite as_small.
Qed.

(** A sum that does not fit is less than both operands after wrapping around. *)
Lemma add_overflow {profile : BuildProfile} w a b :
  in_range w a -> in_range w b -> max_value w < a + b ->
  add w a b = if overflow_checks then None else Some (a + b - modulus w).
Proof.
  unfold in_range, add, checked_add. intros Ha Hb Hab. pose proof (modulus_pos w).
  unfold max_value in *. destruct overflow_checks.
  - apply checked_None. unfold in_range, max_value. lia.
  - f_equal. unfold as_. symmetry. apply Z.mod_unique_pos with 1; lia.
Qed.

Lemma in_range_weaken w w' z : bits w <= bits w' -> in_range w z -> in_range w' z.
Proof.
  unfold in_range, max_value, modulus. intros Hw [? ?].
  assert (2 ^ bits w <= 2 ^ bits w') by (apply Z.pow_le_mono_r; lia). lia.
Qed.

Lemma saturating_sub_le w a b : 0 <= a -> 0 <= b -> 0 <= saturating_sub w a b <= a.
Proof. unfold saturating_sub. lia. Qed.

(** ** Lists *)

Lemma NoDup_fmap_fst {A B C} (f : A -> B) (g : A -> C) (l : list A) :
  NoDup (f <$> l) -> NoDup (fst <$> ((fun x => (f x, g x)) <$> l)).
Proof. by rewrite <- list_fmap_compose. Qed.

Lemma length_one {A} (l : list A) : length l = 1%nat -> exists x, l = [x].
Proof. destruct l as [|x [|]]; naive_solver. Qed.

(** A function whose values on [l] are distinct is injective on [l]. *)
Lemma NoDup_fmap_inj_on {A B} (f : A -> B) (l : list A) x y :
  NoDup (f <$> l) -> x ∈ l -> y ∈ l -> f x = f y -> x = y.
Proof.
  intros Hnd [i Hi]%list_elem_of_lookup [j Hj]%list_elem_of_lookup Hf.
  assert (i = j) as ->; [|congruence].
  eapply (NoDup_lookup _ _ _ (f x) Hnd); rewrite list_lookup_fmap;
    [by rewrite Hi|rewrite Hj; cbn; by rewrite Hf].
Qed.

(** A prefix of a list that ends with [x] contains [x] only if it ends with it. *)
Lemma prefix_without_last {A} (l s : list A) (x : A) :
  l `prefix_of` (s ++ [x]) -> x ∉ s -> last l <> Some x -> x ∉ l.
Proof.
  intros [k Hk] Hs Hl Hx. destruct k as [|y k' _] using rev_ind.
  - rewrite app_nil_r in Hk. subst l. by rewrite last_snoc in Hl.
  - rewrite app_assoc in Hk. apply app_inj_tail in Hk as [-> _].
    apply Hs, elem_of_app. by left.
Qed.

(** The sum of a list of integers. *)
Definition sumZ (l : list Z) : Z := foldr Z.add 0 l.

Lemma filter_all {A} (P : A -> Prop) `{!forall x, Decision (P x)} (l : list A) :
  Forall P l -> filter P l = l.
Proof. induction 1; [done|]. rewrite filter_cons_True by done. by f_equal. Qed.

Lemma sumZ_const {A} (l : list A) (c : Z) :
  sumZ ((fun _ => c) <$> l) = c * Z.of_nat (length l).
Proof.
  induction l as [|x l IH]; [unfold sumZ; cbn; lia|].
  change (c + sumZ ((fun _ => c) <$> l) = c * Z.of_nat (S (length l))). lia.
Qed.

(** ** Hints and tactics *)

Create HintDb ints.
#[export] Hint Resolve checked_in_range as_in_range : ints.

(** Discharge a concrete range goal. *)
Ltac range := unfold in_range, max_value, modulus; cbn [bits]; lia.
