(* ===== verification/Effects.v ===== *)
(** * Programs with external calls

    The node and the runtime are glue around crates that are not part of the
    repository.  A function of the repository that calls such a crate is a
    [prog E A]: a tree whose nodes are the external calls (constructors of [E],
    with their arguments) and whose branches are the values the call may
    return.  [exec p t a] says that [p], run against some environment, makes
    the calls [t] (each with the response it received) and returns [a]; a
    property proved for every [exec] holds whatever the external code does.
    [run] executes a program against a concrete environment. *)
From S2P Require Import Prelude.
From Stdlib Require Import Setoid Morphisms.

Inductive prog (E : Type -> Type) (A : Type) : Type :=
| Ret (a : A)
| Vis (X : Type) (e : E X) (k : X -> prog E A).
Arguments Ret {E A} _.
Arguments Vis {E A X} _ _.

Fixpoint bind {E A B} (p : prog E A) (f : A -> prog E B) : prog E B :=
  match p with
  | Ret a => f a
  | Vis e k => Vis e (fun x => bind (k x) f)
  end.

(** One external call. *)
Definition call {E X} (e : E X) : prog E X := Vis e Ret.

(** A statement that ends in [?]: an [Err] returns from the function at once,
    its error converted to that of the function. *)
Definition try_bind {E Er Er' A B} {conv : From Er' Er} (p : prog E (result Er' A))
    (f : A -> prog E (result Er B)) : prog E (result Er B) :=
  bind p (fun r => match r with Ok a => f a | Err e => Ret (Err (from e)) end).

Declare Scope prog_scope.
Delimit Scope prog_scope with prog.
Bind Scope prog_scope with prog.
Notation "'let*' pat := p 'in' k" := (bind p (fun x => match x with pat => k%prog end))
  (at level 10, pat pattern, p at level 200, k at level 200) : prog_scope.
Notation "'let?' pat := p 'in' k" := (try_bind p (fun x => match x with pat => k%prog end))
  (at level 10, pat pattern, p at level 200, k at level 200) : prog_scope.
Notation "p ;;; k" := (bind p (fun _ => k%prog))
  (at level 100, right associativity) : prog_scope.
#[global] Open Scope prog_scope.

(** ** Executions *)

(** A call together with the value the environment returned. *)
Inductive event (E : Type -> Type) : Type :=
| Event (X : Type) (e : E X) (x : X).
Arguments Event {E X} _ _.

Fixpoint exec {E A} (p : prog E A) (t : list (event E)) (a : A) : Prop :=
  match p with
  | Ret a' => t = [] /\ a = a'
  | Vis e k => exists x t', t = Event e x :: t' /\ exec (k x) t' a
  end.

(** A concrete environment: a state, and how it answers each call. *)
Definition handler (E : Type -> Type) (S : Type) := forall X, E X -> S -> X * S.

Fixpoint run {E S A} (h : handler E S) (p : prog E A) (s : S) :
    list (event E) * A * S :=
  match p with
  | Ret a => ([], a, s)
  | Vis e k =>
      let '(x, s') := h _ e s in
      let '(t, a, s'') := run h (k x) s' in
      (Event e x :: t, a, s'')
  end.

Definition run_result {E S A} (h : handler E S) (p : prog E A) (s : S) : A :=
  (run h p s).1.2.
Definition run_trace {E S A} (h : handler E S) (p : prog E A) (s : S) : list (event E) :=
  (run h p s).1.1.
Definition run_state {E S A} (h : handler E S) (p : prog E A) (s : S) : S :=
  (run h p s).2.

Section Exec.
Context {E : Type -> Type}.

Lemma exec_ret {A} (a : A) t b : exec (E:=E) (Ret a) t b <-> t = [] /\ b = a.
Proof. done. Qed.

Lemma exec_call {X} (e : E X) t x : exec (call e) t x <-> t = [Event e x].
Proof. cbn. naive_solver. Qed.

Lemma exec_bind {A B} (p : prog E A) (f : A -> prog E B) t b :
  exec (bind p f) t b <->
  exists t1 t2 a, t = t1 ++ t2 /\ exec p t1 a /\ exec (f a) t2 b.
Proof.
  revert t. induction p as [a|X e k IH]; intros t; cbn.
  - split.
    + intros H. by exists [], t, a.
    + intros (t1 & t2 & a' & -> & [-> ->] & H). done.
  - split.
    + intros (x & t' & -> & H). apply IH in H as (t1 & t2 & a & -> & H1 & H2).
      exists (Event e x :: t1), t2, a. naive_solver.
    + intros (t1 & t2 & a & -> & (x & t' & -> & H1) & H2).
      exists x, (t' ++ t2). split; [done|]. apply IH. naive_solver.
Qed.

Lemma exec_try_from {Er Er' A B} {conv : From Er' Er} (p : prog E (result Er' A))
    (f : A -> prog E (result Er B)) t r :
  exec (try_bind p f) t r <->
  (exists t1 t2 a, t = t1 ++ t2 /\ exec p t1 (Ok a) /\ exec (f a) t2 r) \/
  (exists e, exec p t (Err e) /\ r = Err (from e)).
Proof.
  unfold try_bind. rewrite exec_bind. split.
  - intros (t1 & t2 & [a|e] & -> & H1 & H2); [naive_solver|].
    cbn in H2. destruct H2 as [-> ->]. rewrite app_nil_r. naive_solver.
  - intros [(t1 & t2 & a & -> & H1 & H2) | (e & H & ->)].
    + exists t1, t2, (Ok a). done.
    + exists t, [], (Err e). by rewrite app_nil_r.
Qed.

Lemma exec_try_bind {Er A B} (p : prog E (result Er A))
    (f : A -> prog E (result Er B)) t r :
  exec (try_bind p f) t r <->
  (exists t1 t2 a, t = t1 ++ t2 /\ exec p t1 (Ok a) /\ exec (f a) t2 r) \/
  (exists e, exec p t (Err e) /\ r = Err e).
Proof. apply exec_try_from. Qed.

(** A concrete run is one of the executions. *)
Lemma run_exec {S A} (h : handler E S) (p : prog E A) (s : S) :
  exec p (run_trace h p s) (run_result h p s).
Proof.
  unfold run_trace, run_result. revert s.
  induction p as [a|X e k IH]; intros s; cbn; [done|].
  destruct (h X e s) as [x s']. specialize (IH x s').
  destruct (run h (k x) s') as [[t a] s'']. cbn in *. eauto.
Qed.

Lemma run_bind {S A B} (h : handler E S) (p : prog E A) (f : A -> prog E B) s :
  run h (bind p f) s =
  let '(t1, a, s1) := run h p s in
  let '(t2, b, s2) := run h (f a) s1 in (t1 ++ t2, b, s2).
Proof.
  revert s. induction p as [a|X e k IH]; intros s; cbn.
  - by destruct (run h (f a) s) as [[??]?].
  - destruct (h X e s) as [x s']. rewrite IH.
    destruct (run h (k x) s') as [[t a] s'']. cbn.
    by destruct (run h (f a) s'') as [[??]?].
Qed.
End Exec.

(** ** Equivalence of programs: the same executions *)

Definition peq {E A} (p q : prog E A) : Prop := forall t a, exec p t a <-> exec q t a.
Infix "≃" := peq (at level 70) : prog_scope.

#[export] Instance peq_equivalence {E A} : Equivalence (@peq E A).
Proof.
  split.
  - by intros p t a.
  - intros p q H t a. by rewrite (H t a).
  - intros p q r H1 H2 t a. by rewrite (H1 t a).
Qed.

#[export] Instance exec_proper {E A} :
  Proper (peq ==> eq ==> eq ==> iff) (@exec E A).
Proof. intros p q H t ? <- a ? <-. apply H. Qed.

#[export] Instance bind_proper {E A B} :
  Proper (peq ==> pointwise_relation A peq ==> peq) (@bind E A B).
Proof.
  intros p q Hp f g Hf t b. rewrite !exec_bind.
  by setoid_rewrite (fun t a => Hp t a); setoid_rewrite (fun t a => Hf a t b).
Qed.

Lemma bind_ret_l {E A B} (a : A) (f : A -> prog E B) : bind (Ret a) f ≃ f a.
Proof. done. Qed.

Lemma bind_ret_r {E A} (p : prog E A) : bind p Ret ≃ p.
Proof.
  intros t a. rewrite exec_bind. split.
  - intros (t1 & t2 & a' & -> & H & [-> ->]). by rewrite app_nil_r.
  - intros H. exists t, [], a. by rewrite app_nil_r.
Qed.

Lemma bind_bind {E A B C} (p : prog E A) (f : A -> prog E B) (g : B -> prog E C) :
  bind (bind p f) g ≃ bind p (fun a => bind (f a) g).
Proof.
  intros t c. induction p as [a|X e k IH] in t |- *; [done|]. cbn.
  by setoid_rewrite IH.
Qed.

(** ** Properties of every call a program can make *)

Fixpoint calls {E A} (Q : forall X, E X -> Prop) (p : prog E A) : Prop :=
  match p with
  | Ret _ => True
  | Vis e k => Q _ e /\ forall x, calls Q (k x)
  end.

Definition ev_holds {E} (Q : forall X, E X -> Prop) (ev : event E) : Prop :=
  match ev with Event e _ => Q _ e end.

Section Calls.
Context {E : Type -> Type} (Q : forall X, E X -> Prop).

Lemma calls_bind {A B} (p : prog E A) (f : A -> prog E B) :
  calls Q p -> (forall a, calls Q (f a)) -> calls Q (bind p f).
Proof. induction p as [a|X e k IH]; cbn; naive_solver. Qed.

Lemma calls_try_bind {Er Er' A B} {conv : From Er' Er} (p : prog E (result Er' A)) (f : A -> prog E (result Er B)) :
  calls Q p -> (forall a, calls Q (f a)) -> calls Q (try_bind p f).
Proof. intros Hp Hf. apply calls_bind; [done|]. by intros [a|e]. Qed.

Lemma calls_call {X} (e : E X) : Q X e -> calls Q (call e).
Proof. done. Qed.

Lemma calls_sound {A} (p : prog E A) t a :
  calls Q p -> exec p t a -> Forall (ev_holds Q) t.
Proof.
  revert t. induction p as [b|X e k IH]; intros t; cbn.
  - by intros _ [-> _].
  - intros [He Hk] (x & t' & -> & H). constructor; [done|]. by eapply IH.
Qed.
End Calls.

(** ** Schedules

    A program whose fallible calls are all followed by [?] makes its calls in a
    fixed order and stops at the first that fails.  [follows p s] says so: a
    run of [p] that returns [Ok] made exactly the calls labelled [s], none of
    which failed; a run that returns [Err e] made a prefix of them, of which
    the last one, and only it, failed, with [e]. *)
Class Labels (E : Type -> Type) (L : Type) := label : forall X, E X -> L.
Class Failure (E : Type -> Type) (Er : Type) := failure : forall X, E X -> X -> option Er.
Arguments label {E L _ X} _.
Arguments failure {E Er _ X} _ _.

Section Follows.
Context {E : Type -> Type} {L Er : Type} `{!Labels E L, !Failure E Er}.

Definition ev_label (ev : event E) : L := match ev with Event e _ => label e end.
Definition ev_failure (ev : event E) : option Er :=
  match ev with Event e x => failure e x end.
Definition succeeded (ev : event E) : Prop := ev_failure ev = None.

Definition follows {A} (p : prog E (result Er A)) (s : list L) : Prop :=
  forall t r, exec p t r ->
  match r with
  | Ok _ => ev_label <$> t = s /\ Forall succeeded t
  | Err e => exists t' ev, t = t' ++ [ev] /\ Forall succeeded t' /\
               ev_failure ev = Some e /\ (ev_label <$> t) `prefix_of` s
  end.

#[export] Instance follows_proper {A} :
  Proper (peq ==> eq ==> iff) (@follows A).
Proof. intros p q H s ? <-. unfold follows. by setoid_rewrite (fun t r => H t r). Qed.

Lemma follows_ret {A} (a : A) : follows (Ret (Ok a)) [].
Proof. intros t r [-> ->]. done. Qed.

Lemma follows_try {A B} (p : prog E (result Er A)) (f : A -> prog E (result Er B)) s1 s2 :
  follows p s1 -> (forall a, follows (f a) s2) -> follows (try_bind p f) (s1 ++ s2).
Proof.
  intros Hp Hf t r H.
  apply exec_try_bind in H as [(t1 & t2 & a & -> & H1 & H2) | (e & H & ->)].
  - apply Hp in H1 as [<- Hok]. apply Hf in H2. destruct r as [b|e].
    + destruct H2 as [<- Hok2]. rewrite fmap_app. split; [done|]. by apply Forall_app.
    + destruct H2 as (t' & ev & -> & Hok2 & He & Hpre).
      exists (t1 ++ t'), ev. rewrite <- app_assoc. repeat split; [|done|].
      * by apply Forall_app.
      * rewrite fmap_app. by apply prefix_app.
  - apply Hp in H as (t' & ev & -> & Hok & He & Hpre).
    exists t', ev. repeat split; [done..|]. by apply prefix_app_r.
Qed.

(** A call that cannot fail. *)
Lemma follows_call {X A} (e : E X) (f : X -> prog E (result Er A)) s :
  (forall x, failure (Er:=Er) e x = None) -> (forall x, follows (f x) s) ->
  follows (bind (call e) f) (label e :: s).
Proof.
  intros He Hf t r (x & t' & -> & H). apply Hf in H. destruct r as [a|er].
  - destruct H as [<- Hok]. split; [done|]. constructor; [apply He|done].
  - destruct H as (t1 & ev & -> & Hok & Hev & Hpre).
    exists (Event e x :: t1), ev. repeat split; [|done|].
    + constructor; [apply He|done].
    + by apply prefix_cons.
Qed.

(** A call followed by [?]. *)
Lemma follows_call_try {X} (e : E (result Er X)) :
  (forall r, failure (Er:=Er) e r = err_of r) -> follows (call e) [label e].
Proof.
  intros He t r H. apply exec_call in H as ->. destruct r as [a|er].
  - split; [done|]. constructor; [apply He|done].
  - exists [], (Event e (Err er)). repeat split; [done|apply He|done].
Qed.

Lemma follows_call_try_cons {Er' X A} {conv : From Er' Er} (e : E (result Er' X))
    (f : X -> prog E (result Er A)) s :
  (forall r, failure (Er:=Er) e r = failure_of r) -> (forall a, follows (f a) s) ->
  follows (try_bind (call e) f) (label e :: s).
Proof.
  intros He Hf t r [(t1 & t2 & a & -> & ->%exec_call & H)|(er & ->%exec_call & ->)]%exec_try_from.
  - assert (succeeded (Event e (Ok a))) by apply He. apply Hf in H. destruct r as [b|er].
    + destruct H as [<- ?]. split; [done|]. by constructor.
    + destruct H as (t' & ev & -> & ? & ? & Hpre). exists (Event e (Ok a) :: t'), ev.
      split_and!; [done|by constructor|done|by apply prefix_cons].
  - exists [], (Event e (Err er)). split_and!; [done|done|apply He|].
    apply prefix_cons, prefix_nil.
Qed.

Lemma follows_when {X A} (b : bool) (e : E X) (k : prog E (result Er A)) s :
  (forall x, failure (Er:=Er) e x = None) -> follows k s ->
  follows (bind (if b then bind (call e) (fun _ => Ret tt) else Ret tt) (fun _ => k))
          ((if b then [label e] else []) ++ s).
Proof.
  intros He Hk. destruct b; [|done].
  intros t r H. apply (follows_call e (fun _ => k) s); done.
Qed.

Lemma follows_if {A} (b : bool) (p q : prog E (result Er A)) s1 s2 :
  follows p s1 -> follows q s2 ->
  follows (if b then p else q) (if b then s1 else s2).
Proof. by destruct b. Qed.

(** The calls of any run are a prefix of the schedule. *)
Lemma follows_prefix {A} (p : prog E (result Er A)) s t r :
  follows p s -> exec p t r -> (ev_label <$> t) `prefix_of` s.
Proof.
  intros Hp H. apply Hp in H. destruct r; [by destruct H as [<- _]|].
  by destruct H as (? & ? & _ & _ & _ & ?).
Qed.

(** An environment in which no call fails. *)
Definition never_fails {S} (h : handler E S) : Prop :=
  forall X (e : E X) s, failure (Er:=Er) e (h X e s).1 = None.

Lemma never_fails_trace {S A} (h : handler E S) (p : prog E A) s :
  never_fails h -> Forall succeeded (run_trace h p s).
Proof.
  intros Hh. unfold run_trace. revert s.
  induction p as [a|X e k IH]; intros s; cbn; [constructor|].
  destruct (h X e s) as [x s'] eqn:Hx. specialize (IH x s').
  destruct (run h (k x) s') as [[t a] s'']. constructor; [|done].
  specialize (Hh X e s). by rewrite Hx in Hh.
Qed.

(** Such an environment brings a schedule to its end. *)
Lemma follows_live {S A} (h : handler E S) (p : prog E (result Er A)) sch s :
  follows p sch -> never_fails h ->
  exists a, run_result h p s = Ok a /\ ev_label <$> run_trace h p s = sch.
Proof.
  intros Hp Hh. pose proof (Hp _ _ (run_exec h p s)) as Hrun.
  destruct (run_result h p s) as [a|e].
  - exists a. by destruct Hrun.
  - destruct Hrun as (t' & ev & Ht & _ & He & _).
    pose proof (never_fails_trace h p s Hh) as Hall.
    rewrite Ht, Forall_app, Forall_singleton in Hall. unfold succeeded in Hall.
    destruct Hall as [_ ?]. congruence.
Qed.

(** The number of calls is bounded. *)
Lemma follows_bound {A} (p : prog E (result Er A)) sch t r :
  follows p sch -> exec p t r -> (length t <= length sch)%nat.
Proof.
  intros Hp H. apply (follows_prefix _ _ _ _ Hp), prefix_length in H.
  by rewrite length_fmap in H.
Qed.

(** [Ok] exactly when no call failed. *)
Lemma follows_ok_iff {A} (p : prog E (result Er A)) s t r :
  follows p s -> exec p t r -> is_ok r = true <-> Forall succeeded t.
Proof.
  intros Hp H. apply Hp in H. destruct r; [naive_solver|].
  destruct H as (t' & ev & -> & _ & He & _). split; [done|].
  rewrite Forall_app, Forall_singleton. unfold succeeded. intros [_ ?]. congruence.
Qed.
End Follows.

(** Walk through a program, leaving the condition of each call. *)
Ltac walk_calls :=
  repeat lazymatch goal with
  | |- calls _ (try_bind _ _) => apply calls_try_bind; [|intros ?]
  | |- calls _ (bind _ _) => apply calls_bind; [|intros ?]
  | |- calls _ (call _) => apply calls_call; cbn
  | |- calls _ (Ret _) => exact I
  | |- calls _ (match ?x with _ => _ end) => destruct x eqn:?
  end.

Create HintDb effects.
#[export] Hint Resolve follows_ret follows_call_try follows_if : effects.
