(* ===== verification/Ownership.v ===== *)
(** * Ownership of the objects a program passes around

    The calls of a program build objects and hand them on.  Rust checks that an
    object passed by value is not used again, and that a borrowed or cloned one
    exists; a [prog] names its objects freely, so here it is a property of its
    runs.  An instance of [Ownership] says, for each call, which objects it
    takes ([moves]), which it only uses ([borrows]) and which it makes
    ([yields]).  [owned_run held t held'] is the machine of that discipline: a
    run that starts with the objects [held], makes the calls [t] and ends with
    [held'].  [permitted] is its weakest precondition for programs. *)
From S2P Require Import Prelude Effects.
From Stdlib Require Import Setoid Morphisms.

Class Ownership (E : Type -> Type) (O : Type) := {
  moves : forall X, E X -> list O;
  borrows : forall X, E X -> list O;
  yields : forall X, E X -> X -> list O;
}.
Arguments moves {E O _ X} _.
Arguments borrows {E O _ X} _.
Arguments yields {E O _ X} _ _.

Section Ownership.
Context {E : Type -> Type} {O : Type} `{!Ownership E O}.
Implicit Types (held rest : list O) (t : list (event E)).

Definition ev_moves (ev : event E) : list O := match ev with Event e _ => moves e end.
Definition ev_borrows (ev : event E) : list O := match ev with Event e _ => borrows e end.
Definition ev_yields (ev : event E) : list O := match ev with Event e x => yields e x end.

(** A call may be made when what it takes is held, and what it borrows is held
    besides; it leaves the rest and what it makes. *)
Inductive owned_step held (ev : event E) : list O -> Prop :=
| owned_call rest :
    held ≡ₚ ev_moves ev ++ rest -> Forall (.∈ rest) (ev_borrows ev) ->
    owned_step held ev (ev_yields ev ++ rest).

Inductive owned_run : list O -> list (event E) -> list O -> Prop :=
| owned_stop held : owned_run held [] held
| owned_next held ev held1 t held2 :
    owned_step held ev held1 -> owned_run held1 t held2 -> owned_run held (ev :: t) held2.

Hint Constructors owned_run : core.

Lemma owned_run_app held t1 held1 t2 held2 :
  owned_run held t1 held1 -> owned_run held1 t2 held2 -> owned_run held (t1 ++ t2) held2.
Proof. induction 1; cbn; eauto. Qed.

Lemma owned_run_app_inv held t1 t2 held2 :
  owned_run held (t1 ++ t2) held2 ->
  exists held1, owned_run held t1 held1 /\ owned_run held1 t2 held2.
Proof.
  revert held. induction t1 as [|ev t1 IH]; cbn; intros held H; [by eauto|].
  inversion H as [|? ? held1 ? ? Hs Hr]; subst.
  apply IH in Hr as (h & H1 & H2). eauto.
Qed.

(** Nothing is duplicated and nothing appears from nowhere: what was moved and
    what is left at the end is what was held and what was made. *)
Lemma owned_conserved held t held' :
  owned_run held t held' ->
  concat (ev_moves <$> t) ++ held' ≡ₚ held ++ concat (ev_yields <$> t).
Proof.
  induction 1 as [held|held ev held1 t held2 [rest Hperm _] _ IH]; cbn.
  - by rewrite app_nil_r.
  - rewrite <- app_assoc, IH, Hperm, <- !app_assoc. f_equiv.
    rewrite !app_assoc. f_equiv. apply Permutation_app_comm.
Qed.

(** At each call of a run: what it moves and what it borrows had been made by
    the calls before it, and not been moved since. *)
Lemma owned_at held t1 ev t2 held' :
  owned_run held (t1 ++ ev :: t2) held' ->
  exists rest, Forall (.∈ rest) (ev_borrows ev) /\
    concat (ev_moves <$> t1) ++ ev_moves ev ++ rest ≡ₚ held ++ concat (ev_yields <$> t1).
Proof.
  intros (held1 & H1 & H2)%owned_run_app_inv. apply owned_conserved in H1.
  inversion H2 as [|? ? ? ? ? [rest Hperm Hb] _]; subst.
  exists rest. split; [done|]. by rewrite <- H1, Hperm.
Qed.

(** ** Programs that keep the discipline *)

Fixpoint permitted {A} (p : prog E A) held (Q : A -> list O -> Prop) : Prop :=
  match p with
  | Ret a => Q a held
  | Vis e k => exists rest, held ≡ₚ moves e ++ rest /\ Forall (.∈ rest) (borrows e) /\
      forall x, permitted (k x) (yields e x ++ rest) Q
  end.

Lemma permitted_sound {A} (p : prog E A) held Q t a :
  permitted p held Q -> exec p t a -> exists held', owned_run held t held' /\ Q a held'.
Proof.
  revert held t. induction p as [b|X e k IH]; intros held t; cbn.
  - intros HQ [-> ->]. eauto.
  - intros (rest & Hperm & Hb & Hk) (x & t' & -> & Hex).
    destruct (IH x _ _ (Hk x) Hex) as (held' & Hrun & HQ).
    exists held'. split; [|done]. econstructor; [|exact Hrun].
    by apply (owned_call held (Event e x)).
Qed.

Lemma permitted_ret {A} (a : A) held (Q : A -> list O -> Prop) :
  Q a held -> permitted (Ret a) held Q.
Proof. done. Qed.

Lemma permitted_weaken {A} (p : prog E A) held (Q Q' : A -> list O -> Prop) :
  (forall a h, Q a h -> Q' a h) -> permitted p held Q -> permitted p held Q'.
Proof.
  intros HQ. revert held. induction p as [b|X e k IH]; intros held; cbn; [apply HQ|].
  intros (rest & ? & ? & Hk). eauto 10.
Qed.

Lemma permitted_bind {A B} (p : prog E A) (f : A -> prog E B) held Q :
  permitted p held (fun a h => permitted (f a) h Q) -> permitted (bind p f) held Q.
Proof.
  revert held. induction p as [b|X e k IH]; intros held; cbn; [done|].
  intros (rest & ? & ? & Hk). eauto 10.
Qed.

(** A statement that ends in [?]: the error leaves with what is held then. *)
Lemma permitted_try {Er A B} (p : prog E (result Er A)) (f : A -> prog E (result Er B)) held Q :
  permitted p held (fun r h =>
    match r with Ok a => permitted (f a) h Q | Err e => Q (Err e) h end) ->
  permitted (try_bind p f) held Q.
Proof.
  intros Hp. apply permitted_bind. eapply permitted_weaken; [|exact Hp]. by intros [a|e].
Qed.
End Ownership.

(** ** Finding what a call takes *)

(** [Takes os l rest]: [l] consists of the objects [os] and [rest]. *)
Class Take {O} (o : O) (l rest : list O) : Prop := take_perm : l ≡ₚ o :: rest.
Class Takes {O} (os l rest : list O) : Prop := takes_perm : l ≡ₚ os ++ rest.
#[global] Hint Mode Take + ! + - : typeclass_instances.
#[global] Hint Mode Takes + ! + - : typeclass_instances.

#[export] Instance take_here {O} (o : O) l : Take o (o :: l) l | 1.
Proof. unfold Take. reflexivity. Qed.
#[export] Instance take_there {O} (o o' : O) l rest :
  Take o l rest -> Take o (o' :: l) (o' :: rest) | 2.
Proof. unfold Take. intros ->. constructor. Qed.
#[export] Instance takes_nil {O} (l : list O) : Takes [] l l.
Proof. unfold Takes. reflexivity. Qed.
#[export] Instance takes_cons {O} (o : O) os l rest rest' :
  Take o l rest -> Takes os rest rest' -> Takes (o :: os) l rest'.
Proof. unfold Take, Takes. intros -> ->. reflexivity. Qed.

Section Calls.
Context {E : Type -> Type} {O : Type} `{!Ownership E O}.

Lemma permitted_call {X A} (e : E X) (f : X -> prog E A) (held rest : list O) Q :
  Takes (moves e) held rest -> Forall (.∈ rest) (borrows e) ->
  (forall x, permitted (f x) (yields e x ++ rest) Q) ->
  permitted (bind (call e) f) held Q.
Proof. intros Ht Hb Hf. cbn. eauto. Qed.

Lemma permitted_call_try {Er Er' X A} {conv : From Er' Er} (e : E (result Er' X))
    (f : X -> prog E (result Er A)) (held rest : list O) Q :
  Takes (moves e) held rest -> Forall (.∈ rest) (borrows e) ->
  (forall er, Q (Err (from er)) (yields e (Err er) ++ rest)) ->
  (forall a, permitted (f a) (yields e (Ok a) ++ rest) Q) ->
  permitted (try_bind (call e) f) held Q.
Proof. intros Ht Hb He Hf. cbn. exists rest. split_and!; [done..|]. intros [a|er]; cbn; auto. Qed.
End Calls.
