(* ===== verification/Hashing.v ===== *)
(** * Storage keys

    FRAME keeps the storage items of all pallets in one key-value store.  The
    key of a plain storage value is the TwoX-128 hash of its pallet's name in
    the runtime followed by that of its own name.  The hash function comes
    from sp_core ([Hashing]); its documentation says that it is xxHash64 with
    seeds 0 and 1 ([HashingLaws]), and [xxh64] is that published algorithm. *)
From S2P Require Import Prelude.

Definition bytes_of (s : string) : list Z :=
  (fun c => Z.of_N (Ascii.N_of_ascii c)) <$> String.list_ascii_of_string s.

(** The bytes a hexadecimal literal denotes, two digits each. *)
Definition hex_digit (c : Ascii.ascii) : Z :=
  let n := Z.of_N (Ascii.N_of_ascii c) in if (n <? 58)%Z then n - 48 else n - 87.

Fixpoint parse_hex (s : string) : list Z :=
  match s with
  | String a (String b s) => 16 * hex_digit a + hex_digit b :: parse_hex s
  | _ => []
  end.

(** ** Little-endian integers *)
Fixpoint le_split (n : nat) (z : Z) : list Z :=
  match n with
  | O => []
  | Datatypes.S n => as_ W8 z :: le_split n (Z.shiftr z 8)
  end.

Fixpoint le_combine (l : list Z) : Z :=
  match l with
  | [] => 0
  | b :: l => b + 2 ^ 8 * le_combine l
  end.

Lemma le_combine_split n z : 0 <= z < 2 ^ (8 * Z.of_nat n) -> le_combine (le_split n z) = z.
Proof.
  revert z. induction n as [|n IH]; intros z Hz; [cbn in *; lia|].
  cbn [le_split le_combine]. rewrite Z.shiftr_div_pow2 by lia.
  assert (Hp : 2 ^ (8 * Z.of_nat (Datatypes.S n)) = 2 ^ 8 * 2 ^ (8 * Z.of_nat n))
    by (rewrite <- Z.pow_add_r by lia; f_equal; lia).
  rewrite IH.
  - unfold as_, modulus. cbn [bits]. pose proof (Z.div_mod z (2 ^ 8)). lia.
  - split; [apply Z.div_pos; lia|]. apply Z.div_lt_upper_bound; lia.
Qed.

Lemma length_le_split n z : length (le_split n z) = n.
Proof. revert z. induction n; intros; cbn; auto. Qed.

(** ** xxHash64 *)
Module xxhash.
Definition P1 : Z := 0x9E3779B185EBCA87.
Definition P2 : Z := 0xC2B2AE3D27D4EB4F.
Definition P3 : Z := 0x165667B19E3779F9.
Definition P4 : Z := 0x85EBCA77C2B2AE63.
Definition P5 : Z := 0x27D4EB2F165667C5.

Definition w64 (z : Z) : Z := as_ W64 z.
Definition rotl (z n : Z) : Z := w64 (Z.lor (Z.shiftl z n) (Z.shiftr z (64 - n))).
Definition round (acc lane : Z) : Z := w64 (rotl (w64 (acc + lane * P2)) 31 * P1).
Definition merge (h v : Z) : Z := w64 (Z.lxor h (round 0 v) * P1 + P4).

Definition lane (i : nat) (l : list Z) : Z := le_combine (take 8 (drop (8 * i) l)).

(** [n] stripes of 32 bytes, and what is left. *)
Fixpoint stripes (n : nat) (acc : Z * Z * Z * Z) (l : list Z) : (Z * Z * Z * Z) * list Z :=
  match n with
  | O => (acc, l)
  | Datatypes.S n =>
      let '(v1, v2, v3, v4) := acc in
      stripes n (round v1 (lane 0 l), round v2 (lane 1 l), round v3 (lane 2 l),
                 round v4 (lane 3 l)) (drop 32 l)
  end.

Fixpoint tail1 (h : Z) (l : list Z) : Z :=
  match l with
  | [] => h
  | b :: l => tail1 (w64 (rotl (Z.lxor h (w64 (b * P5))) 11 * P1)) l
  end.

Definition tail4 (h : Z) (l : list Z) : Z :=
  if (4 <=? length l)%nat then
    tail1 (w64 (rotl (Z.lxor h (w64 (le_combine (take 4 l) * P1))) 23 * P2 + P3)) (drop 4 l)
  else tail1 h l.

Fixpoint tail8 (n : nat) (h : Z) (l : list Z) : Z :=
  match n with
  | O => tail4 h l
  | Datatypes.S n =>
      tail8 n (w64 (rotl (Z.lxor h (round 0 (lane 0 l))) 27 * P1 + P4)) (drop 8 l)
  end.

Definition avalanche (h : Z) : Z :=
  let h := w64 (Z.lxor h (Z.shiftr h 33) * P2) in
  let h := w64 (Z.lxor h (Z.shiftr h 29) * P3) in
  Z.lxor h (Z.shiftr h 32).
End xxhash.
Import xxhash.

Definition xxh64 (seed : Z) (l : list Z) : Z :=
  let '(h, rest) :=
    if (32 <=? length l)%nat then
      let '((v1, v2, v3, v4), rest) :=
        stripes (length l / 32) (w64 (seed + P1 + P2), w64 (seed + P2), seed, w64 (seed - P1)) l in
      (merge (merge (merge (merge
         (w64 (rotl v1 1 + rotl v2 7 + rotl v3 12 + rotl v4 18)) v1) v2) v3) v4, rest)
    else (w64 (seed + P5), l) in
  avalanche (tail8 (length rest / 8) (w64 (h + Z.of_nat (length l))) rest).

(** ** The hash the runtime uses *)
Class Hashing := { twox_128 : list Z -> list Z }.

Class HashingLaws (hashing : Hashing) : Prop := {
  twox_128_xxh64 l : twox_128 l = le_split 8 (xxh64 0 l) ++ le_split 8 (xxh64 1 l);
}.

Section Keys.
Context {hashing : Hashing}.

Definition pallet_prefix (pallet : string) : list Z := twox_128 (bytes_of pallet).

(** The key of the storage value [item] of [pallet]. *)
Definition storage_key (pallet item : string) : list Z :=
  pallet_prefix pallet ++ twox_128 (bytes_of item).

Definition belongs_to (pallet : string) (key : list Z) : Prop :=
  pallet_prefix pallet `prefix_of` key.
#[export] Instance belongs_to_dec pallet key : Decision (belongs_to pallet key).
Proof. unfold belongs_to. apply _. Defined.

Lemma storage_key_belongs pallet item : belongs_to pallet (storage_key pallet item).
Proof. by apply prefix_app_r. Qed.

Context {laws : HashingLaws hashing}.

Lemma length_pallet_prefix pallet : length (pallet_prefix pallet) = 16%nat.
Proof.
  unfold pallet_prefix. by rewrite twox_128_xxh64, length_app, !length_le_split.
Qed.

(** A key belongs to at most one of two pallets with different prefixes. *)
Lemma belongs_to_prefix p q key :
  belongs_to p key -> belongs_to q key -> pallet_prefix p = pallet_prefix q.
Proof.
  intros [k1 ->] [k2 H]. apply app_inj_1 in H as [H _]; [done|].
  by rewrite !length_pallet_prefix.
Qed.
End Keys.

Arguments pallet_prefix : simpl never.
Arguments storage_key : simpl never.
Arguments xxh64 : simpl never.

(** The hash, computed. *)
#[export] Instance xx_hashing : Hashing :=
  {| twox_128 l := le_split 8 (xxh64 0 l) ++ le_split 8 (xxh64 1 l) |}.
#[export] Instance xx_hashing_laws : HashingLaws xx_hashing.
Proof. by split. Qed.

(** Test vectors of the algorithm: the empty input, and inputs shorter and
    longer than a stripe. *)
Example xxh64_empty : xxh64 0 [] = 0xEF46DB3751D8E999.
Proof. reflexivity. Qed.
Example xxh64_abc : xxh64 0 (bytes_of "abc") = 0x44BC2CF5AD770999.
Proof. reflexivity. Qed.
Example xxh64_long :
  xxh64 0 (bytes_of "Nobody inspects the spammish repetition") = 0xFBCEA83C8A378BF1.
Proof. reflexivity. Qed.
