(* ===== verification/Constants.v ===== *)
(** * Chain constants: runtime/src/constants.rs and the numeric aliases of
    runtime/src/common.rs

    Every constant is evaluated at the width of its Rust type; [const!] makes
    the definition fail to type-check if that evaluation overflows, which is
    when rustc rejects the constant. *)
From S2P Require Import Prelude.

(** ** runtime/src/common.rs: the numeric type aliases *)
Definition BlockNumber : width := W32.
Definition AccountIndex : width := W32.
Definition Balance : width := W128.
Definition Moment : width := W64.
Definition Index : width := W32.

(** ** [pub mod currency] *)
Module currency.
Definition BDTS : Z := const! (checked Balance 1000000000000).
Definition DOLLARS : Z := const! (checked_div Balance BDTS 100).
Definition CENTS : Z := const! (checked_div Balance DOLLARS 100).
Definition MILLICENTS : Z := const! (checked_div Balance CENTS 1000).

(** [items as Balance * 20 * DOLLARS + (bytes as Balance) * 100 * MILLICENTS],
    with the overflow check of each operation. *)
Definition deposit (items bytes : Z) : option Z :=
  i20 ← checked_mul Balance (as_ Balance items) 20;
  per_items ← checked_mul Balance i20 DOLLARS;
  b100 ← checked_mul Balance (as_ Balance bytes) 100;
  per_bytes ← checked_mul Balance b100 MILLICENTS;
  checked_add Balance per_items per_bytes.
End currency.

(** ** [pub mod time] *)
Module time.
Definition MILLISECS_PER_BLOCK : Z := const! (checked Moment 6000).
Definition SLOT_DURATION : Z := MILLISECS_PER_BLOCK.
Definition PRIMARY_PROBABILITY : Z * Z := (1, 4).

Definition MINUTES : Z :=
  const! (checked_div BlockNumber 60000 (as_ BlockNumber MILLISECS_PER_BLOCK)).
Definition HOURS : Z := const! (checked_mul BlockNumber MINUTES 60).
Definition DAYS : Z := const! (checked_mul BlockNumber HOURS 24).

Definition EPOCH_DURATION_IN_BLOCKS : Z := HOURS.
End time.

(** ** Lemmas about the constants *)
Import currency time.

Lemma DOLLARS_eq : DOLLARS = 10 ^ 10.
Proof. reflexivity. Qed.

Lemma MILLICENTS_eq : MILLICENTS = 10 ^ 5.
Proof. reflexivity. Qed.

Create Rewrite HintDb consts.
#[export] Hint Rewrite DOLLARS_eq MILLICENTS_eq : consts.

Lemma deposit_eq (items bytes : Z) :
  in_range W32 items -> in_range W32 bytes ->
  deposit items bytes = Some (20 * DOLLARS * items + 100 * MILLICENTS * bytes).
Proof.
  unfold in_range, max_value, modulus; cbn [bits]. intros Hi Hb.
  unfold deposit, checked_mul, checked_add, Balance.
  rewrite !as_small by range. rewrite DOLLARS_eq, MILLICENTS_eq.
  repeat (rewrite checked_in_range by range; cbn [mbind option_bind]).
  f_equal. lia.
Qed.

(** C31: [deposit] never overflows: for all u32 arguments every intermediate
    product and the sum fit in a u128, and the result is twenty dollars per
    storage item plus a hundred millicents per byte. *)
Theorem deposit_total (items bytes : Z) :
  in_range W32 items -> in_range W32 bytes ->
  deposit items bytes = Some (20 * DOLLARS * items + 100 * MILLICENTS * bytes).
Proof. apply deposit_eq. Qed.

Lemma deposit_total_witness :
  deposit (2 ^ 32 - 1) (2 ^ 32 - 1) = Some (200010000000 * (2 ^ 32 - 1)).
Proof. apply (deposit_total (2 ^ 32 - 1) (2 ^ 32 - 1)); range. Defined.
