(* ===== verification/Rpc.v ===== *)
(** * The RPC extensions: node/src/rpc.rs

    [create_full] builds the JSON-RPC handler of a full node.  The handler and
    the two API implementations come from external crates; [RpcApi] is the part
    of their interface the code uses. *)
From S2P Require Import Prelude.

(** The map of a handler sends a method name to its implementation.  The laws
    are those of jsonrpc's documented behaviour: a fresh handler has no method,
    and [extend_with] adds the methods of a delegate, the new ones replacing
    those of the same name. *)
Class RpcApi (Client Pool DenyUnsafe : Type) := {
  IoHandler : Type;
  Method : Type;
  Delegate : Type;
  io_default : IoHandler;
  extend_with : IoHandler -> Delegate -> IoHandler;
  (** [SystemApi::to_delegate(FullSystem::new(client, pool, deny_unsafe))] *)
  system_delegate : Client -> Pool -> DenyUnsafe -> Delegate;
  (** [TransactionPaymentApi::to_delegate(TransactionPayment::new(client))] *)
  payment_delegate : Client -> Delegate;
  methods : IoHandler -> gmap string Method;
  delegate_methods : Delegate -> gmap string Method;
}.

Class RpcLaws {Client Pool DenyUnsafe} (api : RpcApi Client Pool DenyUnsafe) : Prop := {
  methods_default : methods io_default = ∅;
  methods_extend io d : methods (extend_with io d) = delegate_methods d ∪ methods io;
}.

Section Rpc.
Context {Client Pool DenyUnsafe : Type} {api : RpcApi Client Pool DenyUnsafe}.

Record FullDeps := {
  client : Client;
  pool : Pool;
  deny_unsafe : DenyUnsafe;
}.

Definition create_full (deps : FullDeps) : IoHandler :=
  let io := io_default in
  let io := extend_with io
    (system_delegate (client deps) (pool deps) (deny_unsafe deps)) in
  let io := extend_with io (payment_delegate (client deps)) in
  io.

Context {laws : RpcLaws api}.

Lemma create_full_methods (deps : FullDeps) :
  methods (create_full deps) =
  delegate_methods (payment_delegate (client deps)) ∪
  delegate_methods (system_delegate (client deps) (pool deps) (deny_unsafe deps)).
Proof.
  unfold create_full. rewrite !methods_extend, methods_default.
  by rewrite (map_union_empty (M:=gmap string)).
Qed.

(** the handler of a full node serves every method of the transaction
    payment API and, as long as the two APIs share no method name, every
    method of the system API, each with its own implementation, and no
    other method. *)
Theorem create_full_serves (deps : FullDeps) (name : string) (m : Method) :
  delegate_methods (payment_delegate (client deps)) ##ₘ
    delegate_methods (system_delegate (client deps) (pool deps) (deny_unsafe deps)) ->
  methods (create_full deps) !! name = Some m <->
  delegate_methods (system_delegate (client deps) (pool deps) (deny_unsafe deps)) !! name = Some m \/
  delegate_methods (payment_delegate (client deps)) !! name = Some m.
Proof.
  intros Hdisj. rewrite create_full_methods, lookup_union_Some by done. tauto.
Qed.
End Rpc.
Arguments FullDeps : clear implicits.
