(* ===== verification/ServiceApi.v ===== *)
(** * What the node service uses of the Substrate client crates

    The types, accessors and calls of sc_service, sc_consensus_babe,
    sc_finality_grandpa and the other client crates that
    node/src/service.rs uses.  Types and side-effect-free accessors are the
    fields of [ServiceApi]; functions that build or start something are the
    calls [ServiceE].  Nothing is assumed about what a call returns.

    Each function that can fail has an error type of its own, which [?] converts
    to the [ServiceError] of the caller.

    [Arc::new] and [clone] of a shared object give another name of the same
    object: in the model an object is its name, so both are the identity. *)
From S2P Require Import Prelude Effects Rpc.

(** The generic parameters of the external types: the full or the light client. *)
Inductive mode := FullNode | LightNode.

(** The external functions that can fail. *)
Inductive Fallible :=
| FullPartsFn | LightPartsFn | GrandpaImportFn | BabeConfigFn | BabeImportFn
| ImportQueueFn | NetworkFn | TasksFn | BabeFn | VoterFn.

Class ServiceApi := {
  Url : Type; Role : Type; PoolOptions : Type; PrometheusRegistry : Type;
  SetConfig : Type; ChainSpecBox : Type; DatabaseConfig : Type;
  NetworkRest : Type; ConfigRest : Type; ServiceError : Type;
  TaskManager : Type; SpawnHandle : Type; KeystoreContainer : Type; Keystore : Type;
  OnDemand : Type; RemoteBlockchain : Type; InherentDataProviders : Type;
  Executor : Type; Proposer : Type; Worker : Type; Voter : Type;
  StatusSinks : Type; SystemRpcTx : Type; NetworkStarter : Type; RpcHandlers : Type;
  TelemetryNotifier : Type; TelemetryStream : Type; VotingRule : Type;
  SharedVoterState : Type; BabeConfig : Type; BabeLink : Type;
  DenyUnsafe : Type; SubscriptionExecutor : Type; BlockAnnounceBuilder : Type;
  Client : mode -> Type; Backend : mode -> Type; SelectChain : mode -> Type;
  Pool : mode -> Type; GrandpaBlockImport : mode -> Type; LinkHalf : mode -> Type;
  BabeBlockImport : mode -> Type; ImportQueue : mode -> Type; Network : mode -> Type;

  (** [matches!(role, Role::Light)] and [Role::is_authority] *)
  is_light : Role -> bool;
  is_authority : Role -> bool;
  (** [ServiceError::Other] *)
  Other : string -> ServiceError;
  (** the error type of each external function, which [?] converts to a
      [ServiceError] *)
  CallError : Fallible -> Type;
  from_call_error {f} : CallError f -> ServiceError;
  spawn_handle : TaskManager -> SpawnHandle;
  sync_keystore : KeystoreContainer -> Keystore;
  remote_blockchain : Backend LightNode -> RemoteBlockchain;
  executor {m} : Client m -> Executor;
  on_connect_stream : TelemetryNotifier -> TelemetryStream;
  grandpa_peers_set_config : SetConfig;
  default_voting_rule : VotingRule;
  empty_voter_state : SharedVoterState;
  rpc_api :: RpcApi (Client FullNode) (Pool FullNode) DenyUnsafe;
}.

Section Calls.
Context {api : ServiceApi}.

#[export] Instance service_error_from f : From (CallError f) ServiceError := from_call_error.

(** The fields of [sc_service::Configuration] the code reads or writes. *)
Record NetworkConfiguration := {
  node_name : string;
  extra_sets : list SetConfig;
  network_rest : NetworkRest;
}.

Record Configuration := {
  role : Role;
  keystore_remote : option Url;
  transaction_pool : PoolOptions;
  prometheus_registry : option PrometheusRegistry;
  network : NetworkConfiguration;
  chain_spec : ChainSpecBox;
  database : DatabaseConfig;
  force_authoring : bool;
  disable_grandpa : bool;
  offchain_worker_enabled : bool;
  config_rest : ConfigRest;
}.

(** Who may author blocks, from the node's runtime version:
    [sp_consensus::CanAuthorWithNativeVersion] or [NeverCanAuthor]. *)
Inductive CanAuthorWith :=
| CanAuthorWithNativeVersion (e : Executor)
| NeverCanAuthor.

Record BuildNetworkParams (m : mode) := {
  np_config : Configuration;
  np_client : Client m;
  np_transaction_pool : Pool m;
  np_spawn_handle : SpawnHandle;
  np_import_queue : ImportQueue m;
  np_on_demand : option OnDemand;
  np_block_announce_validator_builder : option BlockAnnounceBuilder;
}.

(** The type the RPC builder returns: the light client registers nothing. *)
Definition RpcExtension (m : mode) : Type :=
  match m with FullNode => IoHandler | LightNode => unit end.

Record SpawnTasksParams (m : mode) := {
  st_network : Network m;
  st_client : Client m;
  st_keystore : Keystore;
  st_task_manager : TaskManager;
  st_transaction_pool : Pool m;
  st_rpc_extensions_builder : DenyUnsafe -> SubscriptionExecutor -> RpcExtension m;
  st_on_demand : option OnDemand;
  st_remote_blockchain : option RemoteBlockchain;
  st_backend : Backend m;
  st_network_status_sinks : StatusSinks;
  st_system_rpc_tx : SystemRpcTx;
  st_config : Configuration;
}.

Record BabeParams := {
  bp_keystore : Keystore;
  bp_client : Client FullNode;
  bp_select_chain : SelectChain FullNode;
  bp_env : Proposer;
  bp_block_import : BabeBlockImport FullNode;
  bp_sync_oracle : Network FullNode;
  bp_inherent_data_providers : InherentDataProviders;
  bp_force_authoring : bool;
  bp_backoff_authoring_blocks : option unit;
  bp_babe_link : BabeLink;
  bp_can_author_with : CanAuthorWith;
}.

Record GrandpaConfig := {
  gc_gossip_duration_millis : Z;
  gc_justification_period : Z;
  gc_name : option string;
  gc_observer_enabled : bool;
  gc_keystore : option Keystore;
  gc_is_authority : bool;
}.

Record GrandpaParams := {
  gp_config : GrandpaConfig;
  gp_link : LinkHalf FullNode;
  gp_network : Network FullNode;
  gp_telemetry_on_connect : option TelemetryStream;
  gp_voting_rule : VotingRule;
  gp_prometheus_registry : option PrometheusRegistry;
  gp_shared_voter_state : SharedVoterState;
}.

(** A task handed to [spawn_essential_handle().spawn_blocking]. *)
Inductive Task := BabeTask (w : Worker) | GrandpaTask (v : Voter).

Inductive ServiceE : Type -> Type :=
| NewFullParts (config : Configuration) :
    ServiceE (result (CallError FullPartsFn)
      (Client FullNode * Backend FullNode * KeystoreContainer * TaskManager))
| NewLightParts (config : Configuration) :
    ServiceE (result (CallError LightPartsFn)
      (Client LightNode * Backend LightNode * KeystoreContainer * TaskManager * OnDemand))
| LongestChainNew {m} (backend : Backend m) : ServiceE (SelectChain m)
| InherentDataProvidersNew : ServiceE InherentDataProviders
| BasicPoolNewFull (options : PoolOptions) (is_validator : bool)
    (prometheus : option PrometheusRegistry) (spawner : SpawnHandle)
    (client : Client FullNode) : ServiceE (Pool FullNode)
| BasicPoolNewLight (options : PoolOptions) (prometheus : option PrometheusRegistry)
    (spawner : SpawnHandle) (client : Client LightNode) (fetcher : OnDemand) :
    ServiceE (Pool LightNode)
| GrandpaBlockImportNew {m} (client genesis_authorities_provider : Client m)
    (select_chain : SelectChain m) :
    ServiceE (result (CallError GrandpaImportFn) (GrandpaBlockImport m * LinkHalf m))
| BabeConfigGetOrCompute {m} (client : Client m) :
    ServiceE (result (CallError BabeConfigFn) BabeConfig)
| BabeBlockImportNew {m} (config : BabeConfig) (wrapped : GrandpaBlockImport m)
    (client : Client m) :
    ServiceE (result (CallError BabeImportFn) (BabeBlockImport m * BabeLink))
| BabeImportQueue {m} (link : BabeLink) (block_import : BabeBlockImport m)
    (justification_import : option (GrandpaBlockImport m)) (client : Client m)
    (select_chain : SelectChain m) (providers : InherentDataProviders)
    (spawner : SpawnHandle) (prometheus : option PrometheusRegistry)
    (can_author_with : CanAuthorWith) :
    ServiceE (result (CallError ImportQueueFn) (ImportQueue m))
| BuildNetwork {m} (params : BuildNetworkParams m) :
    ServiceE (result (CallError NetworkFn)
      (Network m * StatusSinks * SystemRpcTx * NetworkStarter))
| BuildOffchainWorkers {m} (config : Configuration) (backend : Backend m)
    (spawner : SpawnHandle) (client : Client m) (network : Network m) : ServiceE unit
| SpawnTasks {m} (params : SpawnTasksParams m) :
    ServiceE (result (CallError TasksFn) (RpcHandlers * option TelemetryNotifier))
| ProposerFactoryNew (spawner : SpawnHandle) (client : Client FullNode)
    (pool : Pool FullNode) (prometheus : option PrometheusRegistry) : ServiceE Proposer
| StartBabe (params : BabeParams) : ServiceE (result (CallError BabeFn) Worker)
| RunGrandpaVoter (params : GrandpaParams) : ServiceE (result (CallError VoterFn) Voter)
| SpawnEssentialBlocking (manager : TaskManager) (name : string) (task : Task) : ServiceE unit
| StartNetwork (starter : NetworkStarter) : ServiceE unit.

(** The names of the calls, for statements about their order. *)
Inductive ServiceStep :=
| NewParts (m : mode) | MakeSelectChain | MakeInherentDataProviders | MakePool
| MakeGrandpaBlockImport | MakeBabeConfig | MakeBabeBlockImport | MakeImportQueue
| MakeNetwork | MakeOffchainWorkers | MakeTasks | MakeProposer | MakeBabeWorker
| MakeGrandpaVoter | SpawnEssential (name : string) | GoOnline.

#[export] Instance service_labels : Labels ServiceE ServiceStep := fun X e =>
  match e with
  | NewFullParts _ => NewParts FullNode
  | NewLightParts _ => NewParts LightNode
  | LongestChainNew _ => MakeSelectChain
  | InherentDataProvidersNew => MakeInherentDataProviders
  | BasicPoolNewFull _ _ _ _ _ => MakePool
  | BasicPoolNewLight _ _ _ _ _ => MakePool
  | GrandpaBlockImportNew _ _ _ => MakeGrandpaBlockImport
  | BabeConfigGetOrCompute _ => MakeBabeConfig
  | BabeBlockImportNew _ _ _ => MakeBabeBlockImport
  | BabeImportQueue _ _ _ _ _ _ _ _ _ => MakeImportQueue
  | BuildNetwork _ => MakeNetwork
  | BuildOffchainWorkers _ _ _ _ _ => MakeOffchainWorkers
  | SpawnTasks _ => MakeTasks
  | ProposerFactoryNew _ _ _ _ => MakeProposer
  | StartBabe _ => MakeBabeWorker
  | RunGrandpaVoter _ => MakeGrandpaVoter
  | SpawnEssentialBlocking _ name _ => SpawnEssential name
  | StartNetwork _ => GoOnline
  end.

#[export] Instance service_failure : Failure ServiceE ServiceError := fun X e =>
  match e in ServiceE X return X -> option ServiceError with
  | NewFullParts _ => failure_of
  | NewLightParts _ => failure_of
  | GrandpaBlockImportNew _ _ _ => failure_of
  | BabeConfigGetOrCompute _ => failure_of
  | BabeBlockImportNew _ _ _ => failure_of
  | BabeImportQueue _ _ _ _ _ _ _ _ _ => failure_of
  | BuildNetwork _ => failure_of
  | SpawnTasks _ => failure_of
  | StartBabe _ => failure_of
  | RunGrandpaVoter _ => failure_of
  | _ => fun _ => None
  end.
End Calls.

Arguments np_config {api m} _. Arguments np_client {api m} _.
Arguments np_transaction_pool {api m} _. Arguments np_spawn_handle {api m} _.
Arguments np_import_queue {api m} _. Arguments np_on_demand {api m} _.
Arguments np_block_announce_validator_builder {api m} _.
Arguments st_network {api m} _. Arguments st_client {api m} _.
Arguments st_keystore {api m} _. Arguments st_task_manager {api m} _.
Arguments st_transaction_pool {api m} _. Arguments st_rpc_extensions_builder {api m} _.
Arguments st_on_demand {api m} _. Arguments st_remote_blockchain {api m} _.
Arguments st_backend {api m} _. Arguments st_network_status_sinks {api m} _.
Arguments st_system_rpc_tx {api m} _. Arguments st_config {api m} _.

#[export] Instance mode_eq_dec : EqDecision mode.
Proof. solve_decision. Defined.
#[export] Instance service_step_eq_dec : EqDecision ServiceStep.
Proof. solve_decision. Defined.
