(* ===== verification/Service.v ===== *)
(** * The node service: node/src/service.rs

    [new_partial], [new_full] and [new_light] wire the components of a full or
    a light node together.  They are programs over the calls of [ServiceE]. *)
From S2P Require Import Prelude Effects Rpc ServiceApi.

Section Service.
Context {api : ServiceApi}.

(** [sc_service::PartialComponents], with [other] spelled out: the triple
    (block import, GRANDPA link, BABE link). *)
Record PartialComponents := {
  pc_client : Client FullNode;
  pc_backend : Backend FullNode;
  pc_task_manager : TaskManager;
  pc_keystore_container : KeystoreContainer;
  pc_import_queue : ImportQueue FullNode;
  pc_select_chain : SelectChain FullNode;
  pc_transaction_pool : Pool FullNode;
  pc_inherent_data_providers : InherentDataProviders;
  pc_other : BabeBlockImport FullNode * LinkHalf FullNode * BabeLink;
}.

Definition new_partial (config : Configuration) :
    prog ServiceE (result ServiceError PartialComponents) :=
  if bool_decide (is_Some (keystore_remote config)) then
    Ret (Err (Other "Remote Keystores are not supported."))
  else
  let? (client, backend, keystore_container, task_manager) :=
    call (NewFullParts config) in
  let* select_chain := call (LongestChainNew backend) in
  let* inherent_data_providers := call InherentDataProvidersNew in
  let* transaction_pool := call (BasicPoolNewFull
    (transaction_pool config) (is_authority (role config))
    (prometheus_registry config) (spawn_handle task_manager) client) in
  let? (grandpa_block_import, grandpa_link) :=
    call (GrandpaBlockImportNew client client select_chain) in
  let justification_import := grandpa_block_import in
  let? babe_config := call (BabeConfigGetOrCompute client) in
  let? (block_import, babe_link) :=
    call (BabeBlockImportNew babe_config grandpa_block_import client) in
  let? import_queue := call (BabeImportQueue babe_link block_import
    (Some justification_import) client select_chain inherent_data_providers
    (spawn_handle task_manager) (prometheus_registry config)
    (CanAuthorWithNativeVersion (executor client))) in
  let import_setup := (block_import, grandpa_link, babe_link) in
  Ret (Ok {|
    pc_client := client;
    pc_backend := backend;
    pc_task_manager := task_manager;
    pc_keystore_container := keystore_container;
    pc_import_queue := import_queue;
    pc_select_chain := select_chain;
    pc_transaction_pool := transaction_pool;
    pc_inherent_data_providers := inherent_data_providers;
    pc_other := import_setup |}).

(** [config.network.extra_sets.push(set)] *)
Definition push_extra_set (config : Configuration) (set : SetConfig) : Configuration :=
  {| role := role config;
     keystore_remote := keystore_remote config;
     transaction_pool := transaction_pool config;
     prometheus_registry := prometheus_registry config;
     network :=
       {| node_name := node_name (network config);
          extra_sets := extra_sets (network config) ++ [set];
          network_rest := network_rest (network config) |};
     chain_spec := chain_spec config;
     database := database config;
     force_authoring := force_authoring config;
     disable_grandpa := disable_grandpa config;
     offchain_worker_enabled := offchain_worker_enabled config;
     config_rest := config_rest config |}.

(** The closure handed to [spawn_tasks]. *)
Definition rpc_extensions_builder (client : Client FullNode) (pool : Pool FullNode)
    (deny_unsafe : DenyUnsafe) (_ : SubscriptionExecutor) : IoHandler :=
  create_full {| Rpc.client := client; Rpc.pool := pool; Rpc.deny_unsafe := deny_unsafe |}.

(** The block [if role.is_authority() { ... }] of [new_full]. *)
Definition start_authoring (config : Configuration) (c : PartialComponents)
    (net : Network FullNode) : prog ServiceE (result ServiceError unit) :=
  let '(block_import, _, babe_link) := pc_other c in
  let* proposer := call (ProposerFactoryNew (spawn_handle (pc_task_manager c))
    (pc_client c) (pc_transaction_pool c) (prometheus_registry config)) in
  let can_author_with := CanAuthorWithNativeVersion (executor (pc_client c)) in
  let babe_config := {|
    bp_keystore := sync_keystore (pc_keystore_container c);
    bp_client := pc_client c;
    bp_select_chain := pc_select_chain c;
    bp_env := proposer;
    bp_block_import := block_import;
    bp_sync_oracle := net;
    bp_inherent_data_providers := pc_inherent_data_providers c;
    bp_force_authoring := force_authoring config;
    bp_backoff_authoring_blocks := None;
    bp_babe_link := babe_link;
    bp_can_author_with := can_author_with |} in
  let? babe := call (StartBabe babe_config) in
  call (SpawnEssentialBlocking (pc_task_manager c) "babe" (BabeTask babe)) ;;;
  Ret (Ok tt).

(** The block [if enable_grandpa { ... }] of [new_full]. *)
Definition start_grandpa (config : Configuration) (c : PartialComponents)
    (net : Network FullNode) (telemetry : option TelemetryNotifier) :
    prog ServiceE (result ServiceError unit) :=
  let '(_, grandpa_link, _) := pc_other c in
  let keystore := if is_authority (role config)
    then Some (sync_keystore (pc_keystore_container c)) else None in
  let grandpa_config := {|
    gc_gossip_duration_millis := 333;
    gc_justification_period := 512;
    gc_name := Some (node_name (network config));
    gc_observer_enabled := false;
    gc_keystore := keystore;
    gc_is_authority := is_authority (role config) |} in
  let grandpa_params := {|
    gp_config := grandpa_config;
    gp_link := grandpa_link;
    gp_network := net;
    gp_telemetry_on_connect := on_connect_stream <$> telemetry;
    gp_voting_rule := default_voting_rule;
    gp_prometheus_registry := prometheus_registry config;
    gp_shared_voter_state := empty_voter_state |} in
  let? voter := call (RunGrandpaVoter grandpa_params) in
  call (SpawnEssentialBlocking (pc_task_manager c) "grandpa-voter" (GrandpaTask voter)) ;;;
  Ret (Ok tt).

Definition new_full (config : Configuration) :
    prog ServiceE (result ServiceError TaskManager) :=
  let? c := new_partial config in
  let enable_grandpa := negb (disable_grandpa config) in
  let config := push_extra_set config grandpa_peers_set_config in
  let? (net, network_status_sinks, system_rpc_tx, network_starter) :=
    call (BuildNetwork {|
      np_config := config;
      np_client := pc_client c;
      np_transaction_pool := pc_transaction_pool c;
      np_spawn_handle := spawn_handle (pc_task_manager c);
      np_import_queue := pc_import_queue c;
      np_on_demand := None;
      np_block_announce_validator_builder := None |}) in
  (if offchain_worker_enabled config
   then call (BuildOffchainWorkers config (pc_backend c)
                (spawn_handle (pc_task_manager c)) (pc_client c) net) ;;; Ret tt
   else Ret tt) ;;;
  let? (_rpc_handlers, telemetry_connection_notifier) := call (SpawnTasks (m:=FullNode) {|
    st_network := net;
    st_client := pc_client c;
    st_keystore := sync_keystore (pc_keystore_container c);
    st_task_manager := pc_task_manager c;
    st_transaction_pool := pc_transaction_pool c;
    st_rpc_extensions_builder :=
      rpc_extensions_builder (pc_client c) (pc_transaction_pool c);
    st_on_demand := None;
    st_remote_blockchain := None;
    st_backend := pc_backend c;
    st_network_status_sinks := network_status_sinks;
    st_system_rpc_tx := system_rpc_tx;
    st_config := config |}) in
  let? _ := (if is_authority (role config)
             then start_authoring config c net else Ret (Ok tt)) in
  let? _ := (if enable_grandpa
             then start_grandpa config c net telemetry_connection_notifier
             else Ret (Ok tt)) in
  call (StartNetwork network_starter) ;;;
  Ret (Ok (pc_task_manager c)).

Definition new_light (config : Configuration) :
    prog ServiceE (result ServiceError TaskManager) :=
  let? (client, backend, keystore_container, task_manager, on_demand) :=
    call (NewLightParts config) in
  let config := push_extra_set config grandpa_peers_set_config in
  let* select_chain := call (LongestChainNew backend) in
  let* inherent_data_providers := call InherentDataProvidersNew in
  let* transaction_pool := call (BasicPoolNewLight
    (transaction_pool config) (prometheus_registry config)
    (spawn_handle task_manager) client on_demand) in
  let? (grandpa_block_import, _) :=
    call (GrandpaBlockImportNew client client select_chain) in
  let justification_import := grandpa_block_import in
  let? babe_config := call (BabeConfigGetOrCompute client) in
  let? (block_import, babe_link) :=
    call (BabeBlockImportNew babe_config grandpa_block_import client) in
  let? import_queue := call (BabeImportQueue babe_link block_import
    (Some justification_import) client select_chain inherent_data_providers
    (spawn_handle task_manager) (prometheus_registry config) NeverCanAuthor) in
  let? (net, network_status_sinks, system_rpc_tx, network_starter) :=
    call (BuildNetwork {|
      np_config := config;
      np_client := client;
      np_transaction_pool := transaction_pool;
      np_spawn_handle := spawn_handle task_manager;
      np_import_queue := import_queue;
      np_on_demand := Some on_demand;
      np_block_announce_validator_builder := None |}) in
  (if offchain_worker_enabled config
   then call (BuildOffchainWorkers config backend (spawn_handle task_manager)
                client net) ;;; Ret tt
   else Ret tt) ;;;
  let? _ := call (SpawnTasks (m:=LightNode) {|
    st_remote_blockchain := Some (remote_blockchain backend);
    st_transaction_pool := transaction_pool;
    st_task_manager := task_manager;
    st_on_demand := Some on_demand;
    st_rpc_extensions_builder := fun _ _ => tt;
    st_config := config;
    st_client := client;
    st_keystore := sync_keystore keystore_container;
    st_backend := backend;
    st_network := net;
    st_network_status_sinks := network_status_sinks;
    st_system_rpc_tx := system_rpc_tx |}) in
  call (StartNetwork network_starter) ;;;
  Ret (Ok task_manager).
End Service.
