(* ===== verification/ServiceSpec.v ===== *)
(** * What the node service promises

    Theorems about [new_partial], [new_full] and [new_light]: the order in
    which a node is brought up, what happens when a step fails, and how the
    components are wired to each other. *)
From S2P Require Import Prelude Effects Rpc ServiceApi Service.

(** ** The abstract schedules *)

Definition partial_schedule : list ServiceStep :=
  [NewParts FullNode; MakeSelectChain; MakeInherentDataProviders; MakePool;
   MakeGrandpaBlockImport; MakeBabeConfig; MakeBabeBlockImport; MakeImportQueue].

Definition full_schedule (authority grandpa offchain : bool) : list ServiceStep :=
  partial_schedule ++ [MakeNetwork] ++
  (if offchain then [MakeOffchainWorkers] else []) ++ [MakeTasks] ++
  (if authority then [MakeProposer; MakeBabeWorker; SpawnEssential "babe"] else []) ++
  (if grandpa then [MakeGrandpaVoter; SpawnEssential "grandpa-voter"] else []) ++
  [GoOnline].

Definition light_schedule (offchain : bool) : list ServiceStep :=
  [NewParts LightNode; MakeSelectChain; MakeInherentDataProviders; MakePool;
   MakeGrandpaBlockImport; MakeBabeConfig; MakeBabeBlockImport; MakeImportQueue;
   MakeNetwork] ++
  (if offchain then [MakeOffchainWorkers] else []) ++ [MakeTasks; GoOnline].

(** One step of a schedule proof: a fallible call, an infallible call, or the end. *)
Ltac schedule_step :=
  lazymatch goal with
  | |- follows (try_bind (call ?e) ?f) (?l :: ?s) =>
      change (follows (try_bind (call e) f) (label (L:=ServiceStep) e :: s));
      apply follows_call_try_cons; [done|intros ?]
  | |- follows (bind (call ?e) ?f) (?l :: ?s) =>
      change (follows (bind (call e) f) (label (L:=ServiceStep) e :: s));
      apply follows_call; [done|intros ?]
  | |- follows (bind (if ?b then bind (call ?e) ?g else Ret tt) ?f)
         ((if _ then _ else []) ++ ?s) =>
      change (follows (bind (if b then bind (call e) g else Ret tt) f)
                ((if b then [label (L:=ServiceStep) e] else []) ++ s));
      apply follows_when; [done|cbn [app]]
  | |- follows (Ret (Ok _)) _ => apply follows_ret
  | |- follows (match ?x with _ => _ end) _ => destruct x
  end.
Ltac schedule := repeat schedule_step.

Section Schedules.
Context {api : ServiceApi}.

Lemma new_partial_follows (config : Configuration) :
  keystore_remote config = None -> follows (new_partial config) partial_schedule.
Proof.
  intros Hk. unfold new_partial. rewrite Hk, bool_decide_false by (by intros []).
  unfold partial_schedule. schedule.
Qed.

Lemma start_authoring_follows config c net :
  follows (start_authoring config c net)
    [MakeProposer; MakeBabeWorker; SpawnEssential "babe"].
Proof. unfold start_authoring. schedule. Qed.

Lemma start_grandpa_follows config c net telemetry :
  follows (start_grandpa config c net telemetry)
    [MakeGrandpaVoter; SpawnEssential "grandpa-voter"].
Proof. unfold start_grandpa. schedule. Qed.

Hint Resolve start_authoring_follows start_grandpa_follows : effects.

Lemma new_full_follows (config : Configuration) :
  keystore_remote config = None ->
  follows (new_full config)
    (full_schedule (is_authority (role config)) (negb (disable_grandpa config))
       (offchain_worker_enabled config)).
Proof.
  intros Hk. unfold new_full, full_schedule.
  apply follows_try; [by apply new_partial_follows|]. intros c. cbn [app].
  schedule.
  apply follows_try; [cbn; auto with effects|intros _].
  apply follows_try; [auto with effects|intros _]. schedule.
Qed.

Lemma new_light_follows (config : Configuration) :
  follows (new_light config) (light_schedule (offchain_worker_enabled config)).
Proof.
  unfold new_light, light_schedule. cbn [app]. schedule.
Qed.
End Schedules.

(** ** Bringing a full node up *)

(** The essential tasks a run spawned, in order. *)
Definition essential_tasks (steps : list ServiceStep) : list string :=
  omap (fun s => match s with SpawnEssential name => Some name | _ => None end) steps.

(** Going online is the last step of a schedule, and only that. *)
Lemma full_schedule_online a g o :
  exists s, full_schedule a g o = s ++ [GoOnline] /\ (GoOnline ∉ s).
Proof.
  exists (removelast (full_schedule a g o)).
  destruct a, g, o; (split; [reflexivity|apply (bool_decide_unpack _); vm_compute; exact I]).
Qed.

Lemma light_schedule_online o :
  exists s, light_schedule o = s ++ [GoOnline] /\ (GoOnline ∉ s).
Proof.
  exists (removelast (light_schedule o)).
  destruct o; (split; [reflexivity|apply (bool_decide_unpack _); vm_compute; exact I]).
Qed.

Section FullNode.
Context {api : ServiceApi}.

(** A run that fails along a schedule that ends with going online does not
    go online: that call cannot fail. *)
Lemma abort_offline {A} (p : prog ServiceE (result ServiceError A)) s t e :
  follows p (s ++ [GoOnline]) -> (GoOnline ∉ s) -> exec p t (Err e) ->
  GoOnline ∉ (ev_label <$> t).
Proof.
  intros Hp Hnot H. apply Hp in H as (t' & ev & -> & _ & He & Hpre).
  apply (prefix_without_last _ _ _ Hpre Hnot).
  rewrite fmap_app. change (ev_label <$> [ev]) with [ev_label (L:=ServiceStep) ev].
  rewrite last_snoc. destruct ev as [X e' x]. cbn in He |- *.
  by destruct e'.
Qed.

Definition refusal {A} : prog ServiceE (result ServiceError A) :=
  Ret (Err (Other "Remote Keystores are not supported.")).

Lemma new_partial_refuses config :
  is_Some (keystore_remote config) -> new_partial config = refusal.
Proof. intros Hk. unfold new_partial. by rewrite bool_decide_true. Qed.

Lemma new_full_refuses config :
  is_Some (keystore_remote config) -> new_full config = refusal.
Proof. intros Hk. unfold new_full. by rewrite new_partial_refuses. Qed.

(** C8: a full node without a remote keystore that comes up made exactly the
    calls of the schedule, in order and all of them successful: the partial
    components, the network, the off-chain workers if they are enabled, the
    RPC and pool tasks, block authoring if the node is an authority, the
    GRANDPA voter unless it is disabled, and the network start last. *)
Theorem new_full_bring_up (config : Configuration) t (tm : TaskManager) :
  keystore_remote config = None ->
  exec (new_full config) t (Ok tm) ->
  ev_label <$> t =
    full_schedule (is_authority (role config)) (negb (disable_grandpa config))
      (offchain_worker_enabled config) /\
  Forall succeeded t.
Proof. intros Hk H. by apply new_full_follows in H. Qed.

(** C9: a full node that does not come up never goes online.  With a remote
    keystore it is refused before any call is made; otherwise its calls follow
    the schedule up to the first that fails, and the node returns that call's
    error, converted to a service error. *)
Theorem new_full_abort (config : Configuration) t (e : ServiceError) :
  exec (new_full config) t (Err e) ->
  (GoOnline ∉ (ev_label <$> t)) /\
  match keystore_remote config with
  | Some _ => t = [] /\ e = Other "Remote Keystores are not supported."
  | None =>
      (exists t' ev, t = t' ++ [ev] /\ Forall succeeded t' /\ ev_failure ev = Some e) /\
      (ev_label <$> t) `prefix_of`
        full_schedule (is_authority (role config)) (negb (disable_grandpa config))
          (offchain_worker_enabled config)
  end.
Proof.
  intros H. destruct (keystore_remote config) eqn:Hk.
  - rewrite new_full_refuses in H by eauto. destruct H as [-> [= ->]].
    split; [apply not_elem_of_nil|done].
  - pose proof (new_full_follows config Hk) as Hf. split.
    + edestruct full_schedule_online as (s & Hs & Hnot).
      apply (abort_offline (new_full config) s t e); [rewrite <- Hs|done..]. exact Hf.
    + apply Hf in H as (t' & ev & -> & Hok & He & Hpre). split; [by exists t', ev|done].
Qed.

(** a remote keystore is refused before anything is built: the only run
    of [new_partial] and of [new_full] makes no call and returns the error. *)
Theorem new_full_remote_keystore (config : Configuration) (url : Url) t r :
  keystore_remote config = Some url ->
  exec (new_full config) t r <->
  t = [] /\ r = Err (Other "Remote Keystores are not supported.").
Proof.
  intros Hk. by rewrite new_full_refuses by eauto.
Qed.

(** the essential tasks of a full node that came up are the block author,
    exactly on authorities, and then the GRANDPA voter, exactly when it is
    not disabled. *)
Theorem new_full_essential_tasks (config : Configuration) t (tm : TaskManager) :
  keystore_remote config = None ->
  exec (new_full config) t (Ok tm) ->
  essential_tasks (ev_label <$> t) =
    (if is_authority (role config) then ["babe"%string] else []) ++
    (if disable_grandpa config then [] else ["grandpa-voter"%string]).
Proof.
  intros Hk H. apply new_full_follows in H as [-> _]; [|done].
  by destruct (is_authority _), (disable_grandpa _), (offchain_worker_enabled _).
Qed.
End FullNode.

(** ** Wiring *)

Section Wiring.
Context {api : ServiceApi}.
Context (config : Configuration).

(** What the components of a full node are given, once its partial
    components [c] are built: everything shares the one client, backend,
    pool, keystore and task manager of [c], and the configuration with the
    GRANDPA peer set added. *)
Definition network_wired (c : PartialComponents) (p : BuildNetworkParams FullNode) : Prop :=
  np_config p = push_extra_set config grandpa_peers_set_config /\
  np_client p = pc_client c /\ np_transaction_pool p = pc_transaction_pool c /\
  np_spawn_handle p = spawn_handle (pc_task_manager c) /\
  np_import_queue p = pc_import_queue c /\ np_on_demand p = None.

Definition tasks_wired (c : PartialComponents) (net : Network FullNode)
    (p : SpawnTasksParams FullNode) : Prop :=
  st_config p = push_extra_set config grandpa_peers_set_config /\
  st_client p = pc_client c /\ st_backend p = pc_backend c /\
  st_transaction_pool p = pc_transaction_pool c /\
  st_task_manager p = pc_task_manager c /\
  st_keystore p = sync_keystore (pc_keystore_container c) /\ st_network p = net /\
  forall deny ex, st_rpc_extensions_builder p deny ex =
    create_full {| Rpc.client := pc_client c; Rpc.pool := pc_transaction_pool c;
                   Rpc.deny_unsafe := deny |}.

Definition author_wired (c : PartialComponents) (net : Network FullNode)
    (p : BabeParams) : Prop :=
  is_authority (role config) = true /\
  bp_client p = pc_client c /\ bp_select_chain p = pc_select_chain c /\
  bp_keystore p = sync_keystore (pc_keystore_container c) /\
  bp_block_import p = (pc_other c).1.1 /\ bp_babe_link p = (pc_other c).2 /\
  bp_sync_oracle p = net /\ bp_force_authoring p = force_authoring config /\
  bp_can_author_with p = CanAuthorWithNativeVersion (executor (pc_client c)).

(** Only an authority votes with a keystore. *)
Definition voter_wired (c : PartialComponents) (net : Network FullNode)
    (p : GrandpaParams) : Prop :=
  disable_grandpa config = false /\
  gp_link p = (pc_other c).1.2 /\ gp_network p = net /\
  gc_is_authority (gp_config p) = is_authority (role config) /\
  gc_keystore (gp_config p) =
    (if is_authority (role config)
     then Some (sync_keystore (pc_keystore_container c)) else None) /\
  gc_observer_enabled (gp_config p) = false /\
  gc_name (gp_config p) = Some (node_name (network config)).

(** A call [new_full] may make once the network [net] is built. *)
Definition wired (c : PartialComponents) (net : Network FullNode)
    (starter : NetworkStarter) (X : Type) (e : ServiceE X) : Prop :=
  match e with
  | @BuildOffchainWorkers _ m cfg backend sp client net' =>
      offchain_worker_enabled config = true /\
      cfg = push_extra_set config grandpa_peers_set_config /\
      existT (P := fun m => (Backend m * Client m * Network m)%type)
        m (backend, client, net') =
      existT FullNode (pc_backend c, pc_client c, net)
  | @SpawnTasks _ m p =>
      match m return SpawnTasksParams m -> Prop with
      | FullNode => tasks_wired c net
      | LightNode => fun _ => False
      end p
  | ProposerFactoryNew sp client pool _ =>
      is_authority (role config) = true /\
      sp = spawn_handle (pc_task_manager c) /\
      client = pc_client c /\ pool = pc_transaction_pool c
  | StartBabe p => author_wired c net p
  | RunGrandpaVoter p => voter_wired c net p
  | SpawnEssentialBlocking tm _ _ => tm = pc_task_manager c
  | StartNetwork s => s = starter
  | _ => False
  end.

Lemma start_authoring_wired c net starter :
  is_authority (role config) = true ->
  calls (wired c net starter)
    (start_authoring (push_extra_set config grandpa_peers_set_config) c net).
Proof.
  intros Ha. unfold start_authoring.
  destruct (pc_other c) as [[bi link] babe_link] eqn:Hother.
  walk_calls; [done| |done]. unfold author_wired. cbn. by rewrite Hother.
Qed.

Lemma start_grandpa_wired c net starter telemetry :
  disable_grandpa config = false ->
  calls (wired c net starter)
    (start_grandpa (push_extra_set config grandpa_peers_set_config) c net telemetry).
Proof.
  intros Hg. unfold start_grandpa.
  destruct (pc_other c) as [[bi link] babe_link] eqn:Hother.
  walk_calls; [|done]. unfold voter_wired. cbn. by rewrite Hother.
Qed.
End Wiring.

(** Take apart an execution of a sequence of calls. *)
Ltac exec_step :=
  match goal with
  | H : exec (try_bind _ _) _ _ |- _ =>
      apply exec_try_from in H as [(? & ? & ? & -> & H & ?)|(? & H & ?)]
  | H : exec (bind _ _) _ _ |- _ => apply exec_bind in H as (? & ? & ? & -> & H & ?)
  | H : exec (call _) _ _ |- _ => apply exec_call in H as ->
  | H : exec (Ret _) _ _ |- _ => destruct H as [-> H]; simplify_eq
  | H : exec (match ?x with _ => _ end) _ _ |- _ => destruct x
  | H : Ok _ = Err _ |- _ => discriminate H
  | H : Err _ = Ok _ |- _ => discriminate H
  end.

Section WiringTheorems.
Context {api : ServiceApi}.

(** C22: the partial components of a node are built from each other: one
    client, obtained from the configuration, backs the pool, both block
    imports and the import queue; the import queue gets the BABE block
    import, which wraps the GRANDPA one, and the GRANDPA one again for
    justifications; the pool is a validator's pool exactly on authorities. *)
Theorem new_partial_wiring (config : Configuration) t (c : PartialComponents) :
  exec (new_partial config) t (Ok c) ->
  exists grandpa babe_config,
    t = [
      Event (NewFullParts config)
        (Ok (pc_client c, pc_backend c, pc_keystore_container c, pc_task_manager c));
      Event (LongestChainNew (pc_backend c)) (pc_select_chain c);
      Event InherentDataProvidersNew (pc_inherent_data_providers c);
      Event (BasicPoolNewFull (transaction_pool config) (is_authority (role config))
               (prometheus_registry config) (spawn_handle (pc_task_manager c)) (pc_client c))
        (pc_transaction_pool c);
      Event (GrandpaBlockImportNew (pc_client c) (pc_client c) (pc_select_chain c))
        (Ok (grandpa, (pc_other c).1.2));
      Event (BabeConfigGetOrCompute (pc_client c)) (Ok babe_config);
      Event (BabeBlockImportNew babe_config grandpa (pc_client c))
        (Ok ((pc_other c).1.1, (pc_other c).2));
      Event (BabeImportQueue (pc_other c).2 (pc_other c).1.1 (Some grandpa)
               (pc_client c) (pc_select_chain c) (pc_inherent_data_providers c)
               (spawn_handle (pc_task_manager c)) (prometheus_registry config)
               (CanAuthorWithNativeVersion (executor (pc_client c))))
        (Ok (pc_import_queue c))].
Proof.
  unfold new_partial. case_bool_decide; [by intros [_ ?]|].
  intros Hex. repeat exec_step. cbn. eauto.
Qed.

(** C5: a full node is wired consistently in every run, failed or not: after
    its partial components, the first call builds the network, from the
    configuration extended with the GRANDPA peer set; every later call gets
    the client, backend, pool, keystore, task manager and links of the
    partial components and the network just built; off-chain workers, block
    authoring and the voter appear only if configured, and the voter signs
    with a keystore only on authorities. *)
Theorem new_full_wiring (config : Configuration) t r :
  exec (new_full config) t r ->
  exists t1 r1 t2, t = t1 ++ t2 /\ exec (new_partial config) t1 r1 /\
  match r1 with
  | Err e => t2 = [] /\ r = Err e
  | Ok c => exists p resp t3,
      t2 = Event (BuildNetwork p) resp :: t3 /\ network_wired config c p /\
      match resp with
      | Err e => t3 = [] /\ r = Err (from e)
      | Ok (net, _, _, starter) => Forall (ev_holds (wired config c net starter)) t3
      end
  end.
Proof.
  intros Hex. unfold new_full in Hex.
  apply exec_try_bind in Hex as [(t1 & t2 & c & -> & H1 & H2) | (e & H1 & ->)].
  2: { exists t, (Err e), []. by rewrite app_nil_r. }
  exists t1, (Ok c), t2. do 2 (split; [done|]).
  apply exec_try_from in H2 as [(t3 & t4 & resp & -> & H2 & H3) | (e & H2 & ->)];
    apply exec_call in H2 as ->; (eexists _, _, _; split; [reflexivity|]; split; [done|]).
  2: done.
  destruct resp as [[[net sinks] rx] starter].
  eapply calls_sound; [|exact H3]. walk_calls; try done.
  - by apply start_authoring_wired.
  - apply start_grandpa_wired. by apply negb_true_iff.
Qed.

(** A call a light client may make. *)
Definition light_call (X : Type) (e : ServiceE X) : Prop :=
  match e with
  | @BabeImportQueue _ m _ _ _ _ _ _ _ _ can_author =>
      m = LightNode /\ can_author = NeverCanAuthor
  | @SpawnTasks _ m p =>
      match m return SpawnTasksParams m -> Prop with
      | FullNode => fun _ => False
      | LightNode => fun p =>
          st_remote_blockchain p = Some (remote_blockchain (st_backend p)) /\
          is_Some (st_on_demand p)
      end p
  | @BuildNetwork _ m p => m = LightNode /\ is_Some (np_on_demand p)
  | NewFullParts _ | BasicPoolNewFull _ _ _ _ _ | ProposerFactoryNew _ _ _ _
  | StartBabe _ | RunGrandpaVoter _ | SpawnEssentialBlocking _ _ _ => False
  | _ => True
  end.

(** C25: a light client, whatever its role and configuration, never authors,
    never votes, spawns no essential task, imports blocks under a policy that
    forbids authoring, and fetches what it lacks from remote peers. *)
Theorem new_light_passive (config : Configuration) t r :
  exec (new_light config) t r -> Forall (ev_holds light_call) t.
Proof.
  apply calls_sound. unfold new_light. walk_calls; done.
Qed.

(** C24: a light client that comes up is built from one set of light parts: the
    client, backend, on-demand fetcher, keystore and task manager obtained from
    the configuration are those of every call that takes one; the pool fetches
    on demand; the GRANDPA block import, made over this client, is wrapped by
    the BABE one and serves the queue's justifications; and the network, built
    from the configuration extended with the GRANDPA peer set, is the one that
    the off-chain workers and the tasks get, and that is started last. *)
Theorem new_light_wiring (config : Configuration) t (tm : TaskManager) :
  exec (new_light config) t (Ok tm) ->
  exists client backend keystore on_demand select_chain inherents pool grandpa link
      babe_config block_import babe_link queue net sinks rpc_tx starter handlers,
    let config' := push_extra_set config grandpa_peers_set_config in
    t = [
      Event (NewLightParts config) (Ok (client, backend, keystore, tm, on_demand));
      Event (LongestChainNew backend) select_chain;
      Event InherentDataProvidersNew inherents;
      Event (BasicPoolNewLight (transaction_pool config) (prometheus_registry config)
               (spawn_handle tm) client on_demand) pool;
      Event (GrandpaBlockImportNew client client select_chain) (Ok (grandpa, link));
      Event (BabeConfigGetOrCompute client) (Ok babe_config);
      Event (BabeBlockImportNew babe_config grandpa client) (Ok (block_import, babe_link));
      Event (BabeImportQueue babe_link block_import (Some grandpa) client select_chain inherents
               (spawn_handle tm) (prometheus_registry config) NeverCanAuthor) (Ok queue);
      Event (BuildNetwork {|
          np_config := config'; np_client := client; np_transaction_pool := pool;
          np_spawn_handle := spawn_handle tm; np_import_queue := queue;
          np_on_demand := Some on_demand; np_block_announce_validator_builder := None |})
        (Ok (net, sinks, rpc_tx, starter))] ++
      (if offchain_worker_enabled config
       then [Event (BuildOffchainWorkers config' backend (spawn_handle tm) client net) tt]
       else []) ++ [
      Event (SpawnTasks (m:=LightNode) {|
          st_config := config'; st_network := net; st_client := client;
          st_keystore := sync_keystore keystore; st_task_manager := tm;
          st_transaction_pool := pool; st_rpc_extensions_builder := fun _ _ => tt;
          st_on_demand := Some on_demand;
          st_remote_blockchain := Some (remote_blockchain backend); st_backend := backend;
          st_network_status_sinks := sinks; st_system_rpc_tx := rpc_tx |}) (Ok handlers);
      Event (StartNetwork starter) tt].
Proof.
  unfold new_light. intros Hex.
  change (offchain_worker_enabled (push_extra_set config grandpa_peers_set_config))
    with (offchain_worker_enabled config) in Hex.
  destruct (offchain_worker_enabled config); repeat exec_step;
    repeat match goal with u : unit |- _ => destruct u end; by repeat eexists.
Qed.

(** C27: a light client comes up along its own schedule, and otherwise stops
    at its first failing call with that call's error, converted to a service
    error; unlike a full node it does so even when a remote keystore is
    configured. *)
Theorem new_light_bring_up (config : Configuration) t r :
  exec (new_light config) t r ->
  match r with
  | Ok _ => ev_label <$> t = light_schedule (offchain_worker_enabled config) /\
            Forall succeeded t
  | Err e =>
      (exists t' ev, t = t' ++ [ev] /\ Forall succeeded t' /\ ev_failure ev = Some e) /\
      (ev_label <$> t) `prefix_of` light_schedule (offchain_worker_enabled config)
  end.
Proof. intros H. apply new_light_follows in H. destruct r; naive_solver. Qed.
End WiringTheorems.
