(* ===== verification/ServiceDemo.v ===== *)
(** * A concrete environment for the node service

    An instance of [ServiceApi] whose objects are unit values or names, an
    environment that answers every call, and one that fails at a chosen step:
    the concrete inputs at which the theorems of [ServiceSpec] apply. *)
From S2P Require Import Prelude Effects Rpc ServiceApi Service ServiceSpec.

(** ** An RPC handler that is its own method table *)
Definition demo_system (client pool : nat) (deny : bool) : gmap string nat :=
  list_to_map [("system_accountNextIndex"%string, client);
               ("system_dryRun"%string, if deny then 0%nat else pool)].
Definition demo_payment (client : nat) : gmap string nat :=
  list_to_map [("payment_queryInfo"%string, client)].

#[export] Instance demo_rpc : RpcApi nat nat bool := {|
  IoHandler := gmap string nat;
  Method := nat;
  Delegate := gmap string nat;
  io_default := (∅ : gmap string nat);
  extend_with := (fun io d => d ∪ io) : gmap string nat -> gmap string nat -> gmap string nat;
  system_delegate := demo_system;
  payment_delegate := demo_payment;
  methods := id;
  delegate_methods := id;
|}.

#[export] Instance demo_rpc_laws : RpcLaws demo_rpc.
Proof. by split. Qed.

Lemma create_full_serves_witness :
  methods (create_full {| client := 1%nat; pool := 2%nat; deny_unsafe := false |})
    !! "payment_queryInfo"%string = Some 1%nat.
Proof.
  refine (proj2 (create_full_serves
    {| client := 1%nat; pool := 2%nat; deny_unsafe := false |} "payment_queryInfo" 1%nat _) _).
  - apply map_disjoint_spec. intros k x y Hx Hy.
    change (({["payment_queryInfo"%string := 1%nat]} : gmap string nat) !! k = Some x) in Hx.
    apply lookup_singleton_Some in Hx as [<- _]. by vm_compute in Hy.
  - right. reflexivity.
Defined.

(** ** The service API *)
Inductive demo_role := Authority | Full | Light.

#[export] Instance demo_api : ServiceApi := {|
  Url := string; Role := demo_role; PoolOptions := unit; PrometheusRegistry := unit;
  SetConfig := string; ChainSpecBox := unit; DatabaseConfig := unit;
  NetworkRest := unit; ConfigRest := unit; ServiceError := string;
  TaskManager := nat; SpawnHandle := nat; KeystoreContainer := nat; Keystore := nat;
  OnDemand := unit; RemoteBlockchain := unit; InherentDataProviders := unit;
  Executor := nat; Proposer := unit; Worker := unit; Voter := unit;
  StatusSinks := unit; SystemRpcTx := unit; NetworkStarter := nat; RpcHandlers := unit;
  TelemetryNotifier := unit; TelemetryStream := unit; VotingRule := unit;
  SharedVoterState := unit; BabeConfig := unit; BabeLink := nat;
  DenyUnsafe := bool; SubscriptionExecutor := unit; BlockAnnounceBuilder := unit;
  Client _ := nat; Backend _ := nat; SelectChain _ := nat; Pool _ := nat;
  GrandpaBlockImport _ := nat; LinkHalf _ := nat; BabeBlockImport _ := nat;
  ImportQueue _ := nat; Network _ := nat;
  is_light r := match r with Light => true | _ => false end;
  is_authority r := match r with Authority => true | _ => false end;
  Other := id;
  CallError _ := nat;
  from_call_error _ _ := "failed"%string;
  spawn_handle tm := tm;
  sync_keystore kc := kc;
  remote_blockchain _ := tt;
  executor _ c := c;
  on_connect_stream _ := tt;
  grandpa_peers_set_config := "grandpa"%string;
  default_voting_rule := tt;
  empty_voter_state := tt;
  rpc_api := demo_rpc;
|}.

Definition demo_config (r : demo_role) (remote : option string) : Configuration := {|
  role := r;
  keystore_remote := remote;
  transaction_pool := tt;
  prometheus_registry := None;
  network := {| node_name := "alice"; extra_sets := []; network_rest := tt |};
  chain_spec := tt;
  database := tt;
  force_authoring := false;
  disable_grandpa := false;
  offchain_worker_enabled := true;
  config_rest := tt;
|}.

(** Answers a fallible call with [a], unless its step is [failing]. *)
Definition answer {A} (failing : option ServiceStep) (l : ServiceStep) (a : A) :
    result nat A :=
  if bool_decide (failing = Some l) then Err 0%nat else Ok a.

(** The environment that fails at [failing], if given, and answers otherwise. *)
Definition demo_env (failing : option ServiceStep) : handler ServiceE unit :=
  fun X e s =>
    (match e in ServiceE X return X with
     | NewFullParts _ => answer failing (NewParts FullNode) (1, 2, 3, 4)%nat
     | NewLightParts _ => answer failing (NewParts LightNode) (1, 2, 3, 4, tt)%nat
     | LongestChainNew _ => 5%nat
     | InherentDataProvidersNew => tt
     | BasicPoolNewFull _ _ _ _ _ => 6%nat
     | BasicPoolNewLight _ _ _ _ _ => 6%nat
     | GrandpaBlockImportNew _ _ _ => answer failing MakeGrandpaBlockImport (7, 8)%nat
     | BabeConfigGetOrCompute _ => answer failing MakeBabeConfig tt
     | BabeBlockImportNew _ _ _ => answer failing MakeBabeBlockImport (9, 10)%nat
     | BabeImportQueue _ _ _ _ _ _ _ _ _ => answer failing MakeImportQueue 11%nat
     | BuildNetwork _ => answer failing MakeNetwork (12%nat, tt, tt, 13%nat)
     | BuildOffchainWorkers _ _ _ _ _ => tt
     | SpawnTasks _ => answer failing MakeTasks (tt, Some tt)
     | ProposerFactoryNew _ _ _ _ => tt
     | StartBabe _ => answer failing MakeBabeWorker tt
     | RunGrandpaVoter _ => answer failing MakeGrandpaVoter tt
     | SpawnEssentialBlocking _ _ _ => tt
     | StartNetwork _ => tt
     end, s).

(** ** The theorems at concrete runs *)
Definition authority_run := new_full (demo_config Authority None).
Definition good_trace := run_trace (demo_env None) authority_run tt.
Definition no_network := Some MakeNetwork.
Definition failed_trace := run_trace (demo_env no_network) authority_run tt.

Lemma new_full_bring_up_witness :
  ev_label <$> good_trace = full_schedule true true true /\ Forall succeeded good_trace.
Proof.
  apply (new_full_bring_up (demo_config Authority None) good_trace 4%nat eq_refl).
  apply (run_exec (demo_env None) authority_run tt).
Defined.

Lemma new_full_abort_witness :
  (GoOnline ∉ (ev_label <$> failed_trace)) /\
  (exists t' ev, failed_trace = t' ++ [ev] /\ Forall succeeded t' /\
                 ev_failure ev = Some "failed"%string).
Proof.
  destruct (new_full_abort (demo_config Authority None) failed_trace "failed"
    (run_exec (demo_env no_network) authority_run tt)) as [Hoff [Hfail _]].
  exact (conj Hoff Hfail).
Defined.

Lemma new_full_remote_keystore_witness :
  exec (new_full (demo_config Authority (Some "http://keys"%string))) []
    (Err "Remote Keystores are not supported."%string).
Proof.
  refine (proj2 (new_full_remote_keystore (demo_config Authority (Some "http://keys"%string))
           "http://keys"%string [] _ eq_refl) _). done.
Defined.

Lemma new_full_essential_tasks_witness :
  essential_tasks (ev_label <$> good_trace) = ["babe"; "grandpa-voter"]%string.
Proof.
  apply (new_full_essential_tasks (demo_config Authority None) good_trace 4%nat eq_refl).
  apply (run_exec (demo_env None) authority_run tt).
Defined.

Definition demo_partial : PartialComponents := {|
  pc_client := 1%nat; pc_backend := 2%nat; pc_task_manager := 4%nat;
  pc_keystore_container := 3%nat; pc_import_queue := 11%nat; pc_select_chain := 5%nat;
  pc_transaction_pool := 6%nat; pc_inherent_data_providers := tt;
  pc_other := (9%nat, 8%nat, 10%nat) |}.

Lemma new_partial_wiring_witness :
  exists t, exec (new_partial (demo_config Full None)) t (Ok demo_partial) /\
    length t = 8%nat.
Proof.
  exists (run_trace (demo_env None) (new_partial (demo_config Full None)) tt).
  pose proof (run_exec (demo_env None) (new_partial (demo_config Full None)) tt) as H.
  split; [exact H|].
  destruct (new_partial_wiring _ _ demo_partial H) as (g & b & Ht). by rewrite Ht.
Defined.

Lemma new_full_wiring_witness :
  exists t1 r1 t2, good_trace = t1 ++ t2 /\
    exec (new_partial (demo_config Authority None)) t1 r1.
Proof.
  destruct (new_full_wiring (demo_config Authority None) good_trace _
    (run_exec (demo_env None) authority_run tt)) as (t1 & r1 & t2 & Ht & H & _).
  eauto.
Defined.

Definition light_trace :=
  run_trace (demo_env None) (new_light (demo_config Light (Some "http://keys"%string))) tt.

Lemma new_light_passive_witness : Forall (ev_holds light_call) light_trace.
Proof.
  exact (new_light_passive _ _ _ (run_exec (demo_env None)
    (new_light (demo_config Light (Some "http://keys"%string))) tt)).
Defined.

Lemma new_light_wiring_witness :
  exists starter, last light_trace = Some (Event (StartNetwork starter) tt).
Proof.
  destruct (new_light_wiring (demo_config Light (Some "http://keys"%string)) light_trace 4%nat
    (run_exec (demo_env None) (new_light (demo_config Light (Some "http://keys"%string))) tt))
    as (? & ? & ? & ? & ? & ? & ? & ? & ? & ? & ? & ? & ? & ? & ? & ? & starter & ? & Ht).
  exists starter. by rewrite Ht.
Defined.

Lemma new_light_bring_up_witness :
  ev_label <$> light_trace = light_schedule true /\ Forall succeeded light_trace.
Proof.
  exact (new_light_bring_up (demo_config Light (Some "http://keys"%string)) light_trace
    (Ok 4%nat) (run_exec (demo_env None)
    (new_light (demo_config Light (Some "http://keys"%string))) tt)).
Defined.
