(* ===== verification/TemplatePallet.v ===== *)
(** * The template pallet: pallets/template/src/lib.rs

    The pallet keeps one optional u32, [Something], and two dispatchable
    calls.  They are programs over the storage operations of the pallet
    ([TemplateE]); what FRAME itself provides is [FrameSystem] (origins,
    errors, database weights) and [TemplateStorage] (the effect of the
    storage operations on the chain state), with the documented laws. *)
From S2P Require Import Prelude Effects.

(** ** The pallet's types *)

(** [pub enum Error<T>] *)
Inductive Error := NoneValue | StorageOverflow.

(** [pub enum Event<T: Config>] *)
Inductive Event (AccountId : Type) := SomethingStored (something : Z) (who : AccountId).
Arguments SomethingStored {AccountId} _ _.

(** The pallet's dispatchables, with their arguments. *)
Inductive Call := do_something_call (something : Z) | cause_error_call.

#[export] Instance error_eq_dec : EqDecision Error.
Proof. solve_decision. Defined.

(** What the pallet uses of frame_system and frame_support.  [error_into] is the
    conversion of the pallet's errors that [?] performs. *)
Class FrameSystem := {
  AccountId : Type;
  Origin : Type;
  DispatchError : Type;
  ensure_signed : Origin -> result DispatchError AccountId;
  error_into : Error -> DispatchError;
  (** [T::DbWeight::get()]: the cost of one read and of one write, and the
      methods [writes] and [reads_writes]. *)
  db_read : Z;
  db_write : Z;
  db_writes : Z -> Z;
  db_reads_writes : Z -> Z -> Z;
}.

(** Weights are u64 and the methods of [RuntimeDbWeight] saturate. *)
Class FrameLaws (frame : FrameSystem) : Prop := {
  db_read_u64 : in_range W64 db_read;
  db_write_u64 : in_range W64 db_write;
  db_writes_eq w : db_writes w = saturating_mul W64 db_write w;
  db_reads_writes_eq r w : db_reads_writes r w =
    saturating_add W64 (saturating_mul W64 db_read r) (saturating_mul W64 db_write w);
}.

Section Pallet.
Context {frame : FrameSystem}.

(** The storage operations of the pallet. *)
Inductive TemplateE : Type -> Type :=
| SomethingGet : TemplateE (option Z)
| SomethingPut (v : Z) : TemplateE unit
| DepositEvent (e : Event AccountId) : TemplateE unit.

(** [DispatchResultWithPostInfo]; [Ok(().into())] carries no post-dispatch
    information. *)
Definition DispatchResult := result DispatchError unit.

Definition do_something (origin : Origin) (something : Z) : prog TemplateE DispatchResult :=
  let? who := Ret (ensure_signed origin) in
  call (SomethingPut something) ;;;
  call (DepositEvent (SomethingStored something who)) ;;;
  Ret (Ok tt).

Definition cause_error (origin : Origin) : prog TemplateE DispatchResult :=
  let? _who := Ret (ensure_signed origin) in
  let* value := call SomethingGet in
  match value with
  | None => Ret (Err (error_into NoneValue))
  | Some old =>
      let? new := Ret (ok_or (checked_add W32 old 1) (error_into StorageOverflow)) in
      call (SomethingPut new) ;;;
      Ret (Ok tt)
  end.

Definition dispatch (origin : Origin) (c : Call) : prog TemplateE DispatchResult :=
  match c with
  | do_something_call something => do_something origin something
  | cause_error_call => cause_error origin
  end.

(** The [#[pallet::weight]] attributes: [None] is a panic. *)
Definition do_something_weight {profile : BuildProfile} : option Z :=
  add W64 10000 (db_writes 1).
Definition cause_error_weight {profile : BuildProfile} : option Z :=
  add W64 10000 (db_reads_writes 1 1).
Definition weight {profile : BuildProfile} (c : Call) : option Z :=
  match c with
  | do_something_call _ => do_something_weight
  | cause_error_call => cause_error_weight
  end.

(** ** The chain state

    [get] is the generated getter [something].  Events are deposited only
    outside of the genesis block. *)
Class TemplateStorage (S : Type) := {
  get : S -> option Z;
  put : Z -> S -> S;
  deposit_event : Event AccountId -> S -> S;
  events : S -> list (Event AccountId);
  is_genesis : S -> bool;
}.

Class TemplateStorageLaws {S} (storage : TemplateStorage S) : Prop := {
  get_put v s : in_range W32 v -> get (put v s) = Some v;
  get_deposit e s : get (deposit_event e s) = get s;
  events_put v s : events (put v s) = events s;
  events_deposit e s :
    events (deposit_event e s) = if is_genesis s then events s else events s ++ [e];
  genesis_put v s : is_genesis (put v s) = is_genesis s;
  genesis_deposit e s : is_genesis (deposit_event e s) = is_genesis s;
}.

Section State.
Context {S : Type} {storage : TemplateStorage S}.

Definition template_handler : handler TemplateE S := fun X e s =>
  match e in TemplateE X return X * S with
  | SomethingGet => (get s, s)
  | SomethingPut v => (tt, put v s)
  | DepositEvent e => (tt, deposit_event e s)
  end.

(** Dispatch one call: its result and the state after it.  Dispatching is
    not transactional: writes made before an error would stay. *)
Definition apply_call (s : S) (x : Origin * Call) : DispatchResult * S :=
  let p := dispatch x.1 x.2 in
  (run_result template_handler p s, run_state template_handler p s).

Fixpoint apply_calls (s : S) (xs : list (Origin * Call)) : list DispatchResult * S :=
  match xs with
  | [] => ([], s)
  | x :: xs =>
      let '(r, s1) := apply_call s x in
      let '(rs, s2) := apply_calls s1 xs in (r :: rs, s2)
  end.
End State.
End Pallet.
Arguments TemplateStorage {frame} S.

Create Rewrite HintDb storage.
