(* ===== verification/TemplateSpec.v ===== *)
(** * What the template pallet promises

    The pallet refines a saturating counter ([counter_step]); from the
    refinement follow the value after any history of calls, the event log and
    the type invariant.  Failed calls change nothing, and the declared weights
    cover the database accesses of every execution. *)
From S2P Require Import Prelude Effects TemplatePallet.

Section Spec.
Context {frame : FrameSystem}.

(** A call is well typed when its u32 argument is one. *)
Definition call_typed (c : Call) : Prop :=
  match c with do_something_call v => in_range W32 v | cause_error_call => True end.
Definition call_typedb (c : Call) : bool :=
  match c with do_something_call v => in_rangeb W32 v | cause_error_call => true end.
Definition value_typed (c : option Z) : Prop := from_option (in_range W32) True c.

(** ** The abstract counter *)
Inductive counter_step :
    option Z -> Origin * Call -> result DispatchError unit -> option Z -> Prop :=
| step_unsigned c o k e :
    ensure_signed o = Err e -> counter_step c (o, k) (Err e) c
| step_store c o who v :
    ensure_signed o = Ok who -> counter_step c (o, do_something_call v) (Ok tt) (Some v)
| step_unset o who :
    ensure_signed o = Ok who ->
    counter_step None (o, cause_error_call) (Err (error_into NoneValue)) None
| step_increment o who old :
    ensure_signed o = Ok who -> old < max_value W32 ->
    counter_step (Some old) (o, cause_error_call) (Ok tt) (Some (old + 1))
| step_full o who :
    ensure_signed o = Ok who ->
    counter_step (Some (max_value W32)) (o, cause_error_call)
      (Err (error_into StorageOverflow)) (Some (max_value W32)).

Inductive counter_run :
    option Z -> list (Origin * Call) -> list (result DispatchError unit) -> option Z -> Prop :=
| run_nil c : counter_run c [] [] c
| run_cons c c1 c2 x xs r rs :
    counter_step c x r c1 -> counter_run c1 xs rs c2 ->
    counter_run c (x :: xs) (r :: rs) c2.

Lemma counter_step_typed c x r c' :
  value_typed c -> call_typed x.2 -> counter_step c x r c' -> value_typed c'.
Proof.
  unfold value_typed, in_range. intros Hc Hx Hs. destruct Hs; cbn in *; try done; lia.
Qed.

Lemma counter_run_app c xs ys rs c' :
  counter_run c (xs ++ ys) rs c' ->
  exists c1 rs1 rs2, rs = rs1 ++ rs2 /\ counter_run c xs rs1 c1 /\ counter_run c1 ys rs2 c'.
Proof.
  revert c rs. induction xs as [|x xs IH]; intros c rs H; cbn in H.
  - exists c, [], rs. repeat constructor. done.
  - inversion H as [|? c1 ? ? ? r rs' Hs Hr]; subst.
    apply IH in Hr as (c2 & rs1 & rs2 & -> & H1 & H2).
    exists c2, (r :: rs1), rs2. split; [done|]. split; [by econstructor|done].
Qed.

(** ** Calls that matter in a history *)
Definition signed (o : Origin) : bool := is_ok (ensure_signed o).
Definition is_store (x : Origin * Call) : bool :=
  match x.2 with do_something_call _ => signed x.1 | cause_error_call => false end.
Definition is_increment (x : Origin * Call) : bool :=
  match x.2 with do_something_call _ => false | cause_error_call => signed x.1 end.
Definition increments (xs : list (Origin * Call)) : Z :=
  Z.of_nat (length (List.filter is_increment xs)).

Lemma increments_cons x xs :
  increments (x :: xs) = Z.b2z (is_increment x) + increments xs.
Proof. unfold increments. cbn [List.filter]. destruct (is_increment x); cbn; lia. Qed.

Lemma increments_nonneg xs : 0 <= increments xs.
Proof. unfold increments. lia. Qed.

(** One step of a counter that is set, other than a store. *)
Lemma counter_step_increment v x r c :
  in_range W32 v -> is_store x = false -> counter_step (Some v) x r c ->
  c = Some (Z.min (v + Z.b2z (is_increment x)) (max_value W32)).
Proof.
  unfold in_range, is_store, is_increment, signed. intros Hv Hx Hs.
  inversion Hs as [? o k e Ho|? o who w Ho| |o who old Ho Hlt|o who Ho]; subst;
    cbn in *; rewrite Ho in *; cbn in *; try discriminate.
  - destruct k; cbn; f_equal; lia.
  - f_equal; lia.
  - f_equal; lia.
Qed.

Lemma counter_run_increments v xs rs c :
  in_range W32 v -> Forall (fun x => is_store x = false) xs ->
  counter_run (Some v) xs rs c ->
  c = Some (Z.min (v + increments xs) (max_value W32)).
Proof.
  intros Hv Hxs. revert v Hv rs.
  induction Hxs as [|x xs Hx _ IH]; intros v Hv rs Hrun;
    inversion Hrun as [|? c1 ? ? ? r rs' Hs Hr]; subst; unfold in_range in *.
  - unfold increments. cbn [List.filter length]. f_equal. lia.
  - apply counter_step_increment in Hs as ->; [|done..].
    apply IH in Hr as ->; [|destruct (is_increment x); cbn; lia].
    rewrite increments_cons. pose proof (increments_nonneg xs). f_equal. lia.
Qed.

(** ** The pallet refines the counter *)
Context {S : Type} {storage : TemplateStorage S} {laws : TemplateStorageLaws storage}.

Lemma apply_do_something s o v :
  apply_call s (o, do_something_call v) =
  match ensure_signed o with
  | Ok who => (Ok tt, deposit_event (SomethingStored v who) (put v s))
  | Err e => (Err e, s)
  end.
Proof. unfold apply_call. cbn. unfold do_something. by destruct (ensure_signed o). Qed.

Lemma apply_cause_error s o :
  apply_call s (o, cause_error_call) =
  match ensure_signed o, get s with
  | Err e, _ => (Err e, s)
  | Ok _, None => (Err (error_into NoneValue), s)
  | Ok _, Some old =>
      if in_rangeb W32 (old + 1) then (Ok tt, put (old + 1) s)
      else (Err (error_into StorageOverflow), s)
  end.
Proof.
  unfold apply_call, run_result, run_state. cbn. unfold cause_error.
  destruct (ensure_signed o); [|done]. cbn. destruct (get s) as [old|]; [|done].
  unfold checked_add, checked. by destruct (in_rangeb W32 (old + 1)).
Qed.

Lemma apply_call_refines s x :
  value_typed (get s) -> call_typed x.2 ->
  counter_step (get s) x (apply_call s x).1 (get (apply_call s x).2).
Proof.
  intros Hs Hx. destruct x as [o [v|]]; cbn in Hx.
  - rewrite apply_do_something. destruct (ensure_signed o) as [who|e] eqn:Ho; cbn.
    + rewrite get_deposit, get_put by done. by eapply step_store.
    + by apply step_unsigned.
  - rewrite apply_cause_error. destruct (ensure_signed o) as [who|e] eqn:Ho.
    2: by apply step_unsigned.
    destruct (get s) as [old|] eqn:Hg; cbn in *; [|rewrite Hg; by eapply step_unset].
    destruct (in_rangeb W32 (old + 1)) eqn:Hr; cbn.
    + apply in_rangeb_spec in Hr. rewrite get_put by done. unfold in_range in Hr.
      eapply step_increment; [done|lia].
    + rewrite Hg. assert (old = max_value W32) as ->.
      { assert (~ in_range W32 (old + 1)) by (rewrite <- in_rangeb_spec; congruence).
        unfold in_range in *. lia. }
      by eapply step_full.
Qed.

Lemma apply_calls_cons s x xs :
  apply_calls s (x :: xs) =
  ((apply_call s x).1 :: (apply_calls (apply_call s x).2 xs).1,
   (apply_calls (apply_call s x).2 xs).2).
Proof.
  cbn [apply_calls]. destruct (apply_call s x) as [r s1]. cbn [fst snd].
  by destruct (apply_calls s1 xs).
Qed.

Lemma apply_calls_refines s xs :
  value_typed (get s) -> Forall (fun x => call_typed x.2) xs ->
  counter_run (get s) xs (apply_calls s xs).1 (get (apply_calls s xs).2) /\
  value_typed (get (apply_calls s xs).2).
Proof.
  intros Hs Hxs. revert s Hs. induction Hxs as [|x xs Hx _ IH]; intros s Hs.
  { split; [constructor|done]. }
  rewrite apply_calls_cons. pose proof (apply_call_refines s x Hs Hx) as Hstep.
  destruct (IH _ (counter_step_typed _ _ _ _ Hs Hx Hstep)) as [Hrun Ht].
  split; [by econstructor|done].
Qed.

Lemma apply_calls_app s xs ys :
  apply_calls s (xs ++ ys) =
  ((apply_calls s xs).1 ++ (apply_calls (apply_calls s xs).2 ys).1,
   (apply_calls (apply_calls s xs).2 ys).2).
Proof.
  revert s. induction xs as [|x xs IH]; intros s.
  { cbn. by destruct (apply_calls s ys). }
  by rewrite <- app_comm_cons, !apply_calls_cons, IH.
Qed.

(** A relation that the storage operations respect relates the states before
    and after any calls. *)
Lemma apply_calls_rel (R : S -> S -> Prop) s xs :
  PreOrder R ->
  Forall (fun x => call_typed x.2) xs ->
  (forall v s, in_range W32 v -> R s (put v s)) ->
  (forall e s, R s (deposit_event e s)) ->
  R s (apply_calls s xs).2.
Proof.
  intros HR Hxs Hput Hdep. revert s. induction Hxs as [|[o c] xs Hx _ IH]; intros s; [done|].
  rewrite apply_calls_cons. etrans; [|apply IH]. destruct c as [v|]; cbn in Hx.
  - rewrite apply_do_something. destruct (ensure_signed o); cbn; [|done].
    etrans; [by apply Hput|apply Hdep].
  - rewrite apply_cause_error. repeat case_match; try done. by apply Hput, in_rangeb_spec.
Qed.

(** ** Theorems *)

(** C1: the pallet refines the counter: whatever calls are dispatched, by
    whatever origins, the results and the stored value are those of a run of
    the counter from the value stored before. *)
Theorem template_refines_counter s xs rs s' :
  value_typed (get s) -> Forall (fun x => call_typed x.2) xs ->
  apply_calls s xs = (rs, s') ->
  counter_run (get s) xs rs (get s').
Proof. intros Hs Hxs Hrun. 
  destruct (apply_calls_refines s xs Hs Hxs) as [H _]. by rewrite Hrun in H.
Qed.

(** the stored value is always a u32: the type invariant of the storage
    item is preserved by every sequence of well-typed calls. *)
Theorem something_stays_u32 s xs :
  value_typed (get s) -> Forall (fun x => call_typed x.2) xs ->
  value_typed (get (apply_calls s xs).2).
Proof. intros. by apply apply_calls_refines. Qed.

(** C10: the value after any history is determined by the last signed store and
    the number of signed increments after it: it is their sum, stuck at the
    largest u32.  Unsigned calls, failed calls and everything before the
    store leave no trace. *)
Theorem something_history s pre o who v post :
  value_typed (get s) ->
  Forall (fun x => call_typed x.2) (pre ++ (o, do_something_call v) :: post) ->
  ensure_signed o = Ok who ->
  Forall (fun x => is_store x = false) post ->
  get (apply_calls s (pre ++ (o, do_something_call v) :: post)).2 =
  Some (Z.min (v + increments post) (max_value W32)).
Proof.
  intros Hs Hxs Ho Hpost.
  destruct (apply_calls_refines s _ Hs Hxs) as [Hrun _].
  apply Forall_app in Hxs as [_ Hxs]. apply Forall_cons in Hxs as [Hv _].
  apply counter_run_app in Hrun as (c1 & rs1 & rs2 & _ & _ & Hrun).
  inversion Hrun as [|? c2 ? ? ? r rs Hstep Hr]; subst.
  inversion Hstep; subst; [congruence|].
  eapply counter_run_increments; [exact Hv|exact Hpost|exact Hr].
Qed.

(** C21: a call that fails leaves the whole chain state untouched, although
    dispatching is not transactional: every check comes before every write. *)
Theorem failed_call_noop s x e s' :
  apply_call s x = (Err e, s') -> s' = s.
Proof.
  destruct x as [o [v|]].
  - rewrite apply_do_something. destruct (ensure_signed o); naive_solver.
  - rewrite apply_cause_error. repeat case_match; naive_solver.
Qed.

(** The events a history deposits: one per signed store, in order. *)
Definition stored_event (x : Origin * Call) : option (Event AccountId) :=
  match ensure_signed x.1, x.2 with
  | Ok who, do_something_call v => Some (SomethingStored v who)
  | _, _ => None
  end.

Lemma apply_call_events s x :
  is_genesis s = false ->
  events (apply_call s x).2 = events s ++ option_list (stored_event x) /\
  is_genesis (apply_call s x).2 = false.
Proof.
  intros Hg. destruct x as [o [v|]]; unfold stored_event; cbn [fst snd].
  - rewrite apply_do_something. destruct (ensure_signed o); cbn; [|by rewrite app_nil_r].
    by rewrite events_deposit, genesis_deposit, genesis_put, events_put, Hg.
  - rewrite apply_cause_error.
    by repeat case_match; cbn; rewrite ?app_nil_r, ?events_put, ?genesis_put.
Qed.

(** C20: outside of the genesis block, the event log grows by exactly one
    [SomethingStored] per signed store, carrying the stored value and the
    signer, in dispatch order; increments and failed calls log nothing. *)
Theorem event_log s xs :
  is_genesis s = false ->
  events (apply_calls s xs).2 = events s ++ omap stored_event xs.
Proof.
  revert s. induction xs as [|x xs IH]; intros s Hg.
  { cbn. by rewrite app_nil_r. }
  rewrite apply_calls_cons. destruct (apply_call_events s x Hg) as [He Hg'].
  cbn [snd]. rewrite IH, He, <- app_assoc by done. f_equal.
  cbn. by destruct (stored_event x).
Qed.

(** C11: a signed origin that keeps calling [cause_error] on a stored value [v]
    succeeds exactly [u32::MAX - v] times and gets [StorageOverflow] from
    then on: the counter neither wraps nor panics. *)
Theorem cause_error_until_overflow s o who v n :
  ensure_signed o = Ok who -> get s = Some v -> in_range W32 v ->
  (apply_calls s (replicate n (o, cause_error_call))).1 =
  replicate (n `min` Z.to_nat (max_value W32 - v)) (Ok tt) ++
  replicate (n - Z.to_nat (max_value W32 - v)) (Err (error_into StorageOverflow)).
Proof.
  intros Ho. revert s v. induction n as [|n IH]; intros s v Hg Hv; [done|].
  cbn [replicate]. rewrite apply_calls_cons, apply_cause_error, Ho, Hg. cbn [fst].
  unfold in_range in Hv. destruct (in_rangeb W32 (v + 1)) eqn:Hr; cbn [fst snd].
  - apply in_rangeb_spec in Hr. rewrite (IH _ (v + 1)) by (by rewrite ?get_put).
    unfold in_range in Hr.
    replace (Z.to_nat (max_value W32 - v)) with (Datatypes.S (Z.to_nat (max_value W32 - (v + 1)))) by lia.
    done.
  - assert (v = max_value W32) as ->.
    { assert (~ in_range W32 (v + 1)) by (rewrite <- in_rangeb_spec; congruence).
      unfold in_range in *. lia. }
    rewrite (IH _ (max_value W32)) by done. rewrite Z.sub_diag. cbn [Z.to_nat].
    by rewrite !Nat.min_0_r, !Nat.sub_0_r.
Qed.
End Spec.

(** ** Weights *)
Section Weights.
Context {frame : FrameSystem} {laws : FrameLaws frame}.

Definition is_read (ev : event TemplateE) : bool :=
  match ev with Effects.Event SomethingGet _ => true | _ => false end.
Definition is_write (ev : event TemplateE) : bool :=
  match ev with Effects.Event (SomethingPut _) _ => true | _ => false end.

(** The database cost of an execution's accesses to the storage item. *)
Definition db_cost (t : list (event TemplateE)) : Z :=
  db_read * Z.of_nat (length (List.filter is_read t)) +
  db_write * Z.of_nat (length (List.filter is_write t)).

(** What a call can cost the database at most. *)
Definition full_cost (c : Call) : Z :=
  match c with do_something_call _ => db_write | cause_error_call => db_read + db_write end.

Lemma db_weights_u64 : 0 <= db_read < 2 ^ 64 /\ 0 <= db_write < 2 ^ 64.
Proof.
  pose proof db_read_u64. pose proof db_write_u64.
  unfold in_range, max_value, modulus in *. cbn [bits] in *. lia.
Qed.

(** Every execution stays within that cost, and one that succeeds reaches it. *)
Lemma db_cost_full o c t r :
  exec (dispatch o c) t r -> db_cost t <= full_cost c /\ (r = Ok tt -> db_cost t = full_cost c).
Proof.
  pose proof db_weights_u64.
  assert (Hnil : db_cost [] = 0) by (unfold db_cost; cbn; lia).
  destruct c as [v|]; cbn [dispatch full_cost]; unfold do_something, cause_error;
    destruct (ensure_signed o); intros Hex; cbn in Hex.
  - destruct Hex as ([] & ? & -> & [] & ? & -> & -> & ->). unfold db_cost. cbn. lia.
  - destruct Hex as [-> ->]. rewrite Hnil. split; [lia|done].
  - destruct Hex as ([old|] & ? & -> & Hex); cbn in Hex.
    + unfold checked_add, checked in Hex. destruct (in_rangeb W32 (old + 1)); cbn in Hex.
      * destruct Hex as ([] & ? & -> & -> & ->). unfold db_cost. cbn. lia.
      * destruct Hex as [-> ->]. unfold db_cost. cbn. split; [lia|done].
    + destruct Hex as [-> ->]. unfold db_cost. cbn. split; [lia|done].
  - destruct Hex as [-> ->]. rewrite Hnil. split; [lia|done].
Qed.

Context {profile : BuildProfile}.

(** The weight of a call, whose database part saturates while its sum does not. *)
Lemma weight_eq c : weight c = add W64 10000 (Z.min (max_value W64) (full_cost c)).
Proof.
  pose proof db_weights_u64.
  destruct c; cbn [weight full_cost]; unfold do_something_weight, cause_error_weight;
    rewrite ?db_writes_eq, ?db_reads_writes_eq; f_equal;
    unfold saturating_add, saturating_mul, max_value, modulus; cbn [bits]; lia.
Qed.

(** C34: the declared weight of a call is 10,000 plus what its accesses to the
    storage item cost at most, and so covers the reads and writes of the item
    in every execution and is exact for those that succeed, as long as that sum
    fits in a u64.  If it does not, the weight of a build with overflow checks
    panics, and that of another wraps around to less than 10,000.  (The writes
    of the event are frame_system's and not part of the declared weight.) *)
Theorem weight_covers_db o c t r :
  exec (dispatch o c) t r ->
  (10000 + full_cost c <= max_value W64 ->
     weight c = Some (10000 + full_cost c) /\ db_cost t <= full_cost c /\
     (r = Ok tt -> db_cost t = full_cost c)) /\
  (max_value W64 < 10000 + full_cost c ->
     if overflow_checks then weight c = None
     else exists w, weight c = Some w /\ w < 10000).
Proof.
  intros Hcost%db_cost_full. rewrite weight_eq. pose proof db_weights_u64 as Hdb.
  assert (0 <= full_cost c) by (destruct c; cbn; lia). split; intros Hsum.
  - split; [|done]. rewrite Z.min_r by lia. apply add_exact. unfold in_range. lia.
  - rewrite add_overflow.
    + destruct overflow_checks; [done|]. eexists. split; [done|].
      unfold max_value, modulus. cbn [bits]. lia.
    + range.
    + unfold in_range, max_value, modulus in *. cbn [bits] in *. lia.
    + unfold max_value, modulus in *. cbn [bits] in *. lia.
Qed.
End Weights.
