(* ===== verification/Mock.v ===== *)
(** * The mock runtime: pallets/template/src/mock.rs and tests.rs

    A concrete FRAME system for the template pallet: u64 account ids, raw
    origins, storage as a record.  The tests of the repository are run in it,
    and the theorems of [TemplateSpec] are applied in it. *)
From S2P Require Import Prelude Effects TemplatePallet TemplateSpec.

Inductive RawOrigin := Root | Signed (who : Z) | NoOrigin.
Inductive MockError := BadOrigin | ModuleError (e : Error).

(** A FRAME system with u64 account ids and these database weights. *)
Definition frame_with (read write : Z) : FrameSystem := {|
  AccountId := Z;
  Origin := RawOrigin;
  DispatchError := MockError;
  ensure_signed o := match o with Signed who => Ok who | _ => Err BadOrigin end;
  error_into := ModuleError;
  db_read := read;
  db_write := write;
  db_writes := saturating_mul W64 write;
  db_reads_writes r w :=
    saturating_add W64 (saturating_mul W64 read r) (saturating_mul W64 write w);
|}.

(** [impl system::Config for Test]: [DbWeight = ()] is the zero weight. *)
#[export] Instance Test : FrameSystem := frame_with 0 0.

#[export] Instance Test_laws : FrameLaws Test.
Proof. split; try done; vm_compute; intuition discriminate. Qed.

(** The same system with the weights of RocksDb, 25 and 100 microseconds. *)
Definition RocksTest : FrameSystem := frame_with 25000000 100000000.

Lemma RocksTest_laws : FrameLaws RocksTest.
Proof. split; try done; vm_compute; intuition discriminate. Qed.

Record MockState := {
  block_number : Z;
  something : option Z;
  logged : list (Event Z);
}.

#[export] Instance mock_storage : TemplateStorage MockState := {|
  get := something;
  put v s := {| block_number := block_number s; something := Some v; logged := logged s |};
  deposit_event (e : Event AccountId) s :=
    if block_number s =? 0 then s
    else {| block_number := block_number s; something := something s;
            logged := logged s ++ [e] |};
  events := logged;
  is_genesis s := block_number s =? 0;
|}.

#[export] Instance mock_storage_laws : TemplateStorageLaws mock_storage.
Proof.
  split; intros; cbn; try done; destruct (block_number s =? 0) eqn:H; cbn; done.
Qed.

(** [new_test_ext]: the storage built from the default genesis. *)
Definition new_test_ext : MockState :=
  {| block_number := 0; something := None; logged := [] |}.
Definition block_one (v : option Z) : MockState :=
  {| block_number := 1; something := v; logged := [] |}.

(** ** tests.rs *)
Example it_works_for_default_value :
  (apply_call new_test_ext (Signed 1, do_something_call 42)).1 = Ok tt /\
  get (apply_call new_test_ext (Signed 1, do_something_call 42)).2 = Some 42.
Proof. split; reflexivity. Qed.

Example correct_error_for_none_value :
  apply_call new_test_ext (Signed 1, cause_error_call) =
  (Err (ModuleError NoneValue), new_test_ext).
Proof. reflexivity. Qed.

(** ** The theorems at concrete inputs *)
Definition history : list (RawOrigin * Call) :=
  [(Signed 1, do_something_call 7); (Root, do_something_call 9);
   (Signed 2, do_something_call (2 ^ 32 - 2)); (Signed 1, cause_error_call);
   (NoOrigin, cause_error_call); (Signed 3, cause_error_call)].

Lemma history_typed : Forall (fun x => call_typed x.2) history.
Proof. repeat constructor; vm_compute; intuition discriminate. Defined.

Lemma template_refines_counter_witness :
  counter_run None history
    [Ok tt; Err BadOrigin; Ok tt; Ok tt; Err BadOrigin; Err (ModuleError StorageOverflow)]
    (Some (2 ^ 32 - 1)).
Proof.
  exact (template_refines_counter (block_one None) history _
    (apply_calls (block_one None) history).2 I history_typed eq_refl).
Defined.

Lemma something_stays_u32_witness :
  value_typed (get (apply_calls (block_one None) history).2).
Proof. exact (something_stays_u32 (block_one None) history I history_typed). Defined.

Lemma something_history_witness :
  get (apply_calls (block_one None) history).2 = Some (2 ^ 32 - 1).
Proof.
  refine (something_history (block_one None)
    [(Signed 1, do_something_call 7); (Root, do_something_call 9)]
    (Signed 2) 2 (2 ^ 32 - 2) _ I history_typed eq_refl _).
  repeat constructor.
Defined.

Lemma failed_call_noop_witness :
  (apply_call (block_one (Some 5)) (NoOrigin, cause_error_call)).2 = block_one (Some 5).
Proof.
  exact (failed_call_noop (block_one (Some 5)) (NoOrigin, cause_error_call) BadOrigin _ eq_refl).
Defined.

Lemma event_log_witness :
  events (apply_calls (block_one None) history).2 =
  [SomethingStored 7 1; SomethingStored (2 ^ 32 - 2) 2].
Proof. exact (event_log (block_one None) history eq_refl). Defined.

Lemma cause_error_until_overflow_witness :
  (apply_calls (block_one (Some (2 ^ 32 - 3))) (replicate 4 (Signed 1, cause_error_call))).1 =
  [Ok tt; Ok tt; Err (ModuleError StorageOverflow); Err (ModuleError StorageOverflow)].
Proof.
  refine (cause_error_until_overflow (block_one (Some (2 ^ 32 - 3))) (Signed 1) 1
    (2 ^ 32 - 3) 4 eq_refl eq_refl _).
  vm_compute. intuition discriminate.
Defined.

Lemma weight_covers_db_witness :
  weight (frame := RocksTest) (profile := false) (do_something_call 1) = Some 100010000.
Proof.
  refine (proj1 (proj1 (weight_covers_db (frame := RocksTest) (laws := RocksTest_laws)
    (profile := false) (Signed 4) (do_something_call 1)
    [Effects.Event (SomethingPut (frame := RocksTest) 1) tt;
     Effects.Event (DepositEvent (frame := RocksTest) (SomethingStored 1 4)) tt] (Ok tt) _) _)).
  - cbn. eauto 10.
  - vm_compute. discriminate.
Defined.
