(* ===== verification/RuntimeParams.v ===== *)
(** * The runtime's parameters: the [parameter_types!] blocks of
    runtime/src/lib.rs

    One definition per parameter, under its own name in the module [params].
    Integer parameters are evaluated at the width of their declared type;
    parameters computed by functions of Substrate crates are definitions over
    [SpArithmetic] and [FrameLimits], which state what those functions are
    documented to do. *)
From S2P Require Import Prelude Constants.
Import currency time.

(** ** sp_arithmetic: fixed-point fractions *)
Class SpArithmetic := {
  Perbill : Type;
  Permill : Type;
  Percent : Type;
  Perbill_from_percent : Z -> Perbill;
  Permill_from_percent : Z -> Permill;
  Percent_from_percent : Z -> Percent;
  Perbill_from_rational_approximation : Z -> Z -> Perbill;
  (** [perbill * (x : u64)] *)
  Perbill_mul : Perbill -> Z -> Z;
  (** the number of billionths *)
  Perbill_parts : Perbill -> Z;
}.

(** A percentage above a hundred saturates, and a product is off by less than one. *)
Class SpArithmeticLaws (sp : SpArithmetic) : Prop := {
  Perbill_from_percent_parts x :
    0 <= x -> Perbill_parts (Perbill_from_percent x) = Z.min x 100 * 10 ^ 7;
  Perbill_mul_parts p x :
    in_range W64 x -> Z.abs (Perbill_parts p * x - 10 ^ 9 * Perbill_mul p x) < 10 ^ 9;
}.

(** ** frame_system::limits and frame_support::weights *)
Class FrameLimits (sp : SpArithmetic) := {
  BlockWeights : Type;
  BlockLength : Type;
  with_sensible_defaults : Z -> Perbill -> BlockWeights;
  max_with_normal_ratio : Z -> Perbill -> BlockLength;
  max_block : BlockWeights -> Z;
  (** [weights.get(DispatchClass::Normal).max_extrinsic] *)
  normal_max_extrinsic : BlockWeights -> option Z;
  WEIGHT_PER_SECOND : Z;
  BlockExecutionWeight : Z;
}.

(** The sensible defaults keep the block weight they are given, and limit
    normal extrinsics to less than it. *)
Class FrameLimitsLaws {sp} (limits : FrameLimits sp) : Prop := {
  max_block_defaults w r : max_block (with_sensible_defaults w r) = w;
  normal_max_extrinsic_defaults w r :
    in_range W64 w ->
    exists m, normal_max_extrinsic (with_sensible_defaults w r) = Some m /\ 0 <= m <= w;
  WEIGHT_PER_SECOND_range : 0 < WEIGHT_PER_SECOND <= max_value W64 / 2;
  BlockExecutionWeight_range : in_range W64 BlockExecutionWeight;
}.

(** The input of [pallet_staking_reward_curve::build!], in parts per million;
    the macro computes the curve from it. *)
Record RewardCurveInput := {
  min_inflation : Z;
  max_inflation : Z;
  ideal_stake : Z;
  falloff : Z;
  max_piece_count : Z;
  test_precision : Z;
}.

Definition REWARD_CURVE : RewardCurveInput := {|
  min_inflation := 25000;
  max_inflation := 100000;
  ideal_stake := 500000;
  falloff := 50000;
  max_piece_count := 40;
  test_precision := 5000 |}.

Module params.
(** *** frame_system *)
Definition BlockHashCount : Z := const! (checked BlockNumber 2400).
Definition SS58Prefix : Z := const! (checked W8 42).

(** *** pallet_babe *)
Definition EpochDuration : Z := as_ W64 EPOCH_DURATION_IN_BLOCKS.
Definition ExpectedBlockTime : Z := MILLISECS_PER_BLOCK.
Definition ReportLongevity : Z := const! (checked W64 0).

(** *** pallet_staking *)
Definition SessionsPerEra : Z := const! (checked W32 3).
Definition BondingDuration : Z := const! (checked W32 4).
Definition SlashDeferDuration : Z := const! (checked W32 2).
Definition ElectionLookahead : Z := const! (checked_div BlockNumber EPOCH_DURATION_IN_BLOCKS 4).
Definition RewardCurve : RewardCurveInput := REWARD_CURVE.
Definition MaxNominatorRewardedPerValidator : Z := const! (checked W32 64).
Definition MaxIterations : Z := const! (checked W32 5).

(** *** pallet_collective *)
Definition CouncilMotionDuration : Z := const! (checked_mul BlockNumber 3 DAYS).
Definition CouncilMaxProposals : Z := const! (checked W32 100).
Definition CouncilMaxMembers : Z := const! (checked W32 100).
Definition TechnicalMotionDuration : Z := const! (checked_mul BlockNumber 3 DAYS).
Definition TechnicalMaxProposals : Z := const! (checked W32 100).
Definition TechnicalMaxMembers : Z := const! (checked W32 100).

(** *** pallet_elections_phragmen *)
Definition CandidacyBond : Z := const! (checked_mul Balance 1 DOLLARS).
Definition VotingBondBase : Z := const! (deposit 1 64).
Definition VotingBondFactor : Z := const! (deposit 0 32).
Definition TermDuration : Z := const! (checked_mul BlockNumber 24 HOURS).
Definition DesiredMembers : Z := const! (checked W32 19).
Definition DesiredRunnersUp : Z := const! (checked W32 19).
Definition ElectionsPhragmenModuleId : string := "phrelect".

(** [const_assert!(DesiredMembers::get() <= CouncilMaxMembers::get())]: the
    definition type-checks because the assertion holds. *)
Definition members_fit_council : (DesiredMembers <=? CouncilMaxMembers) = true := eq_refl.

(** *** pallet_treasury, pallet_bounties, pallet_tips *)
Definition TreasuryModuleId : string := "py/trsry".
Definition ProposalBondMinimum : Z := DOLLARS.
Definition SpendPeriod : Z := DAYS.
Definition BountyDepositBase : Z := DOLLARS.
Definition BountyDepositPayoutDelay : Z := DAYS.
Definition BountyUpdatePeriod : Z := const! (checked_mul BlockNumber 14 DAYS).
Definition BountyValueMinimum : Z := const! (checked_mul Balance 5 DOLLARS).
Definition TipCountdown : Z := DAYS.
Definition TipReportDepositBase : Z := DOLLARS.
Definition DataDepositPerByte : Z := CENTS.
Definition MaximumReasonLength : Z := const! (checked W32 16384).

(** *** pallet_authorship, pallet_balances, pallet_indices,
    pallet_transaction_payment *)
Definition UncleGenerations : Z := const! (checked BlockNumber 5).
Definition ExistentialDeposit : Z := const! (checked W128 500).
Definition MaxLocks : Z := const! (checked W32 50).
Definition IndexDeposit : Z := DOLLARS.
Definition TransactionByteFee : Z := const! (checked Balance 1).

(** *** pallet_multisig, pallet_recovery *)
Definition MultisigDepositBase : Z := const! (checked_mul Balance 500 MILLICENTS).
Definition MultisigDepositFactor : Z := const! (checked_mul Balance 100 MILLICENTS).
Definition MaxSignatories : Z := const! (checked W16 100).
Definition ConfigDepositBase : Z := const! (checked_mul Balance 10 CENTS).
Definition FriendDepositFactor : Z := CENTS.
Definition MaxFriends : Z := const! (checked W16 9).
Definition RecoveryDeposit : Z := const! (checked_mul Balance 10 CENTS).

(** *** pallet_proxy, pallet_scheduler, pallet_timestamp *)
Definition ProxyDepositBase : Z := const! (deposit 1 8).
Definition ProxyDepositFactor : Z := const! (deposit 0 33).
Definition MaxProxies : Z := const! (checked W16 32).
Definition AnnouncementDepositBase : Z := const! (deposit 1 8).
Definition AnnouncementDepositFactor : Z := const! (deposit 0 66).
Definition MaxPending : Z := const! (checked W16 32).
Definition MaxScheduledPerBlock : Z := const! (checked W32 50).
Definition MinimumPeriod : Z := const! (checked_div W64 SLOT_DURATION 2).

Section External.
Context {sp : SpArithmetic} {limits : FrameLimits sp}.

(** [pub mod fee] of constants.rs *)
Definition NORMAL_DISPATCH_RATIO : Perbill := Perbill_from_percent 75.

(** The parameters declared without [const] are functions, evaluated each
    time they are read: [None] is a panic. *)
Definition BlockWeights_get : option BlockWeights :=
  w ← checked_mul W64 2 WEIGHT_PER_SECOND;
  Some (with_sensible_defaults w NORMAL_DISPATCH_RATIO).
Definition BlockLength_get : option BlockLength :=
  m ← checked_mul W32 5 1024; n ← checked_mul W32 m 1024;
  Some (max_with_normal_ratio n NORMAL_DISPATCH_RATIO).

Definition DisabledValidatorsThreshold : Perbill := Perbill_from_percent 17.
Definition MinSolutionScoreBump : Perbill := Perbill_from_rational_approximation 5 10000.
Definition StakingUnsignedPriority : Z :=
  Perbill_mul (Perbill_from_percent 90) (max_value W64).

Definition OffchainSolutionWeightLimit : option Z :=
  weights ← BlockWeights_get;
  max_extrinsic ← normal_max_extrinsic weights;
  Some (saturating_sub W64 max_extrinsic BlockExecutionWeight).

Definition ProposalBond : Permill := Permill_from_percent 5.
Definition Burn : Permill := Permill_from_percent 0.
Definition BountyCuratorDeposit : Permill := Permill_from_percent 50.
Definition TipFindersFee : Percent := Percent_from_percent 10.

Definition MaximumSchedulerWeight : option Z :=
  weights ← BlockWeights_get;
  Some (Perbill_mul (Perbill_from_percent 10) (max_block weights)).
End External.
End params.
Import params.

(** ** Theorems *)

(** storage deposits do not depend on how the storage is split up: the
    deposit for the items and bytes of two parts together is the sum of the
    deposits for the parts. *)
Theorem deposit_splits (i1 i2 b1 b2 d1 d2 : Z) :
  in_range W32 i1 -> in_range W32 i2 -> in_range W32 (i1 + i2) ->
  in_range W32 b1 -> in_range W32 b2 -> in_range W32 (b1 + b2) ->
  deposit i1 b1 = Some d1 -> deposit i2 b2 = Some d2 ->
  deposit (i1 + i2) (b1 + b2) = Some (d1 + d2).
Proof.
  intros. repeat match goal with
  | H : deposit _ _ = Some _ |- _ => rewrite deposit_eq in H by done; injection H as <-
  end.
  rewrite deposit_eq by done. f_equal. ring.
Qed.

Section Limits.
Context {sp : SpArithmetic} {splaws : SpArithmeticLaws sp}.
Context {limits : FrameLimits sp} {laws : FrameLimitsLaws limits}.

Lemma BlockWeights_get_eq :
  BlockWeights_get =
    Some (with_sensible_defaults (2 * WEIGHT_PER_SECOND) NORMAL_DISPATCH_RATIO) /\
  in_range W64 (2 * WEIGHT_PER_SECOND).
Proof.
  pose proof WEIGHT_PER_SECOND_range as Hw.
  change (max_value W64 / 2) with (2 ^ 63 - 1) in Hw.
  assert (in_range W64 (2 * WEIGHT_PER_SECOND)) by range.
  unfold BlockWeights_get, checked_mul. by rewrite checked_in_range.
Qed.

(** reading the off-chain solution weight limit never panics, although it
    unwraps an optional limit, and the limit never exceeds what a normal
    extrinsic may weigh nor the whole block. *)
Theorem OffchainSolutionWeightLimit_defined :
  exists w limit max_extrinsic,
    BlockWeights_get = Some w /\ normal_max_extrinsic w = Some max_extrinsic /\
    OffchainSolutionWeightLimit = Some limit /\
    0 <= limit <= max_extrinsic /\ max_extrinsic <= max_block w.
Proof.
  destruct BlockWeights_get_eq as [Hw Hr].
  destruct (normal_max_extrinsic_defaults _ NORMAL_DISPATCH_RATIO Hr) as (m & Hm & Hle).
  eexists _, _, m. unfold OffchainSolutionWeightLimit. rewrite Hw. cbn. rewrite Hm. cbn.
  rewrite max_block_defaults. split; [done|]. split; [done|]. split; [done|].
  pose proof BlockExecutionWeight_range as [Hb _]. split; [|lia].
  apply saturating_sub_le; lia.
Qed.

(** the scheduler may use a tenth of a block, up to the rounding of one
    unit of weight, and never more than the block. *)
Theorem MaximumSchedulerWeight_tenth :
  exists w s, BlockWeights_get = Some w /\ MaximumSchedulerWeight = Some s /\
    Z.abs (max_block w - 10 * s) < 10 /\ s <= max_block w.
Proof.
  destruct BlockWeights_get_eq as [Hw Hr]. unfold MaximumSchedulerWeight. rewrite Hw.
  cbn. eexists _, _. split; [done|]. split; [done|]. rewrite max_block_defaults.
  pose proof (Perbill_mul_parts (Perbill_from_percent 10) _ Hr) as H.
  rewrite Perbill_from_percent_parts in H by lia. unfold in_range in Hr.
  pose proof WEIGHT_PER_SECOND_range. lia.
Qed.

(** the priority of unsigned staking transactions is nine tenths of the
    largest priority, within one, and leaves room above it. *)
Theorem StakingUnsignedPriority_bounds :
  Z.abs (9 * max_value W64 - 10 * StakingUnsignedPriority) < 10 /\
  0 < StakingUnsignedPriority < max_value W64.
Proof.
  unfold StakingUnsignedPriority.
  assert (Hr : in_range W64 (max_value W64)) by range.
  pose proof (Perbill_mul_parts (Perbill_from_percent 90) _ Hr) as H.
  rewrite Perbill_from_percent_parts in H by lia.
  unfold max_value, modulus in *. cbn [bits] in *. lia.
Qed.
End Limits.

(** the staking timeline, in milliseconds of expected block time: a session
    is an hour, an era three, slashes are deferred for six and funds bonded
    for twelve hours; slashes take effect before the funds they hit unbond, and
    elections open in the last quarter of the last session of an era. *)
Theorem staking_timeline :
  let session := EpochDuration * ExpectedBlockTime in
  let era := SessionsPerEra * session in
  let hour := 60 * 60 * 1000 in
  session = hour /\ era = 3 * hour /\
  SlashDeferDuration * era = 6 * hour /\ BondingDuration * era = 12 * hour /\
  SlashDeferDuration < BondingDuration /\
  4 * ElectionLookahead = EpochDuration /\
  2 * MinimumPeriod = ExpectedBlockTime.
Proof. vm_compute. intuition discriminate. Qed.

Lemma deposit_splits_witness :
  deposit (1 + 0) (8 + 33) = Some (ProxyDepositBase + ProxyDepositFactor).
Proof. apply (deposit_splits 1 0 8 33); try range; reflexivity. Defined.

(** ** A concrete instance *)
#[export] Instance demo_perbill : SpArithmetic := {|
  Perbill := Z; Permill := Z; Percent := Z;
  Perbill_from_percent x := Z.min x 100 * 10 ^ 7;
  Permill_from_percent x := Z.min x 100 * 10 ^ 4;
  Percent_from_percent x := Z.min x 100;
  Perbill_from_rational_approximation p q := p * 10 ^ 9 / q;
  Perbill_mul p x := p * x / 10 ^ 9;
  Perbill_parts p := p |}.

#[export] Instance demo_perbill_laws : SpArithmeticLaws demo_perbill.
Proof.
  split; [done|]. intros p x _. cbn.
  pose proof (Z.mod_pos_bound (p * x) (10 ^ 9) eq_refl).
  pose proof (Z.div_mod (p * x) (10 ^ 9) ltac:(done)). lia.
Qed.

#[export] Instance demo_limits : FrameLimits demo_perbill := {|
  BlockWeights := Z * Z; BlockLength := Z * Z;
  with_sensible_defaults w r := (w, r); max_with_normal_ratio m r := (m, r);
  max_block := fst; normal_max_extrinsic w := Some (w.1 / 2);
  WEIGHT_PER_SECOND := 10 ^ 12; BlockExecutionWeight := 5 * 10 ^ 9 |}.

#[export] Instance demo_limits_laws : FrameLimitsLaws demo_limits.
Proof.
  split.
  - done.
  - intros w r [? ?]. exists (w / 2). split; [done|].
    pose proof (Z.mod_pos_bound w 2 eq_refl). pose proof (Z.div_mod w 2 ltac:(done)). lia.
  - vm_compute. intuition discriminate.
  - vm_compute. intuition discriminate.
Qed.

Lemma OffchainSolutionWeightLimit_defined_witness :
  exists limit, OffchainSolutionWeightLimit = Some limit /\ 0 <= limit.
Proof.
  destruct OffchainSolutionWeightLimit_defined as (w & limit & m & _ & _ & H & [Hl _] & _).
  exists limit. split; [exact H|exact Hl].
Defined.

Lemma MaximumSchedulerWeight_tenth_witness :
  exists w s, MaximumSchedulerWeight = Some s /\ s <= max_block w.
Proof.
  destruct MaximumSchedulerWeight_tenth as (w & s & _ & H & _ & Hle).
  exists w, s. split; [exact H|exact Hle].
Defined.

Lemma StakingUnsignedPriority_bounds_witness :
  0 < StakingUnsignedPriority (sp := demo_perbill) < max_value W64.
Proof. exact (proj2 StakingUnsignedPriority_bounds). Defined.
