(* ===== verification/RuntimeOrigins.v ===== *)
(** * Privileged origins: who may do what in runtime/src/lib.rs

    The runtime composes the origin checks of frame_system and
    pallet_collective; [EnsureOrigins] is their interface, with the documented
    meaning of each check as laws. *)
From S2P Require Import Prelude.

(** The two instances of pallet_collective. *)
Inductive Collective := CouncilCollective | TechnicalCollective.

Class EnsureOrigins := {
  Origin : Type;
  AccountId : Type;
  EnsureOrigin : Type;
  (** [EnsureOrigin::try_origin(o).is_ok()] *)
  accepts : EnsureOrigin -> Origin -> bool;
  EnsureRoot : EnsureOrigin;
  EnsureOneOf : EnsureOrigin -> EnsureOrigin -> EnsureOrigin;
  EnsureProportionMoreThan : Z -> Z -> Collective -> EnsureOrigin;
  EnsureProportionAtLeast : Z -> Z -> Collective -> EnsureOrigin;
  (** the shapes of an origin: root, a signed account, or a motion carried by
      [n] of the [m] members of a collective *)
  is_root : Origin -> bool;
  signed_by : Origin -> option AccountId;
  members : Collective -> Origin -> option (Z * Z);
}.

Class EnsureOriginLaws (ensure : EnsureOrigins) : Prop := {
  EnsureRoot_accepts o : accepts EnsureRoot o = is_root o;
  EnsureOneOf_accepts l r o : accepts (EnsureOneOf l r) o = accepts l o || accepts r o;
  EnsureProportionMoreThan_accepts n d c o :
    accepts (EnsureProportionMoreThan n d c) o = true <->
    exists ayes total, members c o = Some (ayes, total) /\ n * total < ayes * d;
  EnsureProportionAtLeast_accepts n d c o :
    accepts (EnsureProportionAtLeast n d c) o = true <->
    exists ayes total, members c o = Some (ayes, total) /\ n * total <= ayes * d;
  (** an origin has one shape *)
  signed_not_privileged o who :
    signed_by o = Some who -> is_root o = false /\ forall c, members c o = None;
  members_one_collective c c' o x y :
    members c o = Some x -> members c' o = Some y -> c = c';
  members_not_root c o x : members c o = Some x -> is_root o = false;
}.

Section Origins.
Context {ensure : EnsureOrigins}.

Definition MoreThanHalfCouncil : EnsureOrigin :=
  EnsureOneOf EnsureRoot (EnsureProportionMoreThan 1 2 CouncilCollective).

Definition ApproveOrigin : EnsureOrigin :=
  EnsureOneOf EnsureRoot (EnsureProportionAtLeast 3 5 CouncilCollective).

(** The associated origin types of the pallets' configurations. *)
Definition staking_SlashCancelOrigin : EnsureOrigin := EnsureRoot.

Record MembershipOrigins := {
  AddOrigin : EnsureOrigin; RemoveOrigin : EnsureOrigin; SwapOrigin : EnsureOrigin;
  ResetOrigin : EnsureOrigin; PrimeOrigin : EnsureOrigin }.
Definition membership_origins : MembershipOrigins := {|
  AddOrigin := MoreThanHalfCouncil;
  RemoveOrigin := MoreThanHalfCouncil;
  SwapOrigin := MoreThanHalfCouncil;
  ResetOrigin := MoreThanHalfCouncil;
  PrimeOrigin := MoreThanHalfCouncil |}.

Definition treasury_ApproveOrigin : EnsureOrigin := ApproveOrigin.
Definition treasury_RejectOrigin : EnsureOrigin := MoreThanHalfCouncil.
Definition scheduler_ScheduleOrigin : EnsureOrigin := EnsureRoot.

(** The privileged operations those types guard. *)
Inductive Privilege :=
| CancelSlash | AddMember | RemoveMember | SwapMember | ResetMembers | SetPrime
| ApproveSpend | RejectSpend | Schedule.

Definition guard (p : Privilege) : EnsureOrigin :=
  match p with
  | CancelSlash => staking_SlashCancelOrigin
  | AddMember => AddOrigin membership_origins
  | RemoveMember => RemoveOrigin membership_origins
  | SwapMember => SwapOrigin membership_origins
  | ResetMembers => ResetOrigin membership_origins
  | SetPrime => PrimeOrigin membership_origins
  | ApproveSpend => treasury_ApproveOrigin
  | RejectSpend => treasury_RejectOrigin
  | Schedule => scheduler_ScheduleOrigin
  end.

(** The council votes that carry a privileged operation. *)
Definition council_may (p : Privilege) (ayes total : Z) : Prop :=
  match p with
  | CancelSlash | Schedule => False
  | ApproveSpend => 3 * total <= 5 * ayes
  | _ => total < 2 * ayes
  end.

Context {laws : EnsureOriginLaws ensure}.

Lemma MoreThanHalfCouncil_accepts o :
  accepts MoreThanHalfCouncil o = true <->
  is_root o = true \/
  exists ayes total, members CouncilCollective o = Some (ayes, total) /\ total < 2 * ayes.
Proof.
  unfold MoreThanHalfCouncil.
  rewrite EnsureOneOf_accepts, orb_true_iff, EnsureRoot_accepts,
    EnsureProportionMoreThan_accepts.
  by setoid_rewrite (Z.mul_comm _ 2); setoid_rewrite Z.mul_1_l.
Qed.

Lemma ApproveOrigin_accepts o :
  accepts ApproveOrigin o = true <->
  is_root o = true \/
  exists ayes total, members CouncilCollective o = Some (ayes, total) /\
    3 * total <= 5 * ayes.
Proof.
  unfold ApproveOrigin.
  rewrite EnsureOneOf_accepts, orb_true_iff, EnsureRoot_accepts,
    EnsureProportionAtLeast_accepts.
  by setoid_rewrite (Z.mul_comm _ 5).
Qed.

(** who may perform each privileged operation of the runtime: root may
    perform all of them; a council motion may spend from the treasury when
    three fifths of the members carry it, and may reject a spend or manage the
    technical membership when more than half of them do; nothing else may. *)
Theorem guard_accepts p o :
  accepts (guard p) o = true <->
  is_root o = true \/
  exists ayes total, members CouncilCollective o = Some (ayes, total) /\
    council_may p ayes total.
Proof.
  destruct p; cbn; try apply MoreThanHalfCouncil_accepts; try apply ApproveOrigin_accepts;
    unfold staking_SlashCancelOrigin, scheduler_ScheduleOrigin;
    rewrite EnsureRoot_accepts; naive_solver.
Qed.

(** no privileged operation is open to an ordinary account, nor to the
    technical committee, whatever the size of its majority. *)
Theorem unprivileged_rejected p o :
  is_Some (signed_by o) \/ is_Some (members TechnicalCollective o) ->
  accepts (guard p) o = false.
Proof.
  intros Ho. apply not_true_iff_false. rewrite guard_accepts.
  intros [Hr | (ayes & total & Hm & _)]; destruct Ho as [[who Hs] | [x Ht]].
  - apply signed_not_privileged in Hs as [? _]. congruence.
  - apply members_not_root in Ht. congruence.
  - apply signed_not_privileged in Hs as [_ Hn]. by rewrite Hn in Hm.
  - by pose proof (members_one_collective _ _ _ _ _ Hm Ht).
Qed.

(** as long as the council has a member, every origin that can approve a
    treasury spend can also reject one and manage the technical membership. *)
Theorem approve_implies_reject o :
  (forall ayes total, members CouncilCollective o = Some (ayes, total) -> 0 < total) ->
  accepts (guard ApproveSpend) o = true ->
  accepts (guard RejectSpend) o = true /\ accepts (guard ResetMembers) o = true.
Proof.
  intros Hpos. rewrite !guard_accepts. cbn.
  intros [Hr | (ayes & total & Hm & Hv)]; [by split; left|].
  specialize (Hpos _ _ Hm). split; right; exists ayes, total; (split; [done|lia]).
Qed.
End Origins.

(** ** A concrete instance *)
Inductive DemoOrigin := DRoot | DSigned (who : Z) | DMembers (c : Collective) (ayes total : Z).
Inductive DemoEnsure :=
| DEnsureRoot
| DOneOf (l r : DemoEnsure)
| DMoreThan (n d : Z) (c : Collective)
| DAtLeast (n d : Z) (c : Collective).

#[export] Instance collective_eq_dec : EqDecision Collective.
Proof. solve_decision. Defined.

Definition demo_members (c : Collective) (o : DemoOrigin) : option (Z * Z) :=
  match o with
  | DMembers c' ayes total => if decide (c = c') then Some (ayes, total) else None
  | _ => None
  end.

Fixpoint demo_accepts (e : DemoEnsure) (o : DemoOrigin) : bool :=
  match e with
  | DEnsureRoot => match o with DRoot => true | _ => false end
  | DOneOf l r => demo_accepts l o || demo_accepts r o
  | DMoreThan n d c =>
      match demo_members c o with Some (a, t) => n * t <? a * d | None => false end
  | DAtLeast n d c =>
      match demo_members c o with Some (a, t) => n * t <=? a * d | None => false end
  end.

#[export] Instance demo_origins : EnsureOrigins := {|
  Origin := DemoOrigin; AccountId := Z; EnsureOrigin := DemoEnsure;
  accepts := demo_accepts; EnsureRoot := DEnsureRoot; EnsureOneOf := DOneOf;
  EnsureProportionMoreThan := DMoreThan; EnsureProportionAtLeast := DAtLeast;
  is_root o := match o with DRoot => true | _ => false end;
  signed_by o := match o with DSigned who => Some who | _ => None end;
  members := demo_members;
|}.

#[export] Instance demo_origin_laws : EnsureOriginLaws demo_origins.
Proof.
  split.
  - by intros [].
  - done.
  - intros n d c o. cbn. destruct (demo_members c o) as [[a t]|]; [|naive_solver].
    rewrite Z.ltb_lt. naive_solver.
  - intros n d c o. cbn. destruct (demo_members c o) as [[a t]|]; [|naive_solver].
    rewrite Z.leb_le. naive_solver.
  - by intros [] ?.
  - intros c c' [] ? ?; cbn; try done. repeat case_decide; naive_solver.
  - by intros c [] ?.
Qed.

Lemma guard_accepts_witness :
  accepts (guard ApproveSpend) (DMembers CouncilCollective 6 10) = true.
Proof.
  refine (proj2 (guard_accepts ApproveSpend (DMembers CouncilCollective 6 10)) _).
  right. exists 6, 10. split; [reflexivity|]. cbn. lia.
Defined.

Lemma unprivileged_rejected_witness :
  accepts (guard ApproveSpend) (DMembers TechnicalCollective 10 10) = false.
Proof.
  refine (unprivileged_rejected ApproveSpend (DMembers TechnicalCollective 10 10) _).
  right. exists (10, 10). reflexivity.
Defined.

Lemma approve_implies_reject_witness :
  accepts (guard RejectSpend) (DMembers CouncilCollective 6 10) = true.
Proof.
  refine (proj1 (approve_implies_reject (DMembers CouncilCollective 6 10) _ eq_refl)).
  intros ayes total [= <- <-]. lia.
Defined.
