(* ===== verification/ChainSpec.v ===== *)
(** * Chain specifications and the genesis state: node/src/chain_spec.rs

    Keys come from sp_core: [Public] is the part of its trait the code uses.
    A panic is [None]: [expect] on a bad secret, and an arithmetic overflow in
    a build that checks for it. *)
From S2P Require Import Prelude Constants RuntimeParams.
Import currency.

#[global] Open Scope string_scope.
#[global] Open Scope Z_scope.

(** [sp_core::Public] and its [Pair]: deriving a pair from a secret URI with an
    optional password, and the pair's public key. *)
Class Public (TPublic : Type) := {
  Pair : Type;
  from_string : string -> option string -> option Pair;
  public : Pair -> TPublic;
}.

(** The key types of the chain and the account behind a public key. *)
Class Keys := {
  Sr25519 : Type;
  BabeId : Type;
  GrandpaId : Type;
  AccountPublic : Type;
  AccountId : Type;
  sr25519_public :: Public Sr25519;
  babe_public :: Public BabeId;
  grandpa_public :: Public GrandpaId;
  account_public_from : Sr25519 -> AccountPublic;
  into_account : AccountPublic -> AccountId;
}.

(** The pallets' configuration types that the code only fills with defaults. *)
Class GenesisDefaults := {
  ChangesTrieConfig : Type; changes_trie_default : ChangesTrieConfig;
  BabeGenesis : Type; babe_default : BabeGenesis;
  GrandpaGenesis : Type; grandpa_default : GrandpaGenesis;
  MembershipGenesis : Type; membership_default : MembershipGenesis;
  ElectionsGenesis : Type; elections_default : ElectionsGenesis;
  TreasuryGenesis : Type; treasury_default : TreasuryGenesis;
  (** the fields of [StakingConfig] left to [..Default::default()] *)
  StakingRest : Type; staking_default : StakingRest;
}.

Section ChainSpec.
Context {keys : Keys} {sp : SpArithmetic} {defaults : GenesisDefaults}.
Context {profile : BuildProfile}.

(** ** Keys from seeds *)

Definition get_from_seed (TPublic : Type) `{Public TPublic} (seed : string) :
    option TPublic :=
  public <$> from_string ("//" +:+ seed) None.

Definition get_account_id_from_seed (seed : string) : option AccountId :=
  (fun k => into_account (account_public_from k)) <$> get_from_seed Sr25519 seed.

Definition Authority : Type := AccountId * AccountId * BabeId * GrandpaId.

Definition authority_keys_from_seed (seed : string) : option Authority :=
  stash ← get_account_id_from_seed (seed +:+ "//stash");
  controller ← get_account_id_from_seed seed;
  babe ← get_from_seed BabeId seed;
  grandpa ← get_from_seed GrandpaId seed;
  Some (stash, controller, babe, grandpa).

(** ** The genesis configuration *)

(** [SessionKeys] of the runtime. *)
Record SessionKeys := { babe : BabeId; grandpa : GrandpaId }.

Definition session_keys (babe : BabeId) (grandpa : GrandpaId) : SessionKeys :=
  {| babe := babe; grandpa := grandpa |}.

Inductive StakerStatus := Idle | Validator | Nominator (targets : list AccountId).

Record SystemConfig := { code : list Byte.byte; changes_trie_config : ChangesTrieConfig }.
Record SudoConfig := { key : AccountId }.
Record BalancesConfig := { balances : list (AccountId * Z) }.
Record IndicesConfig := { indices : list (Z * AccountId) }.
Record SessionConfig := { session_keys_of : list (AccountId * AccountId * SessionKeys) }.
Record StakingConfig := {
  validator_count : Z;
  minimum_validator_count : Z;
  stakers : list (AccountId * AccountId * Z * StakerStatus);
  invulnerables : list AccountId;
  slash_reward_fraction : Perbill;
  staking_rest : StakingRest;
}.
Record CollectiveConfig := { members : list AccountId }.

Record GenesisConfig := {
  frame_system : option SystemConfig;
  pallet_sudo : option SudoConfig;
  pallet_balances : option BalancesConfig;
  pallet_babe : option BabeGenesis;
  pallet_grandpa : option GrandpaGenesis;
  pallet_indices : option IndicesConfig;
  pallet_session : option SessionConfig;
  pallet_staking : option StakingConfig;
  pallet_collective_Instance1 : option CollectiveConfig;
  pallet_collective_Instance2 : option CollectiveConfig;
  pallet_membership_Instance1 : option MembershipGenesis;
  pallet_elections_phragmen : option ElectionsGenesis;
  pallet_treasury : option TreasuryGenesis;
}.

Definition INITIAL_BALANCE : Z := const! (checked_mul W128 1000000 DOLLARS).
Definition INITIAL_STAKING : Z := const! (checked_mul W128 100000 DOLLARS).

(** [1 << 60], a [Balance] *)
Definition endowment : Z := const! (checked_shl Balance 1 60).

Definition testnet_genesis (wasm_binary : list Byte.byte)
    (initial_authorities : list Authority) (root_key : AccountId)
    (endowed_accounts : list AccountId) (_enable_println : bool) : option GenesisConfig :=
  let count := as_ W32 (Z.of_nat (length initial_authorities)) in
  validator_count ← mul W32 count 2;
  Some {|
    frame_system := Some {|
      code := wasm_binary;
      changes_trie_config := changes_trie_default |};
    pallet_sudo := Some {| key := root_key |};
    pallet_balances := Some {|
      balances := (fun k => (k, endowment)) <$> endowed_accounts |};
    pallet_babe := Some babe_default;
    pallet_grandpa := Some grandpa_default;
    pallet_indices := Some {| indices := [] |};
    pallet_session := Some {|
      session_keys_of :=
        (fun '(x0, _, x2, x3) => (x0, x0, session_keys x2 x3)) <$> initial_authorities |};
    pallet_staking := Some {|
      validator_count := validator_count;
      minimum_validator_count := count;
      stakers :=
        (fun '(x0, x1, _, _) => (x0, x1, INITIAL_STAKING, Validator)) <$> initial_authorities;
      invulnerables := (fun '(x0, _, _, _) => x0) <$> initial_authorities;
      slash_reward_fraction := Perbill_from_percent 10;
      staking_rest := staking_default |};
    pallet_collective_Instance1 := Some {| members := [] |};
    pallet_collective_Instance2 := Some {| members := [] |};
    pallet_membership_Instance1 := Some membership_default;
    pallet_elections_phragmen := Some elections_default;
    pallet_treasury := Some treasury_default;
  |}.

(** ** Chain specifications *)

Inductive ChainType := Development | Local.

(** The arguments of [ChainSpec::from_genesis].  The genesis closure runs when
    the genesis state is built, not when the specification is made. *)
Record ChainSpec := {
  name : string;
  id : string;
  chain_type : ChainType;
  constructor : unit -> option GenesisConfig;
  boot_nodes : list string;
  telemetry_endpoints : option (list string);
  protocol_id : option string;
  properties : option (list (string * string));
  extensions : option unit;
}.

Definition accounts_from_seeds (seeds : list string) : option (list AccountId) :=
  mapM get_account_id_from_seed seeds.
Definition authorities_from_seeds (seeds : list string) : option (list Authority) :=
  mapM authority_keys_from_seed seeds.

(** The closure [move || testnet_genesis(wasm_binary, vec![...], ...)] of a
    preset: the arguments are evaluated in order, and each may panic. *)
Definition preset_genesis (wasm_binary : list Byte.byte) (authority_seeds : list string)
    (root_seed : string) (endowed_seeds : list string) (_ : unit) : option GenesisConfig :=
  authorities ← authorities_from_seeds authority_seeds;
  root ← get_account_id_from_seed root_seed;
  endowed ← accounts_from_seeds endowed_seeds;
  testnet_genesis wasm_binary authorities root endowed true.

Definition development_authorities : list string := ["Alice"].
Definition development_accounts : list string :=
  ["Alice"; "Bob"; "Alice//stash"; "Bob//stash"].

Definition development_config (WASM_BINARY : option (list Byte.byte)) :
    result string ChainSpec :=
  result_map (fun wasm_binary => {|
    name := "Development";
    id := "dev";
    chain_type := Development;
    constructor :=
      preset_genesis wasm_binary development_authorities "Alice" development_accounts;
    boot_nodes := [];
    telemetry_endpoints := None;
    protocol_id := None;
    properties := None;
    extensions := None |})
  (ok_or WASM_BINARY "Development wasm not available").

Definition local_authorities : list string := ["Alice"; "Bob"].
Definition local_accounts : list string :=
  ["Alice"; "Bob"; "Charlie"; "Dave"; "Eve"; "Ferdie";
   "Alice//stash"; "Bob//stash"; "Charlie//stash"; "Dave//stash"; "Eve//stash";
   "Ferdie//stash"].

Definition local_testnet_config (WASM_BINARY : option (list Byte.byte)) :
    result string ChainSpec :=
  result_map (fun wasm_binary => {|
    name := "Local Testnet";
    id := "local_testnet";
    chain_type := Local;
    constructor := preset_genesis wasm_binary local_authorities "Alice" local_accounts;
    boot_nodes := [];
    telemetry_endpoints := None;
    protocol_id := None;
    properties := None;
    extensions := None |})
  (ok_or WASM_BINARY "Development wasm not available").
End ChainSpec.
