(* ===== verification/GenesisSpec.v ===== *)
(** * What the genesis state promises

    The pallets that read the genesis configuration require it to be
    consistent: accounts appear once and hold at least the existential deposit,
    validators can afford their stake and have session keys, and so on.
    [valid_genesis] states those requirements; the theorems show that
    [testnet_genesis] meets them for any reasonable input, and that the two
    preset chain specifications give it such input. *)
From S2P Require Import Prelude Constants RuntimeParams ChainSpec.
Import currency params.

Section Genesis.
Context {keys : Keys} {sp : SpArithmetic} {defaults : GenesisDefaults}.
Context {profile : BuildProfile}.

(** ** Requirements *)

Definition valid_balances (b : BalancesConfig) : Prop :=
  NoDup (fst <$> balances b) /\
  Forall (fun x => ExistentialDeposit <= snd x) (balances b) /\
  in_range W128 (sumZ (snd <$> balances b)).

Definition stash_of (x : AccountId * AccountId * Z * StakerStatus) : AccountId := x.1.1.1.
Definition controller_of (x : AccountId * AccountId * Z * StakerStatus) : AccountId := x.1.1.2.
Definition stake_of (x : AccountId * AccountId * Z * StakerStatus) : Z := x.1.2.

Definition valid_staking (b : BalancesConfig) (st : StakingConfig) : Prop :=
  NoDup (stash_of <$> stakers st) /\ NoDup (controller_of <$> stakers st) /\
  Forall (fun x => exists v, (stash_of x, v) ∈ balances b /\
                     ExistentialDeposit <= stake_of x <= v) (stakers st) /\
  Forall (fun who => who ∈ (stash_of <$> stakers st)) (invulnerables st) /\
  minimum_validator_count st <= Z.of_nat (length (stakers st)) <= validator_count st.

(** Exactly the stashes have session keys, registered under their own account. *)
Definition valid_session (st : StakingConfig) (se : SessionConfig) : Prop :=
  (fun x => x.1.1) <$> session_keys_of se = stash_of <$> stakers st /\
  Forall (fun x => x.1.2 = x.1.1) (session_keys_of se).

Definition valid_genesis (g : GenesisConfig) : Prop :=
  exists b st se su,
    pallet_balances g = Some b /\ pallet_staking g = Some st /\
    pallet_session g = Some se /\ pallet_sudo g = Some su /\
    valid_balances b /\ valid_staking b st /\ valid_session st se /\
    key su ∈ (fst <$> balances b).

(** ** [testnet_genesis] *)

Definition a_stash (x : Authority) : AccountId := x.1.1.1.
Definition a_controller (x : Authority) : AccountId := x.1.1.2.

Lemma endowment_eq : endowment = 2 ^ 60.
Proof. reflexivity. Qed.

Lemma INITIAL_STAKING_eq : INITIAL_STAKING = 10 ^ 15.
Proof. reflexivity. Qed.

Lemma endowed_valid (endowed : list AccountId) :
  NoDup endowed -> Z.of_nat (length endowed) < 2 ^ 68 ->
  valid_balances {| balances := (fun k => (k, endowment)) <$> endowed |}.
Proof.
  intros Hnd Hlen. unfold valid_balances. cbn [balances]. split; [|split].
  - rewrite <- list_fmap_compose. by rewrite list_fmap_id.
  - apply Forall_fmap, Forall_forall. intros k _. change (500 <= 2 ^ 60). lia.
  - rewrite <- list_fmap_compose.
    change (snd ∘ (fun k : AccountId => (k, endowment))) with (fun _ : AccountId => endowment).
    rewrite sumZ_const, endowment_eq. range.
Qed.

Lemma authorities_stakers (auths : list Authority) :
  let l := (fun '(x0, x1, _, _) => (x0, x1, INITIAL_STAKING, Validator)) <$> auths in
  (stash_of <$> l = a_stash <$> auths) /\ (controller_of <$> l = a_controller <$> auths) /\
  (length l = length auths) /\ Forall (fun x => stake_of x = INITIAL_STAKING) l.
Proof.
  cbn. rewrite <- !list_fmap_compose, length_fmap. repeat split.
  - apply list_fmap_ext. by intros i [[[a b] c] d] _.
  - apply list_fmap_ext. by intros i [[[a b] c] d] _.
  - apply Forall_fmap, Forall_forall. by intros [[[a b] c] d] _.
Qed.

Lemma testnet_genesis_eq wasm auths root endowed flag :
  Z.of_nat (length auths) < 2 ^ 31 ->
  exists g b st se su, testnet_genesis wasm auths root endowed flag = Some g /\
    pallet_balances g = Some b /\ pallet_staking g = Some st /\
    pallet_session g = Some se /\ pallet_sudo g = Some su /\ key su = root /\
    balances b = (fun k => (k, endowment)) <$> endowed /\
    stakers st = (fun '(x0, x1, _, _) => (x0, x1, INITIAL_STAKING, Validator)) <$> auths /\
    invulnerables st = (fun '(x0, _, _, _) => x0) <$> auths /\
    minimum_validator_count st = Z.of_nat (length auths) /\
    validator_count st = 2 * Z.of_nat (length auths) /\
    session_keys_of se = (fun '(x0, _, x2, x3) => (x0, x0, session_keys x2 x3)) <$> auths.
Proof.
  intros Hlen. unfold testnet_genesis. rewrite as_small by range.
  rewrite mul_exact by range. cbn [mbind option_bind].
  do 5 eexists. split; [reflexivity|].
  do 9 (split; [reflexivity|]). split; [cbn; lia|reflexivity].
Qed.

Lemma genesis_valid wasm auths root endowed flag :
  Z.of_nat (length auths) < 2 ^ 31 -> Z.of_nat (length endowed) < 2 ^ 68 ->
  NoDup endowed -> NoDup (a_stash <$> auths) -> NoDup (a_controller <$> auths) ->
  Forall (fun x => a_stash x ∈ endowed) auths -> root ∈ endowed ->
  exists g, testnet_genesis wasm auths root endowed flag = Some g /\ valid_genesis g.
Proof.
  intros Hauths Hlen Hnd Hstash Hctrl Hin Hroot.
  destruct (testnet_genesis_eq wasm auths root endowed flag Hauths)
    as (g & b & st & se & su & Hg & Hb & Hst & Hse & Hsu & Hkey & Hbal & Hstk & Hinv & Hmin & Hval & Hses).
  destruct (authorities_stakers auths) as (Hs & Hc & Hl & Hstake). rewrite <- Hstk in *.
  exists g. split; [done|]. exists b, st, se, su. do 4 (split; [done|]).
  split; [|split; [|split]].
  - destruct b; cbn in *. subst. by apply endowed_valid.
  - unfold valid_staking. rewrite Hs, Hc. do 2 (split; [done|]). split; [|split].
    + apply Forall_forall. intros x Hx. exists endowment. rewrite Hbal. split.
      * apply list_elem_of_fmap. exists (stash_of x). split; [done|].
        assert (stash_of x ∈ (a_stash <$> auths)) as (a & -> & Ha)%list_elem_of_fmap
          by (rewrite <- Hs; by apply list_elem_of_fmap_2).
        rewrite Forall_forall in Hin. by apply Hin.
      * rewrite Forall_forall in Hstake. rewrite (Hstake x Hx), endowment_eq, INITIAL_STAKING_eq.
        change ExistentialDeposit with 500. lia.
    + rewrite Hinv. apply Forall_fmap, Forall_forall. intros x Hx. cbn.
      apply list_elem_of_fmap. exists x. split; [|done]. by destruct x as [[[? ?] ?] ?].
    + rewrite Hl, Hmin, Hval. lia.
  - unfold valid_session. rewrite Hs, Hses. split.
    + rewrite <- list_fmap_compose. apply list_fmap_ext. by intros i [[[? ?] ?] ?] _.
    + apply Forall_fmap, Forall_forall. by intros [[[? ?] ?] ?] _.
  - rewrite Hkey, Hbal, <- list_fmap_compose. by rewrite list_fmap_id.
Qed.

(** C12: the genesis state is valid for any authorities and endowed accounts,
    provided these are distinct, the authorities' stashes and the sudo key
    are endowed, and there are fewer than 2^31 authorities and 2^68
    accounts. *)
Theorem testnet_genesis_valid wasm auths root endowed flag :
  Z.of_nat (length auths) < 2 ^ 31 -> Z.of_nat (length endowed) < 2 ^ 68 ->
  NoDup endowed -> NoDup (a_stash <$> auths) -> NoDup (a_controller <$> auths) ->
  Forall (fun x => a_stash x ∈ endowed) auths -> root ∈ endowed ->
  exists g, testnet_genesis wasm auths root endowed flag = Some g /\ valid_genesis g.
Proof. apply genesis_valid. Qed.
(** ** The counts of validators, which are u32s *)

Lemma authority_count_range (auths : list Authority) :
  0 <= as_ W32 (Z.of_nat (length auths)) < 2 ^ 32.
Proof.
  pose proof (as_in_range W32 (Z.of_nat (length auths))) as H.
  unfold in_range, max_value, modulus in H. cbn [bits] in H. lia.
Qed.

(** Doubling a u32, which is all there is to go wrong. *)
Lemma mul_two {profile' : BuildProfile} n :
  0 <= n < 2 ^ 32 ->
  mul (profile := profile') W32 n 2 =
    if decide (n < 2 ^ 31) then Some (2 * n)
    else if overflow_checks then None else Some (2 * n - 2 ^ 32).
Proof.
  intros Hn. case_decide as Hlt.
  - rewrite mul_exact; [f_equal; lia|]. range.
  - unfold mul, checked_mul. destruct overflow_checks.
    + apply checked_None. unfold in_range, max_value, modulus. cbn [bits]. lia.
    + f_equal. unfold as_, modulus. cbn [bits]. symmetry. apply Z.mod_unique_pos with 1; lia.
Qed.


(** C17: what the cast to u32 makes of the number of authorities, their number
    modulo 2^32, is the minimum number of validators, and the number asked for
    is twice that as long as it is below 2^31.  From there on a build with
    overflow checks makes no genesis state, and one without makes a state in
    which the number asked for has wrapped around to less than the minimum. *)
Theorem genesis_validator_count wasm auths root endowed flag :
  let n := Z.of_nat (length auths) mod 2 ^ 32 in
  let builds count := exists g st,
    testnet_genesis wasm auths root endowed flag = Some g /\ pallet_staking g = Some st /\
    minimum_validator_count st = n /\ validator_count st = count in
  (n < 2 ^ 31 -> builds (2 * n)) /\
  (2 ^ 31 <= n ->
     if overflow_checks then testnet_genesis wasm auths root endowed flag = None
     else builds (2 * n - 2 ^ 32) /\ 2 * n - 2 ^ 32 < n).
Proof.
  cbv zeta. pose proof (authority_count_range auths) as Hn.
  unfold testnet_genesis. rewrite (mul_two _ Hn).
  change (as_ W32 ?z) with (z mod 2 ^ 32) in *. split; intros Hlt.
  - rewrite decide_True by done. eexists _, _. split_and!; reflexivity.
  - rewrite decide_False by lia. destruct overflow_checks; [done|].
    split; [|lia]. eexists _, _. split_and!; reflexivity.
Qed.

(** C16: at genesis the whole issuance is the endowments, 2^60 per endowed
    account, and what the validators stake in all is 10^15 per authority; if the
    authorities have different stashes and each is endowed, the issuance covers
    the stakes a thousand times. *)
Theorem genesis_issuance wasm auths root endowed flag g b st :
  testnet_genesis wasm auths root endowed flag = Some g ->
  pallet_balances g = Some b -> pallet_staking g = Some st ->
  sumZ (snd <$> balances b) = 2 ^ 60 * Z.of_nat (length endowed) /\
  sumZ (stake_of <$> stakers st) = 10 ^ 15 * Z.of_nat (length auths) /\
  (Forall (fun x => a_stash x ∈ endowed) auths -> NoDup (a_stash <$> auths) ->
   1000 * sumZ (stake_of <$> stakers st) <= sumZ (snd <$> balances b)).
Proof.
  unfold testnet_genesis. destruct (mul _ _ _); [|done]. cbn [mbind option_bind].
  intros [= <-] [= <-] [= <-]. cbn [balances stakers].
  assert (sumZ (snd <$> ((fun k => (k, endowment)) <$> endowed)) =
          2 ^ 60 * Z.of_nat (length endowed)) as ->.
  { rewrite <- list_fmap_compose. exact (sumZ_const endowed endowment). }
  assert (sumZ (stake_of <$>
            ((fun '(x0, x1, _, _) => (x0, x1, INITIAL_STAKING, Validator)) <$> auths)) =
          10 ^ 15 * Z.of_nat (length auths)) as ->.
  { etrans; [|exact (sumZ_const auths INITIAL_STAKING)].
    rewrite <- list_fmap_compose. f_equal.
    apply list_fmap_ext. by intros i [[[? ?] ?] ?] _. }
  do 2 (split; [done|]). intros Hin Hnd.
  assert (length auths <= length endowed)%nat; [|lia].
  rewrite <- (length_fmap a_stash). apply submseteq_length, NoDup_submseteq; [done|].
  intros x (a & -> & Ha)%list_elem_of_fmap. rewrite Forall_forall in Hin. by apply Hin.
Qed.
End Genesis.

(** ** The preset chain specifications *)
Section Presets.
Context {keys : Keys} {sp : SpArithmetic} {defaults : GenesisDefaults}.
Context {profile : BuildProfile}.

Definition derivable (authority_seeds endowed_seeds : list string) : Prop :=
  Forall (fun s => is_Some (authority_keys_from_seed s)) authority_seeds /\
  Forall (fun s => is_Some (get_account_id_from_seed s)) endowed_seeds.

(** Different seeds of the list give different accounts. *)
Definition separated (seeds : list string) : Prop :=
  forall s s' a, s ∈ seeds -> s' ∈ seeds ->
    get_account_id_from_seed s = Some a -> get_account_id_from_seed s' = Some a -> s = s'.

Lemma derived_NoDup (universe seeds : list string) (f : string -> string)
    (accounts : list AccountId) :
  separated universe -> NoDup (f <$> seeds) -> Forall (fun s => f s ∈ universe) seeds ->
  Forall2 (fun s a => get_account_id_from_seed (f s) = Some a) seeds accounts ->
  NoDup accounts.
Proof.
  intros Hsep Hnd Hin H2. induction H2 as [|s a seeds accounts Hs H2 IH]; [constructor|].
  apply NoDup_cons in Hnd as [Hnot Hnd]. apply Forall_cons in Hin as [Hs1 Hin].
  constructor; [|by apply IH]. intros Ha.
  apply list_elem_of_lookup in Ha as [i Hi].
  destruct (Forall2_lookup_r _ _ _ _ _ H2 Hi) as (s' & Hs' & Hd).
  apply Hnot. apply list_elem_of_fmap. exists s'.
  assert (s' ∈ seeds) by (by eapply list_elem_of_lookup_2).
  rewrite Forall_forall in Hin. split; [|done]. by eapply Hsep; eauto.
Qed.
Lemma authority_keys_inv s x :
  authority_keys_from_seed s = Some x ->
  get_account_id_from_seed (s +:+ "//stash") = Some (a_stash x) /\
  get_account_id_from_seed s = Some (a_controller x).
Proof.
  unfold authority_keys_from_seed. intros H.
  repeat (apply bind_Some in H as (? & ? & H)). by simplify_eq.
Qed.

Lemma derived_elem (seeds : list string) (accounts : list AccountId) s a :
  Forall2 (fun s a => get_account_id_from_seed s = Some a) seeds accounts ->
  s ∈ seeds -> get_account_id_from_seed s = Some a -> a ∈ accounts.
Proof.
  intros H2 Hs Ha. apply list_elem_of_lookup in Hs as [i Hi].
  destruct (Forall2_lookup_l _ _ _ _ _ H2 Hi) as (a' & Ha' & Hd).
  apply list_elem_of_lookup. exists i. congruence.
Qed.

(** What makes a preset's lists of seeds consistent; decidable. *)
Definition consistent_seeds (authority_seeds : list string) (root_seed : string)
    (endowed_seeds : list string) : Prop :=
  NoDup endowed_seeds /\ NoDup authority_seeds /\
  NoDup ((fun s => s +:+ "//stash") <$> authority_seeds) /\
  Forall (fun s => s ∈ endowed_seeds /\ s +:+ "//stash" ∈ endowed_seeds) authority_seeds /\
  root_seed ∈ endowed_seeds /\ (length authority_seeds <= 100)%nat /\
  (length endowed_seeds <= 100)%nat.
#[export] Instance consistent_seeds_dec a r e : Decision (consistent_seeds a r e).
Proof. unfold consistent_seeds. apply _. Defined.

Lemma preset_valid wasm authority_seeds root_seed endowed_seeds :
  consistent_seeds authority_seeds root_seed endowed_seeds ->
  derivable authority_seeds endowed_seeds -> separated endowed_seeds ->
  exists g, preset_genesis wasm authority_seeds root_seed endowed_seeds tt = Some g /\
    valid_genesis g.
Proof.
  intros (Hnde & Hnda & Hnds & Hin & Hroot & Hla & Hle) [Ha He] Hsep.
  destruct (mapM_is_Some_2 _ _ Ha) as [auths Hauths].
  destruct (mapM_is_Some_2 _ _ He) as [endowed Hendowed].
  assert (is_Some (get_account_id_from_seed root_seed)) as [root Hr]
    by (rewrite Forall_forall in He; by apply He).
  unfold preset_genesis, authorities_from_seeds, accounts_from_seeds.
  rewrite Hauths, Hr, Hendowed. cbn [mbind option_bind].
  apply mapM_Some_1 in Hauths as Hauths2. apply mapM_Some_1 in Hendowed as Hend2.
  pose proof (Forall2_length _ _ _ Hauths2). pose proof (Forall2_length _ _ _ Hend2).
  apply Forall_and in Hin as [Hin1 Hin2].
  apply genesis_valid; [lia|lia| | | | |].
  - eapply (derived_NoDup endowed_seeds endowed_seeds (@Datatypes.id string)); rewrite ?list_fmap_id; try done.
    by apply Forall_forall.
  - eapply (derived_NoDup _ authority_seeds (fun s => s +:+ "//stash")); try done.
    apply Forall2_fmap_r. eapply Forall2_impl; [done|].
    intros s x Hx. by apply authority_keys_inv.
  - eapply (derived_NoDup _ authority_seeds (@Datatypes.id string)); rewrite ?list_fmap_id; try done.
    apply Forall2_fmap_r. eapply Forall2_impl; [done|].
    intros s x Hx. by apply authority_keys_inv.
  - apply Forall_forall. intros x Hx. apply list_elem_of_lookup in Hx as [i Hi].
    destruct (Forall2_lookup_r _ _ _ _ _ Hauths2 Hi) as (s & Hs & Hd).
    eapply derived_elem; [done| |by apply authority_keys_inv].
    rewrite Forall_forall in Hin2. apply Hin2. by eapply list_elem_of_lookup_2.
  - by eapply derived_elem.
Qed.
Lemma preset_defined wasm authority_seeds root_seed endowed_seeds :
  consistent_seeds authority_seeds root_seed endowed_seeds ->
  is_Some (preset_genesis wasm authority_seeds root_seed endowed_seeds tt) <->
  derivable authority_seeds endowed_seeds.
Proof.
  intros (_ & _ & _ & _ & Hroot & Hla & _).
  unfold preset_genesis, authorities_from_seeds, accounts_from_seeds, derivable. split.
  - intros [g Hg]. apply bind_Some in Hg as (auths & Ha & Hg).
    apply bind_Some in Hg as (root & _ & Hg). apply bind_Some in Hg as (endowed & He & _).
    split; [apply (mapM_is_Some_1 _ _ (mk_is_Some _ _ Ha))
           |apply (mapM_is_Some_1 _ _ (mk_is_Some _ _ He))].
  - intros [Ha He].
    destruct (mapM_is_Some_2 _ _ Ha) as [auths Hauths].
    destruct (mapM_is_Some_2 _ _ He) as [endowed Hendowed].
    assert (is_Some (get_account_id_from_seed root_seed)) as [root Hr]
      by (rewrite Forall_forall in He; by apply He).
    rewrite Hauths, Hr, Hendowed. cbn [mbind option_bind].
    apply mapM_Some_1, Forall2_length in Hauths.
    destruct (testnet_genesis_eq wasm auths root endowed true) as (g & ? & ? & ? & ? & -> & _);
      [lia|eauto].
Qed.

Lemma preset_code wasm authority_seeds root_seed endowed_seeds g :
  preset_genesis wasm authority_seeds root_seed endowed_seeds tt = Some g ->
  code <$> frame_system g = Some wasm.
Proof.
  unfold preset_genesis, testnet_genesis. intros H.
  repeat (apply bind_Some in H as (? & _ & H)). by simplify_eq.
Qed.

Lemma development_consistent :
  consistent_seeds development_authorities "Alice" development_accounts.
Proof. apply (bool_decide_unpack _). vm_compute. exact I. Qed.

Lemma local_consistent : consistent_seeds local_authorities "Alice" local_accounts.
Proof. apply (bool_decide_unpack _). vm_compute. exact I. Qed.

(** The two preset chains, each with the seeds its genesis state is made from. *)
Definition presets : list ((option (list Byte.byte) -> result string ChainSpec) *
    (list string * list string)) :=
  [(development_config, (development_authorities, development_accounts));
   (local_testnet_config, (local_authorities, local_accounts))].

(** C15: the development chain and the local testnet start from a valid genesis
    state that carries the runtime they were built with, as long as the
    well-known keys they name can be derived and give different accounts. *)
Theorem preset_configs_valid wasm config authorities accounts :
  (config, (authorities, accounts)) ∈ presets ->
  derivable authorities accounts -> separated accounts ->
  exists spec g, config (Some wasm) = Ok spec /\
    constructor spec tt = Some g /\ valid_genesis g /\
    code <$> frame_system g = Some wasm.
Proof.
  unfold presets. rewrite elem_of_cons, list_elem_of_singleton.
  intros [[= -> -> ->]|[= -> -> ->]] Hd Hs.
  - destruct (preset_valid wasm _ _ _ development_consistent Hd Hs) as (g & Hg & Hv).
    eexists _, g. split; [reflexivity|]. do 2 (split; [done|]). by eapply preset_code.
  - destruct (preset_valid wasm _ _ _ local_consistent Hd Hs) as (g & Hg & Hv).
    eexists _, g. split; [reflexivity|]. do 2 (split; [done|]). by eapply preset_code.
Qed.

(** C26: making a preset specification needs only the runtime binary: without
    one it is the error of the code, with one it succeeds even if no key can
    be derived.  The panic is left to the genesis closure, which succeeds
    exactly when every well-known key can be derived. *)
Theorem preset_specs_lazy (wasm : option (list Byte.byte)) :
  match wasm with
  | None =>
      development_config wasm = Err "Development wasm not available" /\
      local_testnet_config wasm = Err "Development wasm not available"
  | Some _ =>
      (exists spec, development_config wasm = Ok spec /\
         (is_Some (constructor spec tt) <->
          derivable development_authorities development_accounts)) /\
      (exists spec, local_testnet_config wasm = Ok spec /\
         (is_Some (constructor spec tt) <-> derivable local_authorities local_accounts))
  end.
Proof.
  destruct wasm as [wasm|]; [|done]. split; (eexists; split; [reflexivity|]).
  - apply (preset_defined wasm _ _ _ development_consistent).
  - apply (preset_defined wasm _ _ _ local_consistent).
Qed.
End Presets.

(** ** A concrete key derivation: keys are their URIs *)
#[export] Instance uri_public : Public string := {|
  Pair := string; from_string uri _ := Some uri; public pair := pair |}.

#[export] Instance uri_keys : Keys := {|
  Sr25519 := string; BabeId := string; GrandpaId := string;
  AccountPublic := string; AccountId := string;
  sr25519_public := uri_public; babe_public := uri_public; grandpa_public := uri_public;
  account_public_from key := key; into_account key := key |}.

#[export] Instance demo_defaults : GenesisDefaults := {|
  ChangesTrieConfig := unit; changes_trie_default := tt;
  BabeGenesis := unit; babe_default := tt;
  GrandpaGenesis := unit; grandpa_default := tt;
  MembershipGenesis := unit; membership_default := tt;
  ElectionsGenesis := unit; elections_default := tt;
  TreasuryGenesis := unit; treasury_default := tt;
  StakingRest := unit; staking_default := tt |}.

(** A release build. *)
#[export] Instance demo_build : BuildProfile := false.

Lemma uri_separated seeds : separated seeds.
Proof. intros s s' a _ _ [= <-] [= ?]. done. Qed.

Lemma uri_derivable a e : derivable a e.
Proof. split; apply Forall_forall; intros s _; by eexists. Qed.

Definition alice : Authority := ("//Alice//stash", "//Alice", "//Alice", "//Alice").

Lemma testnet_genesis_valid_witness :
  exists g, testnet_genesis [] [alice] "//Alice" ["//Alice"; "//Alice//stash"] true = Some g /\
    valid_genesis g.
Proof.
  apply (testnet_genesis_valid [] [alice] "//Alice" ["//Alice"; "//Alice//stash"] true);
    try (apply (bool_decide_unpack _); vm_compute; exact I).
Defined.

Lemma genesis_issuance_witness :
  exists b, sumZ (snd <$> balances b) = 2 ^ 60 * 2.
Proof.
  eexists. exact (proj1 (genesis_issuance [] [alice] "//Alice" ["//Alice"; "//Alice//stash"]
    true _ _ _ eq_refl eq_refl eq_refl)).
Defined.

Lemma genesis_validator_count_witness :
  exists g st, testnet_genesis [] [alice] "//Alice" [] true = Some g /\
    pallet_staking g = Some st /\ minimum_validator_count st = 1 /\ validator_count st = 2.
Proof.
  apply (proj1 (genesis_validator_count [] [alice] "//Alice" [] true)). reflexivity.
Defined.

Lemma preset_configs_valid_witness :
  exists spec g, local_testnet_config (Some []) = Ok spec /\ constructor spec tt = Some g /\
    valid_genesis g /\ code <$> frame_system g = Some [].
Proof.
  apply (preset_configs_valid [] local_testnet_config local_authorities local_accounts).
  - right. left.
  - apply uri_derivable.
  - apply uri_separated.
Defined.
