(* ===== verification/ConstructRuntime.v ===== *)
(** * The composition of the runtime: [construct_runtime!] and the [Config]
    implementations of runtime/src/lib.rs

    The macro call is the list of pallets it declares, each [impl ... for
    Runtime] the list of its associated types, in source order.  The theorems
    check that the two fit together: this is what the expansion of the macro
    relies on. *)
From S2P Require Import Prelude.

#[global] Open Scope string_scope.
#[global] Open Scope Z_scope.

(** ** [construct_runtime!] *)

(** A part of a pallet; the flag says whether it is generic ([Config<T>]). *)
Inductive Part :=
| Module_ | Call_ | Storage_ | Inherent_ | ValidateUnsigned_
| Config_ (over_T : bool) | Event_ (over_T : bool) | Origin_ (over_T : bool).

Definition T : bool := true.

(** One pallet: its name in the runtime, the crate (or module) that defines
    it, the instance of it, and the parts included. *)
Record PalletDecl := {
  pallet_name : string;
  pallet_path : string;
  pallet_instance : option string;
  pallet_parts : list Part;
}.

Definition decl (name path : string) (parts : list Part) : PalletDecl :=
  {| pallet_name := name; pallet_path := path; pallet_instance := None; pallet_parts := parts |}.
Definition decl_instance (name path instance : string) (parts : list Part) : PalletDecl :=
  {| pallet_name := name; pallet_path := path; pallet_instance := Some instance;
     pallet_parts := parts |}.

Definition construct_runtime : list PalletDecl := [
  decl "Sudo" "pallet_sudo" [Module_; Call_; Config_ T; Storage_; Event_ T];
  decl "System" "frame_system" [Module_; Call_; Config_ false; Storage_; Event_ T];
  decl "Balances" "pallet_balances" [Module_; Call_; Storage_; Config_ T; Event_ T];
  decl "Indices" "pallet_indices" [Module_; Call_; Storage_; Config_ T; Event_ T];
  decl "Timestamp" "pallet_timestamp" [Module_; Call_; Storage_; Inherent_];
  decl "TransactionPayment" "pallet_transaction_payment" [Module_; Storage_];
  decl "RandomnessCollectiveFlip" "pallet_randomness_collective_flip" [Module_; Call_; Storage_];
  decl "Authorship" "pallet_authorship" [Module_; Call_; Storage_; Inherent_];
  decl "Babe" "pallet_babe" [Module_; Call_; Storage_; Config_ false; ValidateUnsigned_];
  decl "Grandpa" "pallet_grandpa"
    [Module_; Call_; Storage_; Config_ false; Event_ false; ValidateUnsigned_];
  decl "Session" "pallet_session" [Module_; Call_; Storage_; Event_ false; Config_ T];
  decl "Staking" "pallet_staking" [Module_; Call_; Config_ T; Storage_; Event_ T];
  decl "Historical" "session_historical" [Module_];
  decl_instance "Council" "pallet_collective" "Instance1"
    [Module_; Call_; Storage_; Origin_ T; Event_ T; Config_ T];
  decl_instance "TechnicalCommittee" "pallet_collective" "Instance2"
    [Module_; Call_; Storage_; Origin_ T; Event_ T; Config_ T];
  decl_instance "TechnicalMembership" "pallet_membership" "Instance1"
    [Module_; Call_; Storage_; Event_ T; Config_ T];
  decl "ElectionsPhragmen" "pallet_elections_phragmen"
    [Module_; Call_; Storage_; Event_ T; Config_ T];
  decl "Treasury" "pallet_treasury" [Module_; Call_; Storage_; Config_ false; Event_ T];
  decl "Bounties" "pallet_bounties" [Module_; Call_; Storage_; Event_ T];
  decl "Tips" "pallet_tips" [Module_; Call_; Storage_; Event_ T];
  decl "Multisig" "pallet_multisig" [Module_; Call_; Storage_; Event_ T];
  decl "Recovery" "pallet_recovery" [Module_; Call_; Storage_; Event_ T];
  decl "Scheduler" "pallet_scheduler" [Module_; Call_; Storage_; Event_ T];
  decl "Proxy" "pallet_proxy" [Module_; Call_; Storage_; Event_ T];
  decl "Utility" "pallet_utility" [Module_; Call_; Event_ false];
  decl "TemplateModule" "template" [Module_; Call_; Storage_; Event_ T]].

(** ** [impl ... ::Config for Runtime] *)

(** What an associated type is bound to. *)
Inductive Binding :=
| Unit
| Self_
| Pallet (name : string)
| Param (name : string)
| Alias (name : string)
| Foreign (path : string) (args : list Binding)
| Tuple (items : list Binding).

Record ConfigImpl := {
  impl_path : string;
  impl_instance : option string;
  impl_types : list (string * Binding);
}.

Definition impl (path : string) (types : list (string * Binding)) : ConfigImpl :=
  {| impl_path := path; impl_instance := None; impl_types := types |}.
Definition impl_for (path instance : string) (types : list (string * Binding)) : ConfigImpl :=
  {| impl_path := path; impl_instance := Some instance; impl_types := types |}.

Definition system_config : ConfigImpl := impl "frame_system" [
  ("Call", Alias "Call"); ("Event", Alias "Event"); ("Origin", Alias "Origin");
  ("Version", Param "Version"); ("BaseCallFilter", Unit);
  ("BlockNumber", Alias "BlockNumber"); ("BlockLength", Param "BlockLength");
  ("BlockWeights", Param "BlockWeights"); ("BlockHashCount", Param "BlockHashCount");
  ("Index", Alias "Index"); ("Hash", Alias "Hash"); ("Hashing", Foreign "BlakeTwo256" []);
  ("Header", Foreign "generic::Header" [Alias "BlockNumber"; Foreign "BlakeTwo256" []]);
  ("DbWeight", Foreign "RocksDbWeight" []); ("AccountId", Alias "AccountId");
  ("AccountData", Foreign "pallet_balances::AccountData" [Alias "Balance"]);
  ("Lookup", Foreign "AccountIdLookup" [Alias "AccountId"; Unit]);
  ("OnNewAccount", Unit); ("OnKilledAccount", Unit); ("PalletInfo", Alias "PalletInfo");
  ("SystemWeightInfo", Unit); ("SS58Prefix", Param "SS58Prefix")].

(** [<... as KeyOwnerProofSystem<(KeyTypeId, id)>>::item] *)
Definition key_owner (item id : string) : Binding :=
  Foreign ("KeyOwnerProofSystem::" +:+ item)
    [Pallet "Historical"; Tuple [Foreign "KeyTypeId" []; Foreign id []]].

Definition babe_config : ConfigImpl := impl "pallet_babe" [
  ("EpochDuration", Param "EpochDuration"); ("ExpectedBlockTime", Param "ExpectedBlockTime");
  ("EpochChangeTrigger", Foreign "pallet_babe::ExternalTrigger" []);
  ("KeyOwnerProofSystem", Pallet "Historical");
  ("KeyOwnerProof", key_owner "Proof" "pallet_babe::AuthorityId");
  ("KeyOwnerIdentification", key_owner "IdentificationTuple" "pallet_babe::AuthorityId");
  ("HandleEquivocation", Unit); ("WeightInfo", Unit)].

Definition grandpa_config : ConfigImpl := impl "pallet_grandpa" [
  ("Event", Alias "Event"); ("Call", Alias "Call");
  ("KeyOwnerProofSystem", Pallet "Historical");
  ("KeyOwnerProof", key_owner "Proof" "GrandpaId");
  ("KeyOwnerIdentification", key_owner "IdentificationTuple" "GrandpaId");
  ("HandleEquivocation", Unit); ("WeightInfo", Unit)].

Definition session_config : ConfigImpl := impl "pallet_session" [
  ("Event", Alias "Event"); ("ValidatorId", Alias "AccountId");
  ("ValidatorIdOf", Foreign "pallet_staking::StashOf" [Self_]);
  ("Keys", Alias "SessionKeys"); ("ShouldEndSession", Pallet "Babe");
  ("NextSessionRotation", Pallet "Babe");
  ("SessionManager",
    Foreign "pallet_session::historical::NoteHistoricalRoot" [Self_; Pallet "Staking"]);
  ("SessionHandler", Foreign "OpaqueKeys::KeyTypeIdProviders" [Alias "SessionKeys"]);
  ("DisabledValidatorsThreshold", Param "DisabledValidatorsThreshold"); ("WeightInfo", Unit)].

Definition historical_config : ConfigImpl := impl "pallet_session::historical" [
  ("FullIdentification",
    Foreign "pallet_staking::Exposure" [Alias "AccountId"; Alias "Balance"]);
  ("FullIdentificationOf", Foreign "pallet_staking::ExposureOf" [Self_])].

Definition staking_config : ConfigImpl := impl "pallet_staking" [
  ("Call", Alias "Call"); ("Event", Alias "Event"); ("UnixTime", Pallet "Timestamp");
  ("Currency", Pallet "Balances"); ("CurrencyToVote", Alias "CurrencyToVote");
  ("RewardRemainder", Unit); ("Slash", Unit); ("Reward", Unit);
  ("SessionInterface", Self_); ("NextNewSession", Pallet "Session");
  ("SessionsPerEra", Param "SessionsPerEra"); ("BondingDuration", Param "BondingDuration");
  ("SlashDeferDuration", Param "SlashDeferDuration");
  ("SlashCancelOrigin", Foreign "EnsureRoot" [Alias "AccountId"]);
  ("RewardCurve", Param "RewardCurve"); ("ElectionLookahead", Param "ElectionLookahead");
  ("MinSolutionScoreBump", Param "MinSolutionScoreBump");
  ("MaxIterations", Param "MaxIterations");
  ("MaxNominatorRewardedPerValidator", Param "MaxNominatorRewardedPerValidator");
  ("UnsignedPriority", Param "StakingUnsignedPriority");
  ("OffchainSolutionWeightLimit", Param "OffchainSolutionWeightLimit"); ("WeightInfo", Unit)].

(** [type CouncilCollective = pallet_collective::Instance1] *)
Definition CouncilCollective : string := "Instance1".
Definition TechnicalCollective : string := "Instance2".

Definition council_config : ConfigImpl := impl_for "pallet_collective" CouncilCollective [
  ("Origin", Alias "Origin"); ("Proposal", Alias "Call"); ("Event", Alias "Event");
  ("MotionDuration", Param "CouncilMotionDuration");
  ("MaxProposals", Param "CouncilMaxProposals"); ("MaxMembers", Param "CouncilMaxMembers");
  ("DefaultVote", Foreign "pallet_collective::PrimeDefaultVote" []); ("WeightInfo", Unit)].

Definition technical_config : ConfigImpl := impl_for "pallet_collective" TechnicalCollective [
  ("Origin", Alias "Origin"); ("Proposal", Alias "Call"); ("Event", Alias "Event");
  ("MotionDuration", Param "TechnicalMotionDuration");
  ("MaxProposals", Param "TechnicalMaxProposals"); ("MaxMembers", Param "TechnicalMaxMembers");
  ("DefaultVote", Foreign "pallet_collective::PrimeDefaultVote" []); ("WeightInfo", Unit)].

Definition membership_config : ConfigImpl := impl_for "pallet_membership" "Instance1" [
  ("Event", Alias "Event"); ("AddOrigin", Alias "MoreThanHalfCouncil");
  ("RemoveOrigin", Alias "MoreThanHalfCouncil"); ("SwapOrigin", Alias "MoreThanHalfCouncil");
  ("ResetOrigin", Alias "MoreThanHalfCouncil"); ("PrimeOrigin", Alias "MoreThanHalfCouncil");
  ("MembershipInitialized", Pallet "TechnicalCommittee");
  ("MembershipChanged", Pallet "TechnicalCommittee")].

Definition elections_config : ConfigImpl := impl "pallet_elections_phragmen" [
  ("Event", Alias "Event"); ("Currency", Pallet "Balances");
  ("ChangeMembers", Pallet "Council"); ("InitializeMembers", Pallet "Council");
  ("CurrencyToVote", Foreign "frame_support::traits::U128CurrencyToVote" []);
  ("CandidacyBond", Param "CandidacyBond"); ("VotingBondBase", Param "VotingBondBase");
  ("VotingBondFactor", Param "VotingBondFactor");
  ("LoserCandidate", Pallet "Treasury"); ("KickedMember", Pallet "Treasury");
  ("DesiredMembers", Param "DesiredMembers"); ("DesiredRunnersUp", Param "DesiredRunnersUp");
  ("TermDuration", Param "TermDuration"); ("ModuleId", Param "ElectionsPhragmenModuleId");
  ("WeightInfo", Unit)].

Definition treasury_config : ConfigImpl := impl "pallet_treasury" [
  ("Event", Alias "Event"); ("Currency", Pallet "Balances");
  ("ModuleId", Param "TreasuryModuleId"); ("ApproveOrigin", Alias "ApproveOrigin");
  ("RejectOrigin", Alias "MoreThanHalfCouncil"); ("ProposalBond", Param "ProposalBond");
  ("ProposalBondMinimum", Param "ProposalBondMinimum"); ("SpendFunds", Unit);
  ("SpendPeriod", Param "SpendPeriod"); ("Burn", Param "Burn");
  ("OnSlash", Pallet "Treasury"); ("BurnDestination", Unit); ("WeightInfo", Unit)].

Definition bounties_config : ConfigImpl := impl "pallet_bounties" [
  ("Event", Alias "Event"); ("BountyDepositBase", Param "BountyDepositBase");
  ("BountyDepositPayoutDelay", Param "BountyDepositPayoutDelay");
  ("BountyUpdatePeriod", Param "BountyUpdatePeriod");
  ("BountyCuratorDeposit", Param "BountyCuratorDeposit");
  ("BountyValueMinimum", Param "BountyValueMinimum");
  ("DataDepositPerByte", Param "DataDepositPerByte");
  ("MaximumReasonLength", Param "MaximumReasonLength"); ("WeightInfo", Unit)].

Definition tips_config : ConfigImpl := impl "pallet_tips" [
  ("Event", Alias "Event"); ("DataDepositPerByte", Param "DataDepositPerByte");
  ("MaximumReasonLength", Param "MaximumReasonLength");
  ("Tippers", Pallet "ElectionsPhragmen"); ("TipCountdown", Param "TipCountdown");
  ("TipFindersFee", Param "TipFindersFee");
  ("TipReportDepositBase", Param "TipReportDepositBase"); ("WeightInfo", Unit)].

Definition authorship_config : ConfigImpl := impl "pallet_authorship" [
  ("FindAuthor", Foreign "pallet_session::FindAccountFromAuthorIndex" [Self_; Pallet "Babe"]);
  ("UncleGenerations", Param "UncleGenerations"); ("FilterUncle", Unit);
  ("EventHandler", Tuple [Pallet "Staking"; Unit])].

Definition balances_config : ConfigImpl := impl "pallet_balances" [
  ("Event", Alias "Event"); ("Balance", Alias "Balance"); ("AccountStore", Pallet "System");
  ("ExistentialDeposit", Param "ExistentialDeposit"); ("MaxLocks", Param "MaxLocks");
  ("DustRemoval", Unit);
  ("WeightInfo", Foreign "pallet_balances::weights::SubstrateWeight" [Self_])].

Definition indices_config : ConfigImpl := impl "pallet_indices" [
  ("Event", Alias "Event"); ("Currency", Pallet "Balances"); ("Deposit", Param "IndexDeposit");
  ("AccountIndex", Alias "AccountIndex"); ("WeightInfo", Unit)].

Definition transaction_payment_config : ConfigImpl := impl "pallet_transaction_payment" [
  ("OnChargeTransaction", Foreign "CurrencyAdapter" [Pallet "Balances"; Unit]);
  ("TransactionByteFee", Param "TransactionByteFee");
  ("WeightToFee", Foreign "IdentityFee" [Alias "Balance"]); ("FeeMultiplierUpdate", Unit)].

Definition multisig_config : ConfigImpl := impl "pallet_multisig" [
  ("Event", Alias "Event"); ("Call", Alias "Call"); ("Currency", Pallet "Balances");
  ("DepositBase", Param "MultisigDepositBase"); ("DepositFactor", Param "MultisigDepositFactor");
  ("MaxSignatories", Param "MaxSignatories"); ("WeightInfo", Unit)].

Definition recovery_config : ConfigImpl := impl "pallet_recovery" [
  ("Event", Alias "Event"); ("Call", Alias "Call"); ("Currency", Pallet "Balances");
  ("ConfigDepositBase", Param "ConfigDepositBase");
  ("FriendDepositFactor", Param "FriendDepositFactor"); ("MaxFriends", Param "MaxFriends");
  ("RecoveryDeposit", Param "RecoveryDeposit")].

Definition proxy_config : ConfigImpl := impl "pallet_proxy" [
  ("Event", Alias "Event"); ("Call", Alias "Call"); ("Currency", Pallet "Balances");
  ("ProxyType", Unit); ("ProxyDepositBase", Param "ProxyDepositBase");
  ("ProxyDepositFactor", Param "ProxyDepositFactor"); ("MaxProxies", Param "MaxProxies");
  ("WeightInfo", Unit); ("MaxPending", Param "MaxPending");
  ("CallHasher", Foreign "BlakeTwo256" []);
  ("AnnouncementDepositBase", Param "AnnouncementDepositBase");
  ("AnnouncementDepositFactor", Param "AnnouncementDepositFactor")].

Definition scheduler_config : ConfigImpl := impl "pallet_scheduler" [
  ("Call", Alias "Call"); ("Event", Alias "Event"); ("Origin", Alias "Origin");
  ("PalletsOrigin", Alias "OriginCaller"); ("MaximumWeight", Param "MaximumSchedulerWeight");
  ("ScheduleOrigin", Foreign "EnsureRoot" [Alias "AccountId"]);
  ("MaxScheduledPerBlock", Param "MaxScheduledPerBlock"); ("WeightInfo", Unit)].

Definition timestamp_config : ConfigImpl := impl "pallet_timestamp" [
  ("Moment", Alias "Moment"); ("OnTimestampSet", Pallet "Babe");
  ("MinimumPeriod", Param "MinimumPeriod"); ("WeightInfo", Unit)].

Definition utility_config : ConfigImpl := impl "pallet_utility" [
  ("Event", Alias "Event"); ("Call", Alias "Call"); ("WeightInfo", Unit)].

Definition sudo_config : ConfigImpl := impl "pallet_sudo" [
  ("Event", Alias "Event"); ("Call", Alias "Call")].

Definition template_config : ConfigImpl := impl "template" [("Event", Alias "Event")].

Definition config_impls : list ConfigImpl := [
  system_config; babe_config; grandpa_config; session_config; historical_config;
  staking_config; council_config; technical_config; membership_config; elections_config;
  treasury_config; bounties_config; tips_config; authorship_config; balances_config;
  indices_config; transaction_payment_config; multisig_config; recovery_config;
  proxy_config; scheduler_config; timestamp_config; utility_config; sudo_config;
  template_config].

(** The structs declared by the [parameter_types!] blocks, in source order. *)
Definition parameter_types : list string := [
  "Version"; "BlockHashCount"; "BlockWeights"; "BlockLength"; "SS58Prefix";
  "EpochDuration"; "ExpectedBlockTime"; "ReportLongevity";
  "DisabledValidatorsThreshold";
  "SessionsPerEra"; "BondingDuration"; "SlashDeferDuration"; "RewardCurve";
  "ElectionLookahead"; "MaxNominatorRewardedPerValidator"; "MaxIterations";
  "MinSolutionScoreBump"; "StakingUnsignedPriority"; "OffchainSolutionWeightLimit";
  "CouncilMotionDuration"; "CouncilMaxProposals"; "CouncilMaxMembers";
  "TechnicalMotionDuration"; "TechnicalMaxProposals"; "TechnicalMaxMembers";
  "CandidacyBond"; "VotingBondBase"; "VotingBondFactor"; "TermDuration";
  "DesiredMembers"; "DesiredRunnersUp"; "ElectionsPhragmenModuleId";
  "TreasuryModuleId"; "ProposalBond"; "ProposalBondMinimum"; "SpendPeriod"; "Burn";
  "BountyDepositBase"; "BountyDepositPayoutDelay"; "BountyUpdatePeriod";
  "BountyCuratorDeposit"; "BountyValueMinimum"; "TipCountdown"; "TipFindersFee";
  "TipReportDepositBase"; "DataDepositPerByte"; "MaximumReasonLength";
  "UncleGenerations"; "ExistentialDeposit"; "MaxLocks"; "IndexDeposit";
  "TransactionByteFee"; "MultisigDepositBase"; "MultisigDepositFactor"; "MaxSignatories";
  "ConfigDepositBase"; "FriendDepositFactor"; "MaxFriends"; "RecoveryDeposit";
  "ProxyDepositBase"; "ProxyDepositFactor"; "MaxProxies"; "AnnouncementDepositBase";
  "AnnouncementDepositFactor"; "MaxPending"; "MaximumSchedulerWeight";
  "MaxScheduledPerBlock"; "MinimumPeriod"].

(** ** The mock runtime: pallets/template/src/mock.rs *)

Definition mock_construct_runtime : list PalletDecl := [
  decl "System" "frame_system" [Module_; Call_; Config_ false; Storage_; Event_ T];
  decl "TemplateModule" "pallet_template" [Module_; Call_; Storage_; Event_ T]].

Definition mock_system_config : ConfigImpl := impl "frame_system" [
  ("BaseCallFilter", Unit); ("BlockWeights", Unit); ("BlockLength", Unit); ("DbWeight", Unit);
  ("Origin", Alias "Origin"); ("Call", Alias "Call"); ("Index", Foreign "u64" []);
  ("BlockNumber", Foreign "u64" []); ("Hash", Foreign "sp_core::H256" []);
  ("Hashing", Foreign "BlakeTwo256" []); ("AccountId", Foreign "u64" []);
  ("Lookup", Foreign "IdentityLookup" [Foreign "u64" []]);
  ("Header", Foreign "sp_runtime::testing::Header" []); ("Event", Alias "Event");
  ("BlockHashCount", Param "BlockHashCount"); ("Version", Unit);
  ("PalletInfo", Alias "PalletInfo"); ("AccountData", Unit); ("OnNewAccount", Unit);
  ("OnKilledAccount", Unit); ("SystemWeightInfo", Unit); ("SS58Prefix", Param "SS58Prefix")].

Definition mock_template_config : ConfigImpl :=
  impl "pallet_template" [("Event", Alias "Event")].

Definition mock_config_impls : list ConfigImpl := [mock_system_config; mock_template_config].

Definition mock_parameter_types : list (string * Z) := [("BlockHashCount", 250); ("SS58Prefix", 42)].
