(* ===== verification/CompositionSpec.v ===== *)
(** * Consistency of the runtime's composition

    What [construct_runtime!], the [Config] implementations, the parameter
    blocks and the genesis configuration must agree on. *)
From S2P Require Import Prelude Constants RuntimeParams ChainSpec GenesisSpec ConstructRuntime.

(** ** Reading the tables *)

(** The pallets of the runtime a binding names, and the parameters. *)
Fixpoint pallets_in (b : Binding) : list string :=
  match b with
  | Pallet n => [n]
  | Foreign _ args => flat_map pallets_in args
  | Tuple items => flat_map pallets_in items
  | _ => []
  end.

Fixpoint params_in (b : Binding) : list string :=
  match b with
  | Param n => [n]
  | Foreign _ args => flat_map params_in args
  | Tuple items => flat_map params_in items
  | _ => []
  end.

Definition pallets_of (c : ConfigImpl) : list string :=
  flat_map (fun x => pallets_in x.2) (impl_types c).
Definition params_of (c : ConfigImpl) : list string :=
  flat_map (fun x => params_in x.2) (impl_types c).

(** [use pallet_session::historical as session_historical] *)
Definition resolve_path (path : string) : string :=
  if bool_decide (path = "session_historical") then "pallet_session::historical" else path.

(** [c] is the [Config] implementation of the pallet [d]. *)
Definition configures (c : ConfigImpl) (d : PalletDecl) : Prop :=
  impl_path c = resolve_path (pallet_path d) /\ impl_instance c = pallet_instance d.
#[export] Instance configures_dec c d : Decision (configures c d).
Proof. unfold configures. apply _. Defined.

Definition binding (c : ConfigImpl) (name : string) : option Binding :=
  snd <$> List.find (fun x => bool_decide (x.1 = name)) (impl_types c).

#[export] Instance part_eq_dec : EqDecision Part.
Proof. solve_decision. Defined.

Definition has_event (d : PalletDecl) : bool :=
  existsb (fun p => match p with Event_ _ => true | _ => false end) (pallet_parts d).
Definition has_genesis (d : PalletDecl) : bool :=
  existsb (fun p => match p with Config_ _ => true | _ => false end) (pallet_parts d).

(** The field of the generated [GenesisConfig] for a pallet. *)
Definition genesis_field (d : PalletDecl) : string :=
  match pallet_instance d with
  | Some i => pallet_path d +:+ "_" +:+ i
  | None => pallet_path d
  end.

(** Check a closed decidable statement by evaluation. *)
Ltac by_evaluation := apply (bool_decide_unpack _); vm_compute; exact I.

(** Membership in a list written out. *)
Ltac by_evaluation_elem := cbn; repeat (first [left; reflexivity|right]).

(** ** Theorems *)

(** The decidable form of "every pallet named by a Config implementation is
    part of the runtime". *)
Lemma references_resolve_all :
  Forall (fun c => Forall (fun n =>
    Exists (fun d => pallet_name d = n /\ Module_ ∈ pallet_parts d) construct_runtime)
    (pallets_of c)) config_impls.
Proof. by_evaluation. Qed.

(** every pallet that some pallet's configuration refers to (as its
    currency, its session manager, the receiver of slashes, ...) is a pallet of
    the runtime, and a unique one: no name is declared twice. *)
Theorem references_resolve c n :
  c ∈ config_impls -> n ∈ pallets_of c ->
  exists d, d ∈ construct_runtime /\ pallet_name d = n /\ (Module_ ∈ pallet_parts d) /\
    forall d', d' ∈ construct_runtime -> pallet_name d' = n -> d' = d.
Proof.
  intros Hc Hn. pose proof references_resolve_all as H.
  rewrite Forall_forall in H. specialize (H c Hc).
  rewrite Forall_forall in H. specialize (H n Hn).
  apply Exists_exists in H as (d & Hd & Hname & Hpart).
  exists d. do 3 (split; [done|]). intros d' Hd' Hname'.
  assert (Hnd : NoDup (pallet_name <$> construct_runtime)) by by_evaluation.
  by eapply (NoDup_fmap_inj_on pallet_name); [..|congruence].
Qed.

Lemma configs_match :
  Forall (fun d => pallet_name d = "RandomnessCollectiveFlip" \/
    length (filter (fun c => configures c d) config_impls) = 1%nat) construct_runtime /\
  Forall (fun c =>
    length (filter (fun d => configures c d) construct_runtime) = 1%nat) config_impls.
Proof. split; by_evaluation. Qed.

(** the pallets of the runtime and the [Config] implementations are in
    one-to-one correspondence, instance by instance, except for the one pallet
    that needs no configuration. *)
Theorem configs_one_to_one :
  (forall d, d ∈ construct_runtime -> pallet_name d <> "RandomnessCollectiveFlip" ->
     exists c, filter (fun c => configures c d) config_impls = [c]) /\
  (forall c, c ∈ config_impls ->
     exists d, filter (fun d => configures c d) construct_runtime = [d]).
Proof.
  destruct configs_match as [Hd Hc].
  rewrite Forall_forall in Hd. rewrite Forall_forall in Hc. split.
  - intros d Hin Hne. destruct (Hd d Hin) as [?|Hl]; [done|]. by apply length_one.
  - intros c Hin. by apply length_one, Hc.
Qed.

(** Whether the pallet's own events become events of the runtime. *)
Definition forwards_events (c : ConfigImpl) : bool :=
  match binding c "Event" with Some (Alias n) => bool_decide (n = "Event") | _ => false end.

Lemma forwards_events_spec c :
  forwards_events c = true <-> binding c "Event" = Some (Alias "Event").
Proof.
  unfold forwards_events. destruct (binding c "Event") as [[]|]; try naive_solver.
  rewrite bool_decide_eq_true. naive_solver.
Qed.

(** a pallet is declared with its events exactly when its configuration
    says how they become events of the runtime: no event is dropped, and none
    is expected from a pallet that has none. *)
Theorem events_wired d c :
  d ∈ construct_runtime -> c ∈ config_impls -> configures c d ->
  has_event d = true <-> binding c "Event" = Some (Alias "Event").
Proof.
  assert (H : Forall (fun d => Forall (fun c => configures c d ->
    has_event d = forwards_events c) config_impls) construct_runtime) by by_evaluation.
  intros Hd Hc Hcfg. rewrite Forall_forall in H. specialize (H d Hd).
  rewrite Forall_forall in H. by rewrite (H c Hc Hcfg), forwards_events_spec.
Qed.

(** every parameter a configuration reads is declared, once, and every
    declared parameter is read by some configuration, except one:
    [ReportLongevity], left over from the disabled equivocation reports. *)
Theorem parameters_used :
  NoDup parameter_types /\
  (forall c p, c ∈ config_impls -> p ∈ params_of c -> p ∈ parameter_types) /\
  (forall p, p ∈ parameter_types ->
     (forall c, c ∈ config_impls -> p ∉ params_of c) <-> p = "ReportLongevity").
Proof.
  split; [by_evaluation|split].
  - assert (H : Forall (fun c => Forall (fun p => p ∈ parameter_types) (params_of c)) config_impls)
      by by_evaluation.
    intros c p Hc. rewrite Forall_forall in H. specialize (H c Hc).
    rewrite Forall_forall in H. apply H.
  - assert (H : Forall (fun p => Forall (fun c => p ∉ params_of c) config_impls <->
                          p = "ReportLongevity") parameter_types) by by_evaluation.
    intros p Hp. rewrite Forall_forall in H. specialize (H p Hp).
    by rewrite Forall_forall in H.
Qed.

(** there is a single ledger: every pallet that handles money handles that
    of the Balances pallet, which keeps its accounts in the System pallet. *)
Theorem single_ledger :
  (forall c b, c ∈ config_impls -> binding c "Currency" = Some b -> b = Pallet "Balances") /\
  binding balances_config "AccountStore" = Some (Pallet "System") /\
  binding transaction_payment_config "OnChargeTransaction" =
    Some (Foreign "CurrencyAdapter" [Pallet "Balances"; Unit]).
Proof.
  split; [|done].
  assert (H : Forall (fun c => match binding c "Currency" with
    | None => True | Some (Pallet n) => n = "Balances" | _ => False end) config_impls).
  { repeat (constructor; [done|]). constructor. }
  intros c b Hc Hb. rewrite Forall_forall in H. specialize (H c Hc).
  rewrite Hb in H. by destruct b; subst.
Qed.

(** ** The mock runtime *)

(** The associated types of a configuration, in any order. *)
Definition type_names (c : ConfigImpl) : list string := fst <$> impl_types c.

(** the pallet is tested the way it is deployed: the mock runtime declares
    it under the same name, with the same parts, and configures it with the
    same associated types as the real runtime; the mock's frame_system has the
    same associated types as the real one, and within the mock, too, pallets
    and configurations correspond, and every parameter is declared and read. *)
Theorem mock_mirrors_runtime :
  (exists d d', d ∈ mock_construct_runtime /\ d' ∈ construct_runtime /\
     configures mock_template_config d /\ configures template_config d' /\
     pallet_name d = pallet_name d' /\ pallet_parts d = pallet_parts d' /\
     impl_types mock_template_config = impl_types template_config) /\
  Permutation (type_names mock_system_config) (type_names system_config) /\
  (forall d, d ∈ mock_construct_runtime ->
     exists c, filter (fun c => configures c d) mock_config_impls = [c]) /\
  Permutation (flat_map params_of mock_config_impls) (fst <$> mock_parameter_types).
Proof.
  split_and!.
  - exists (decl "TemplateModule" "pallet_template" [Module_; Call_; Storage_; Event_ T]),
      (decl "TemplateModule" "template" [Module_; Call_; Storage_; Event_ T]).
    split; [by_evaluation_elem|]. split; [by_evaluation_elem|].
    split; [by split|]. split; [by split|]. done.
  - by_evaluation.
  - assert (H : Forall (fun d => length (filter (fun c => configures c d) mock_config_impls) = 1%nat)
      mock_construct_runtime) by by_evaluation.
    rewrite Forall_forall in H. intros d Hd. by apply length_one, H.
  - by_evaluation.
Qed.

(** ** The genesis configuration *)
Section GenesisFields.
Context {keys : Keys} {sp : SpArithmetic} {defaults : GenesisDefaults}.
Context {profile : BuildProfile}.

Definition set_field {A} (name : string) (o : option A) : list string :=
  match o with Some _ => [name] | None => [] end.

(** The fields of a [GenesisConfig] that are set, in the order of the code. *)
Definition configured (g : GenesisConfig) : list string :=
  set_field "frame_system" (frame_system g) ++
  set_field "pallet_sudo" (pallet_sudo g) ++
  set_field "pallet_balances" (pallet_balances g) ++
  set_field "pallet_babe" (pallet_babe g) ++
  set_field "pallet_grandpa" (pallet_grandpa g) ++
  set_field "pallet_indices" (pallet_indices g) ++
  set_field "pallet_session" (pallet_session g) ++
  set_field "pallet_staking" (pallet_staking g) ++
  set_field "pallet_collective_Instance1" (pallet_collective_Instance1 g) ++
  set_field "pallet_collective_Instance2" (pallet_collective_Instance2 g) ++
  set_field "pallet_membership_Instance1" (pallet_membership_Instance1 g) ++
  set_field "pallet_elections_phragmen" (pallet_elections_phragmen g) ++
  set_field "pallet_treasury" (pallet_treasury g).

(** the genesis state configures every pallet of the runtime that has a
    genesis configuration, and nothing else. *)
Theorem genesis_configures_runtime wasm auths root endowed flag g :
  testnet_genesis wasm auths root endowed flag = Some g ->
  Permutation (configured g)
    (genesis_field <$> filter (fun d => has_genesis d = true) construct_runtime).
Proof.
  unfold testnet_genesis. intros H. apply bind_Some in H as (count & _ & [= <-]).
  unfold configured, set_field. cbn [frame_system pallet_sudo pallet_balances pallet_babe
    pallet_grandpa pallet_indices pallet_session pallet_staking
    pallet_collective_Instance1 pallet_collective_Instance2 pallet_membership_Instance1
    pallet_elections_phragmen pallet_treasury app].
  by_evaluation.
Qed.
End GenesisFields.

Lemma references_resolve_witness :
  exists d, d ∈ construct_runtime /\ pallet_name d = "Treasury".
Proof.
  destruct (references_resolve elections_config "Treasury") as (d & Hd & Hn & _).
  - by_evaluation_elem.
  - by_evaluation_elem.
  - exists d. split; [exact Hd|exact Hn].
Defined.

Lemma events_wired_witness :
  has_event (decl "Utility" "pallet_utility" [Module_; Call_; Event_ false]) = true.
Proof.
  refine (proj2 (events_wired (decl "Utility" "pallet_utility" [Module_; Call_; Event_ false])
    utility_config _ _ _) eq_refl).
  - by_evaluation_elem.
  - by_evaluation_elem.
  - split; reflexivity.
Defined.

Lemma genesis_configures_runtime_witness :
  exists g, testnet_genesis [] [alice] "//Alice" [] true = Some g /\
    length (configured g) = 13%nat.
Proof.
  eexists. split; [reflexivity|].
  rewrite (Permutation_length (genesis_configures_runtime (profile := demo_build) [] [alice] "//Alice" [] true _ eq_refl)).
  reflexivity.
Defined.
