(* ===== verification/TypeAliases.v ===== *)
(** * Type aliases

    The aliases of runtime/src/common.rs and runtime/src/lib.rs, with those of
    node/src/service.rs and node/src/chain_spec.rs, as expressions of the
    [Binding] type of [ConstructRuntime]; an associated type [<T as Trait>::A]
    is [Foreign "Trait::A" [T]].  [expand] replaces aliases by what they stand
    for.  The node and the runtime are compiled from these aliases separately,
    and exchange blocks that they must agree on. *)
From S2P Require Import Prelude ConstructRuntime.

#[local] Open Scope string_scope.
#[local] Open Scope list_scope.

Definition std (name : string) : Binding := Foreign name [].

(** ** common.rs *)
Definition common_aliases : list (string * Binding) := [
  ("BlockNumber", std "u32");
  ("Signature", std "MultiSignature");
  ("AccountPublic", Foreign "Verify::Signer" [Alias "Signature"]);
  ("AccountId", Foreign "IdentifyAccount::AccountId" [Foreign "Verify::Signer" [Alias "Signature"]]);
  ("AccountIndex", std "u32");
  ("Amount", std "i128");
  ("Balance", std "u128");
  ("Share", std "u128");
  ("Moment", std "u64");
  ("Nonce", std "u32");
  ("Index", std "u32");
  ("EraIndex", std "u32");
  ("AuctionId", std "u32");
  ("Hash", std "sp_core::H256");
  ("DigestItem", Foreign "generic::DigestItem" [Alias "Hash"]);
  ("Address", Foreign "sp_runtime::MultiAddress" [Alias "AccountId"; Unit]);
  ("Header", Foreign "generic::Header" [Alias "BlockNumber"; std "BlakeTwo256"]);
  ("Block", Foreign "generic::Block" [Alias "Header"; Alias "UncheckedExtrinsic"]);
  ("BlockId", Foreign "generic::BlockId" [Alias "Block"]);
  ("SignedBlock", Foreign "generic::SignedBlock" [Alias "Block"])].

(** [mod opaque] *)
Definition opaque_aliases : list (string * Binding) := [
  ("opaque::UncheckedExtrinsic", std "sp_runtime::OpaqueExtrinsic");
  ("opaque::Header", Foreign "generic::Header" [Alias "BlockNumber"; std "BlakeTwo256"]);
  ("opaque::Block",
    Foreign "generic::Block" [Alias "opaque::Header"; Alias "opaque::UncheckedExtrinsic"]);
  ("opaque::BlockId", Foreign "generic::BlockId" [Alias "opaque::Block"])].

(** ** lib.rs *)

(** [SignedExtra]: the checks of a transaction, in order. *)
Definition signed_extra : list string :=
  ["frame_system::CheckSpecVersion"; "frame_system::CheckTxVersion";
   "frame_system::CheckGenesis"; "frame_system::CheckEra"; "frame_system::CheckNonce";
   "frame_system::CheckWeight"; "pallet_transaction_payment::ChargeTransactionPayment"].

(** [EnsureOneOf<AccountId, EnsureRoot<AccountId>, proportion<n, d, AccountId, CouncilCollective>>] *)
Definition ensure_council (proportion n d : string) : Binding :=
  Foreign "EnsureOneOf" [
    Alias "AccountId";
    Foreign "EnsureRoot" [Alias "AccountId"];
    Foreign proportion [std n; std d; Alias "AccountId"; Alias "CouncilCollective"]].

Definition origin_aliases : list (string * Binding) := [
  ("MoreThanHalfCouncil", ensure_council "pallet_collective::EnsureProportionMoreThan" "_1" "_2");
  ("ApproveOrigin", ensure_council "pallet_collective::EnsureProportionAtLeast" "_3" "_5")].

Definition currency_alias : string * Binding :=
  ("CurrencyToVote", std "frame_support::traits::U128CurrencyToVote").
Definition council_alias : string * Binding :=
  ("CouncilCollective", std "pallet_collective::Instance1").
Definition technical_alias : string * Binding :=
  ("TechnicalCollective", std "pallet_collective::Instance2").

Definition signed_extra_alias : string * Binding :=
  ("SignedExtra", Tuple ((fun x => Foreign x [Self_]) <$> signed_extra)).

Definition extrinsic_aliases : list (string * Binding) := [
  ("UncheckedExtrinsic", Foreign "generic::UncheckedExtrinsic"
     [Alias "Address"; Alias "Call"; Alias "Signature"; Alias "SignedExtra"]);
  ("CheckedExtrinsic", Foreign "generic::CheckedExtrinsic"
     [Alias "AccountId"; Alias "Call"; Alias "SignedExtra"]);
  ("Executive", Foreign "frame_executive::Executive"
     [Self_; Alias "Block"; Foreign "frame_system::ChainContext" [Self_]; Self_;
      Alias "AllModules"])].

Definition runtime_aliases : list (string * Binding) :=
  origin_aliases ++
  [currency_alias; council_alias; technical_alias; signed_extra_alias] ++ extrinsic_aliases.

(** [construct_runtime!(pub enum Runtime where ...)] *)
Definition runtime_where : list (string * Binding) := [
  ("Block", Alias "Block");
  ("NodeBlock", Alias "opaque::Block");
  ("UncheckedExtrinsic", Alias "UncheckedExtrinsic")].

(** [impl SendTransactionTypes<C> for Runtime] *)
Definition send_transaction_types : list (string * Binding) := [
  ("OverarchingCall", Alias "Call");
  ("Extrinsic", Alias "UncheckedExtrinsic")].

(** ** The node *)
Definition service_aliases : list (string * Binding) := [
  ("service::FullClient", Foreign "sc_service::TFullClient"
     [Alias "opaque::Block"; std "RuntimeApi"; std "Executor"]);
  ("service::FullBackend", Foreign "sc_service::TFullBackend" [Alias "opaque::Block"]);
  ("service::FullSelectChain", Foreign "sc_consensus::LongestChain"
     [Alias "service::FullBackend"; Alias "opaque::Block"])].

Definition chain_spec_aliases : list (string * Binding) := [
  ("chain_spec::AccountPublic", Foreign "Verify::Signer" [Alias "Signature"]);
  ("chain_spec::ChainSpec", Foreign "sc_service::GenericChainSpec" [Alias "GenesisConfig"])].

(** The types that [construct_runtime!] and [impl_opaque_keys!] generate. *)
Definition generated_types : list string :=
  ["Call"; "Event"; "Origin"; "OriginCaller"; "PalletInfo"; "AllModules"; "GenesisConfig";
   "SessionKeys"].

Definition type_aliases : list (string * Binding) :=
  common_aliases ++ opaque_aliases ++ runtime_aliases ++ service_aliases ++
  chain_spec_aliases.

Definition alias_of (name : string) : option Binding :=
  snd <$> List.find (fun x => bool_decide (x.1 = name)) type_aliases.

Arguments alias_of : simpl never.

(** ** Expansion *)

Fixpoint expand (fuel : nat) (b : Binding) : option Binding :=
  match fuel with
  | O => None
  | Datatypes.S fuel =>
      match b with
      | Alias x =>
          match alias_of x with
          | Some b' => expand fuel b'
          | None => if bool_decide (x ∈ generated_types) then Some b else None
          end
      | Foreign path args => Foreign path <$> mapM (expand fuel) args
      | Tuple items => Tuple <$> mapM (expand fuel) items
      | _ => Some b
      end
  end.
