(* ===== verification/TypesSpec.v ===== *)
(** * What the type aliases stand for

    The expansion of a type expression, and of an associated type of a
    configuration, with the types that the node, the runtime and the pallets'
    configurations share. *)
From S2P Require Import Prelude ConstructRuntime RuntimeParams ChainSpec GenesisSpec.
From S2P Require Import CompositionSpec TypeAliases.

#[local] Open Scope string_scope.
#[local] Open Scope list_scope.

Definition type_of (b : Binding) : option Binding := expand 20 b.
Definition configured_type (c : ConfigImpl) (name : string) : option Binding :=
  b ← binding c name; type_of b.
Definition where_type (name : string) : option Binding :=
  b ← snd <$> List.find (fun x => bool_decide (x.1 = name)) runtime_where; type_of b.

Definition opaque_header : Binding := Foreign "generic::Header" [std "u32"; std "BlakeTwo256"].

(** The runtime and the node have the same headers. *)
Example block_header :
  (exists extrinsic, where_type "Block" = Some (Foreign "generic::Block" [opaque_header; extrinsic])) /\
  configured_type system_config "Header" = Some opaque_header.
Proof. split; [eexists|]; vm_compute; reflexivity. Qed.

(** The node does not decode the extrinsics. *)
Example node_block :
  where_type "NodeBlock" =
    Some (Foreign "generic::Block" [opaque_header; std "sp_runtime::OpaqueExtrinsic"]).
Proof. vm_compute. reflexivity. Qed.

(** The node derives accounts from the public keys of the runtime's signatures. *)
Example account_public :
  type_of (Alias "chain_spec::AccountPublic") = Some (Foreign "Verify::Signer" [std "MultiSignature"]) /\
  configured_type system_config "AccountId" =
    Some (Foreign "IdentifyAccount::AccountId" [Foreign "Verify::Signer" [std "MultiSignature"]]).
Proof. split; vm_compute; reflexivity. Qed.
