(* ===== verification/OriginTypes.v ===== *)
(** * The configured origins

    RuntimeOrigins.v says what each privileged operation requires.  Here that is
    read off the configuration: the associated type that a pallet's [Config]
    implementation binds is expanded, and the type expression is given its
    meaning as an origin check. *)
From S2P Require Import Prelude ConstructRuntime RuntimeParams ChainSpec GenesisSpec.
From S2P Require Import CompositionSpec TypeAliases TypesSpec RuntimeOrigins.

#[local] Open Scope string_scope.
#[local] Open Scope list_scope.

Section Origins.
Context {ensure : EnsureOrigins}.

(** The type-level numbers of pallet_collective, and the instances of it. *)
Definition type_number (b : Binding) : option Z :=
  match b with
  | Foreign "_1" [] => Some 1
  | Foreign "_2" [] => Some 2
  | Foreign "_3" [] => Some 3
  | Foreign "_5" [] => Some 5
  | _ => None
  end.

Definition type_collective (b : Binding) : option Collective :=
  match b with
  | Foreign "pallet_collective::Instance1" [] => Some RuntimeOrigins.CouncilCollective
  | Foreign "pallet_collective::Instance2" [] => Some RuntimeOrigins.TechnicalCollective
  | _ => None
  end.

(** The origin check that a type stands for. *)
Fixpoint denote (b : Binding) : option EnsureOrigin :=
  match b with
  | Foreign "EnsureRoot" [_] => Some EnsureRoot
  | Foreign "EnsureOneOf" [_; l; r] => l ← denote l; r ← denote r; Some (EnsureOneOf l r)
  | Foreign "pallet_collective::EnsureProportionMoreThan" [n; d; _; c] =>
      n ← type_number n; d ← type_number d; c ← type_collective c;
      Some (EnsureProportionMoreThan n d c)
  | Foreign "pallet_collective::EnsureProportionAtLeast" [n; d; _; c] =>
      n ← type_number n; d ← type_number d; c ← type_collective c;
      Some (EnsureProportionAtLeast n d c)
  | _ => None
  end.

(** Where each privilege is configured. *)
Definition configured_at (p : Privilege) : ConfigImpl * string :=
  match p with
  | CancelSlash => (staking_config, "SlashCancelOrigin")
  | AddMember => (membership_config, "AddOrigin")
  | RemoveMember => (membership_config, "RemoveOrigin")
  | SwapMember => (membership_config, "SwapOrigin")
  | ResetMembers => (membership_config, "ResetOrigin")
  | SetPrime => (membership_config, "PrimeOrigin")
  | ApproveSpend => (treasury_config, "ApproveOrigin")
  | RejectSpend => (treasury_config, "RejectOrigin")
  | Schedule => (scheduler_config, "ScheduleOrigin")
  end.

Definition configured_origin (p : Privilege) : option EnsureOrigin :=
  b ← configured_type (configured_at p).1 (configured_at p).2; denote b.

Lemma configured_origin_guard p : configured_origin p = Some (guard p).
Proof. by destruct p. Qed.

Context {laws : EnsureOriginLaws ensure}.

(** C18: who may perform each privileged operation, read off the types that the
    pallets are configured with: root may perform all of them; a council motion
    may spend from the treasury when three fifths of the members carry it, and
    may reject a spend or manage the technical membership when more than half
    of them do; no ordinary account and no motion of the technical committee,
    whatever its majority, may perform any.  Only root may schedule a call or
    cancel a slash: no council motion may, whatever its majority, although a
    comment in the configuration of the staking pallet says that a
    super-majority of the council can cancel the slash. *)
Theorem configured_origins p :
  exists check, configured_origin p = Some check /\
    (forall o, accepts check o = true <->
       is_root o = true \/
       exists ayes total, members RuntimeOrigins.CouncilCollective o = Some (ayes, total) /\
         council_may p ayes total) /\
    (forall o, is_Some (signed_by o) \/ is_Some (members RuntimeOrigins.TechnicalCollective o) ->
       accepts check o = false) /\
    (p = Schedule \/ p = CancelSlash -> forall o, accepts check o = is_root o).
Proof.
  exists (guard p). split; [apply configured_origin_guard|]. split_and!.
  - apply guard_accepts.
  - apply unprivileged_rejected.
  - intros [-> | ->] o; apply EnsureRoot_accepts.
Qed.
End Origins.

Lemma configured_origins_witness :
  exists check, configured_origin (ensure := demo_origins) ApproveSpend = Some check /\
    accepts check (DMembers RuntimeOrigins.CouncilCollective 6 10) = true /\
    accepts check (DMembers RuntimeOrigins.TechnicalCollective 10 10) = false /\
    exists slash, configured_origin (ensure := demo_origins) CancelSlash = Some slash /\
      accepts slash (DMembers RuntimeOrigins.CouncilCollective 10 10) = false.
Proof.
  destruct (configured_origins (ensure := demo_origins) ApproveSpend) as (check & H & Hiff & Hno & _).
  exists check. split; [exact H|]. split_and!.
  - apply (proj2 (Hiff (DMembers RuntimeOrigins.CouncilCollective 6 10))).
    right. exists 6, 10. split; [reflexivity|]. cbn. lia.
  - apply (Hno (DMembers RuntimeOrigins.TechnicalCollective 10 10)). right. by exists (10, 10).
  - destruct (configured_origins (ensure := demo_origins) CancelSlash) as (slash & Hs & _ & _ & Hr).
    exists slash. split; [exact Hs|]. apply Hr. by right.
Defined.
