(* ===== verification/TransactionChecks.v ===== *)
(** * The checks of a transaction

    [SignedExtra] of runtime/src/lib.rs is a tuple of signed extensions: before
    a transaction is dispatched, each of them checks it or takes something for
    it, such as the fee.  What one extension does is external; sp_runtime
    documents that a tuple runs its members in order and stops at the first
    that rejects ([TupleLaws]). *)
From S2P Require Import Prelude Effects TypeAliases.

#[local] Open Scope string_scope.
#[local] Open Scope list_scope.

Section Checks.
(** [TransactionValidityError] *)
Context {Invalid : Type}.

(** [SignedExtension::pre_dispatch] of one extension. *)
Inductive ExtensionE : Type -> Type :=
| PreDispatch (extension : string) : ExtensionE (result Invalid unit).

#[export] Instance extension_labels : Labels ExtensionE string := fun X e =>
  match e with PreDispatch x => x end.
#[export] Instance extension_failure : Failure ExtensionE Invalid := fun X e =>
  match e in ExtensionE X return X -> option Invalid with PreDispatch _ => err_of end.

(** [SignedExtension::pre_dispatch] of a tuple. *)
Class TupleExtension := {
  pre_dispatch : list string -> prog ExtensionE (result Invalid unit);
}.

Class TupleLaws (tuple : TupleExtension) : Prop := {
  pre_dispatch_nil : pre_dispatch [] ≃ Ret (Ok tt);
  pre_dispatch_cons x xs :
    pre_dispatch (x :: xs) ≃ (let? _ := call (PreDispatch x) in pre_dispatch xs);
}.

Context {tuple : TupleExtension} {laws : TupleLaws tuple}.

Lemma pre_dispatch_follows xs : follows (pre_dispatch xs) xs.
Proof.
  induction xs as [|x xs IH].
  - rewrite pre_dispatch_nil. apply follows_ret.
  - rewrite pre_dispatch_cons.
    exact (follows_call_try_cons (PreDispatch x) _ xs (fun _ => eq_refl) (fun _ => IH)).
Qed.

(** What a transaction must pass before it is charged, and the charge. *)
Definition guards : list string :=
  ["frame_system::CheckSpecVersion"; "frame_system::CheckTxVersion";
   "frame_system::CheckGenesis"; "frame_system::CheckEra"; "frame_system::CheckNonce";
   "frame_system::CheckWeight"].
Definition charge : string := "pallet_transaction_payment::ChargeTransactionPayment".

(** C23: a transaction that passes has been accepted by exactly the checks of
    the two versions, the genesis, the era, the nonce and the weight, in this
    order, and then charged; one that does not pass is rejected by the first of
    these that refuses it; and the payment extension runs only when all six
    checks have accepted the transaction, so that one that fails any of them
    pays nothing. *)
Theorem fee_charged_last t r :
  exec (pre_dispatch signed_extra) t r ->
  match r with
  | Ok _ => ev_label <$> t = guards ++ [charge] /\ Forall succeeded t
  | Err e => ev_label <$> t `prefix_of` guards ++ [charge] /\
      exists t' ev, t = t' ++ [ev] /\ Forall succeeded t' /\ ev_failure ev = Some e
  end /\
  (charge ∈ (ev_label <$> t) -> exists checks payment,
     t = checks ++ [payment] /\ ev_label payment = charge /\
     Forall succeeded checks /\ ev_label <$> checks = guards).
Proof.
  change signed_extra with (guards ++ [charge]). intros H.
  pose proof (pre_dispatch_follows _ t r H) as Hf.
  destruct (follows_prefix _ _ _ _ (pre_dispatch_follows _) H) as [k Hk]. split.
  { destruct r; [done|]. split; [by exists k|]. naive_solver. }
  intros Hin.
  assert (Hlast : exists ev t', t = t' ++ [ev]).
  { destruct t as [|ev t' _] using rev_ind; [by apply elem_of_nil in Hin|eauto]. }
  destruct Hlast as (ev & t' & ->).
  assert (Hok : Forall succeeded t').
  { destruct r; [by destruct Hf as [_ [? _]%Forall_app]|].
    destruct Hf as (t1 & ev1 & [-> _]%app_inj_tail & ? & _). done. }
  assert (Hne : charge ∉ guards) by (apply (bool_decide_unpack _); by vm_compute).
  exists t', ev. rewrite fmap_app in Hk, Hin.
  change (ev_label <$> [ev]) with [ev_label (L:=string) ev] in *.
  destruct k as [|y k _] using rev_ind.
  - rewrite app_nil_r in Hk. by apply app_inj_tail in Hk as [<- <-].
  - rewrite app_assoc in Hk. apply app_inj_tail in Hk as [Hk _]. exfalso. apply Hne.
    rewrite Hk. apply elem_of_app. by left.
Qed.
End Checks.
Arguments TupleExtension : clear implicits.
Arguments ExtensionE : clear implicits.

(** ** A tuple that runs its members in order *)
#[export] Instance list_tuple : TupleExtension string := {|
  pre_dispatch := fix go xs :=
    match xs with
    | [] => Ret (Ok tt)
    | x :: xs => let? _ := call (PreDispatch x) in go xs
    end
|}.
#[export] Instance list_tuple_laws : TupleLaws list_tuple.
Proof. by split. Qed.

(** A chain on which the nonce check rejects everything. *)
Definition reject_nonce : handler (ExtensionE string) unit := fun X e s =>
  (match e in ExtensionE _ X return X with
   | PreDispatch x =>
       if bool_decide (x = "frame_system::CheckNonce") then Err "stale" else Ok tt
   end, s).
Definition accept_all : handler (ExtensionE string) unit := fun X e s =>
  (match e in ExtensionE _ X return X with PreDispatch x => Ok tt end, s).

Example rejected_unpaid :
  charge ∉ (ev_label <$> run_trace reject_nonce (pre_dispatch signed_extra) tt).
Proof. apply (bool_decide_unpack _). vm_compute. exact I. Qed.

Lemma fee_charged_last_witness :
  exists checks payment,
    run_trace accept_all (pre_dispatch signed_extra) tt = checks ++ [payment] /\
    ev_label payment = charge /\ Forall succeeded checks /\
    ev_label <$> checks = guards.
Proof.
  refine (proj2 (fee_charged_last _ _ (run_exec accept_all (pre_dispatch signed_extra) tt)) _).
  apply (bool_decide_unpack _). vm_compute. exact I.
Defined.
