(* ===== verification/KeyValue.v ===== *)
(** * The template pallet in the runtime's key-value store

    [TemplatePallet] speaks of the storage item [Something] through the
    interface [TemplateStorage].  Here that interface is implemented the way
    the runtime does it: the item is the entry of one global key-value store
    at the pallet's storage key, encoded as a u32, next to the entries of
    frame_system and of all other pallets.  The key comes from the name that
    [construct_runtime!] gives the pallet, as for every pallet written with
    [#[frame_support::pallet]]; the prefixes of other pallets are theirs to
    choose, and nothing is assumed of them.  The laws of the interface follow
    from the key not being one of frame_system's, and with them everything
    proved in [TemplateSpec] holds of the store; no other entry is touched.

    The codec of u32 and the storage of frame_system (block number and events)
    are external. *)
From S2P Require Import Prelude Effects Hashing TemplatePallet TemplateSpec ConstructRuntime.

#[local] Open Scope string_scope.
#[local] Open Scope list_scope.

(** ** The store *)

Abbreviation Store := (gmap (list Z) (list Z)).

(** The codec of u32, as parity-scale-codec provides it. *)
Class U32Codec := {
  encode_u32 : Z -> list Z;
  decode_u32 : list Z -> option Z;
}.
Class U32CodecLaws (codec : U32Codec) : Prop := {
  decode_encode_u32 v : in_range W32 v -> decode_u32 (encode_u32 v) = Some v;
}.

(** The part of frame_system that deposits events, as functions of the store. *)
Class EventStore (frame : FrameSystem) := {
  store_deposit : Event AccountId -> Store -> Store;
  store_events : Store -> list (Event AccountId);
  store_genesis : Store -> bool;
}.
(** frame_system reads and writes its own keys only. *)
Class EventStoreLaws {hashing : Hashing} {frame} (es : EventStore frame) : Prop := {
  store_deposit_frame e m key :
    ~ belongs_to "System" key -> store_deposit e m !! key = m !! key;
  store_events_local m m' :
    (forall key, belongs_to "System" key -> m !! key = m' !! key) ->
    store_events m = store_events m' /\ store_genesis m = store_genesis m';
  store_events_deposit e m : store_events (store_deposit e m) =
    if store_genesis m then store_events m else store_events m ++ [e];
  store_genesis_deposit e m : store_genesis (store_deposit e m) = store_genesis m;
}.

Section Store.
Context {hashing : Hashing} {hash_laws : HashingLaws hashing}.
Context {codec : U32Codec} {codec_laws : U32CodecLaws codec}.
Context {frame : FrameSystem} {es : EventStore frame} {es_laws : EventStoreLaws es}.

(** The name that [construct_runtime!] gives the pallet of the crate [template]. *)
Definition template_name : string :=
  from_option (fun x => pallet_name x.2) ""
    (list_find (fun d => pallet_path d = "template") construct_runtime).

(** [Something<T> = StorageValue<_, u32>] of that pallet. *)
Definition something_key : list Z := storage_key template_name "Something".

#[export] Instance store_storage : TemplateStorage Store := {|
  get m := m !! something_key ≫= decode_u32;
  put v m := <[something_key := encode_u32 v]> m;
  deposit_event := store_deposit;
  events := store_events;
  is_genesis := store_genesis;
|}.

Lemma something_key_eq : something_key = storage_key "TemplateModule" "Something".
Proof. reflexivity. Qed.

Lemma pallet_prefix_xx p : pallet_prefix p = pallet_prefix (hashing := xx_hashing) p.
Proof. unfold pallet_prefix. by rewrite !twox_128_xxh64. Qed.

(** Prefixes with different hashes have no key in common. *)
Lemma prefixes_apart p q key :
  pallet_prefix p <> pallet_prefix q -> belongs_to p key -> ~ belongs_to q key.
Proof. intros Hne Hp Hq. apply Hne. by eapply belongs_to_prefix. Qed.

Lemma template_not_system : pallet_prefix "TemplateModule" <> pallet_prefix "System".
Proof.
  rewrite !pallet_prefix_xx. apply (bool_decide_unpack _). vm_compute. exact I.
Qed.

Lemma something_key_template : belongs_to "TemplateModule" something_key.
Proof. apply storage_key_belongs. Qed.

Lemma something_key_not_system : ~ belongs_to "System" something_key.
Proof. exact (prefixes_apart _ _ _ template_not_system something_key_template). Qed.

Lemma put_system_unchanged (v : Z) (m : Store) key :
  belongs_to "System" key -> put v m !! key = m !! key.
Proof.
  intros Hk. apply lookup_insert_ne. intros <-. by apply something_key_not_system.
Qed.

Lemma lookup_put (v : Z) (m : Store) : put v m !! something_key = Some (encode_u32 v).
Proof. apply lookup_insert_eq. Qed.

Lemma lookup_deposit (e : Event AccountId) (m : Store) : deposit_event e m !! something_key = m !! something_key.
Proof. apply store_deposit_frame, something_key_not_system. Qed.

#[export] Instance store_storage_laws : TemplateStorageLaws store_storage.
Proof.
  split.
  - intros v m Hv. change (get (put v m)) with
      (<[something_key := encode_u32 v]> m !! something_key ≫= decode_u32).
    rewrite lookup_insert_eq. by apply decode_encode_u32.
  - intros e m. cbn. by rewrite store_deposit_frame by apply something_key_not_system.
  - intros v m. by apply store_events_local, put_system_unchanged.
  - intros e m. apply store_events_deposit.
  - intros v m. by apply store_events_local, put_system_unchanged.
  - intros e m. apply store_genesis_deposit.
Qed.

(** Only the item and the keys of frame_system are ever written. *)
Lemma foreign_keys_kept (m : Store) xs key :
  Forall (fun x => call_typed x.2) xs ->
  key <> something_key -> ~ belongs_to "System" key ->
  (apply_calls m xs).2 !! key = m !! key.
Proof.
  intros Hxs Hne Hsys.
  apply (apply_calls_rel (fun m m' : Store => m' !! key = m !! key)); [|done|..].
  - split; [by intros ?|intros m1 m2 m3 ??; congruence].
  - intros v m1 _. by apply lookup_insert_ne.
  - intros e m1. by apply store_deposit_frame.
Qed.

(** C2: the pallet keeps to its own storage.  Whatever calls are dispatched, in
    whatever store, the only entry that can change, besides those of
    frame_system, is the one at the key of [Something] of [TemplateModule]; so
    every other entry of the pallet's prefix stays, and so do all entries of any
    other pallet, whatever prefix it stores under, as long as the prefix does
    not hash to that of [TemplateModule] or [System].  After the calls the entry
    encodes a u32, which is the value that the pallet then reads, or is what it
    was. *)
Theorem pallet_isolated (m : Store) xs :
  Forall (fun x => call_typed x.2) xs ->
  let own := storage_key "TemplateModule" "Something" in
  let m' := (apply_calls m xs).2 in
  (forall key, key <> own -> ~ belongs_to "System" key -> m' !! key = m !! key) /\
  (forall prefix key,
     pallet_prefix prefix <> pallet_prefix "TemplateModule" ->
     pallet_prefix prefix <> pallet_prefix "System" ->
     belongs_to prefix key -> m' !! key = m !! key) /\
  (m' !! own = m !! own \/
   exists v, in_range W32 v /\ m' !! own = Some (encode_u32 v) /\ get m' = Some v).
Proof.
  intros Hxs own m'. subst own. rewrite <- something_key_eq. split_and!.
  - intros key Hne Hsys. by apply foreign_keys_kept.
  - intros prefix key Ht Hs Hk. apply (foreign_keys_kept m xs key Hxs).
    + intros ->. by apply (prefixes_apart _ _ _ Ht Hk something_key_template).
    + by apply (prefixes_apart prefix).
  - assert (m' !! something_key = m !! something_key \/
      exists v, in_range W32 v /\ m' !! something_key = Some (encode_u32 v)) as [H|(v & Hv & H)].
    { apply (apply_calls_rel (fun m m' => m' !! something_key = m !! something_key \/
        exists v, in_range W32 v /\ m' !! something_key = Some (encode_u32 v))); try done.
      + split; [by left|].
        intros m1 m2 m3 [H1|H1] [H2|H2]; [left; congruence|by right|..|by right].
        right. by rewrite H2.
      + intros v m1 Hv. right. exists v. by rewrite lookup_put.
      + intros e m1. left. apply lookup_deposit. }
    + by left.
    + right. exists v. split_and!; [done..|]. cbn. rewrite H. by apply decode_encode_u32.
Qed.
End Store.
