(* ===== verification/KeyValueDemo.v ===== *)
(** * A concrete key-value store for the template pallet

    Little-endian u32 values, the hash of [Hashing], and an event log under a
    key of frame_system: the store in which the theorems of [KeyValue] apply. *)
From S2P Require Import Prelude Effects Hashing TemplatePallet TemplateSpec Mock.
From S2P Require Import ConstructRuntime KeyValue.

#[local] Open Scope string_scope.
#[local] Open Scope list_scope.

#[export] Instance le_codec : U32Codec := {|
  encode_u32 := le_split 4;
  decode_u32 l := if (length l =? 4)%nat then Some (le_combine l) else None;
|}.

#[export] Instance le_codec_laws : U32CodecLaws le_codec.
Proof.
  split. intros v Hv. cbn [decode_u32 encode_u32 le_codec].
  rewrite length_le_split. cbn [Nat.eqb]. rewrite le_combine_split; [done|].
  unfold in_range, max_value, modulus in Hv. cbn [bits] in Hv. cbn. lia.
Qed.

(** The newest event first: its value, then its account. *)
Definition events_key : list Z := storage_key "System" "Events".
Definition number_key : list Z := storage_key "System" "Number".

Fixpoint decode_events (l : list Z) : list (Event Z) :=
  match l with
  | v :: who :: l => decode_events l ++ [SomethingStored v who]
  | _ => []
  end.

#[export] Instance demo_events : EventStore Test := {|
  store_deposit (e : Event AccountId) m :=
    if bool_decide (is_Some (m !! number_key)) then
      let '(SomethingStored v who) := e in
      <[events_key := v :: who :: default [] (m !! events_key)]> m
    else m;
  store_events m := decode_events (default [] (m !! events_key));
  store_genesis m := negb (bool_decide (is_Some (m !! number_key)));
|}.

#[export] Instance demo_events_laws : EventStoreLaws demo_events.
Proof.
  split; cbn.
  - intros [v who] m key Hk. case_bool_decide; [|done]. apply lookup_insert_ne.
    intros <-. apply Hk, storage_key_belongs.
  - intros m m' H. rewrite !H by apply storage_key_belongs. done.
  - intros [v who] m. case_bool_decide; cbn; [|done]. by rewrite lookup_insert_eq.
  - intros [v who] m.
    destruct (bool_decide (is_Some (m !! number_key))) eqn:Hn; cbn; [|by rewrite Hn].
    assert (events_key <> number_key) by (apply (bool_decide_unpack _); vm_compute; exact I).
    by rewrite lookup_insert_ne, Hn.
Qed.

(** Block one, with entries under two other prefixes. *)
Definition balance_key : list Z := storage_key "Balances" "Account".
Definition proposals_key : list Z := storage_key "Treasury" "ProposalCount".
Definition block_one_store : gmap (list Z) (list Z) :=
  list_to_map [(number_key, [1; 0; 0; 0]); (balance_key, [42]); (proposals_key, [3])].

(** A store just below the limit, an increment to it, and one that fails. *)
Definition calls_at_limit : list (RawOrigin * Call) :=
  [(Signed 7, do_something_call (2 ^ 32 - 2)); (Signed 7, cause_error_call);
   (Signed 8, cause_error_call)].

Lemma calls_at_limit_typed : Forall (fun x => call_typed x.2) calls_at_limit.
Proof. repeat constructor; vm_compute; intuition discriminate. Defined.

Example store_after_calls :
  (apply_calls block_one_store calls_at_limit).2 !! something_key = Some [255; 255; 255; 255].
Proof. vm_compute. reflexivity. Qed.

Lemma pallet_isolated_witness :
  (apply_calls block_one_store calls_at_limit).2 !! balance_key = Some [42] /\
  (apply_calls block_one_store calls_at_limit).2 !! proposals_key = Some [3].
Proof.
  destruct (pallet_isolated (frame := Test) block_one_store calls_at_limit calls_at_limit_typed)
    as (Hkey & Hprefix & _).
  split.
  - rewrite (Hkey balance_key).
    + vm_compute. reflexivity.
    + apply (bool_decide_unpack _). vm_compute. exact I.
    + apply (bool_decide_unpack _). vm_compute. exact I.
  - rewrite (Hprefix "Treasury" proposals_key).
    + vm_compute. reflexivity.
    + apply (bool_decide_unpack _). vm_compute. exact I.
    + apply (bool_decide_unpack _). vm_compute. exact I.
    + apply storage_key_belongs.
Defined.
