(* ===== verification/RuntimeApi.v ===== *)
(** * The runtime API: [impl_runtime_apis!] in runtime/src/lib.rs

    Each API function is a program over the calls it makes into the pallets
    and into frame_executive ([RuntimeE]). *)
From S2P Require Import Prelude Effects Hashing Constants RuntimeParams.
Import time params.

#[global] Open Scope string_scope.
#[global] Open Scope Z_scope.

(** The types the API mentions, and the codec of key ownership proofs. *)
Class RuntimeTypes := {
  Block : Type; Header : Type; Extrinsic : Type; Hash : Type;
  ApplyExtrinsicResult : Type; InherentData : Type; CheckInherentsResult : Type;
  OpaqueMetadata : Type; TransactionSource : Type; TransactionValidity : Type;
  ApiVersions : Type; RUNTIME_API_VERSIONS : ApiVersions;
  CanAuthorWithVersions : Type; can_author_with_default : CanAuthorWithVersions;
  AuthorityList : Type; Randomness : Type; Slot : Type; Epoch : Type;
  KeyTypeId : Type; BABE_KEY_TYPE : KeyTypeId; BabeAuthorityId : Type;
  GrandpaAuthorityId : Type; GrandpaAuthorityList : Type; SetId : Type;
  BabeEquivocationProof : Type; GrandpaEquivocationProof : Type;
  AccountId : Type; RuntimeDispatchInfo : Type; FeeDetails : Type;
  BenchmarkConfig : Type; BenchmarkBatch : Type; TrackedStorageKey : Type;
  (** [hex_literal::hex!(...).to_vec().into()] *)
  hex_key : string -> TrackedStorageKey;
  (** the proof type of [Historical], its SCALE encoding, and the opaque wrapper *)
  Proof : Type; Bytes : Type; OpaqueKeyOwnershipProof : Type;
  encode : Proof -> Bytes;
  opaque_new : Bytes -> OpaqueKeyOwnershipProof;
  opaque_decode : OpaqueKeyOwnershipProof -> option Proof;
}.

(** Decoding what was encoded gives it back. *)
Class CodecLaws (types : RuntimeTypes) : Prop := {
  opaque_decode_encode p : opaque_decode (opaque_new (encode p)) = Some p;
}.

Section Api.
Context {types : RuntimeTypes}.

Inductive RuntimeE : Type -> Type :=
| ExecuteBlock (b : Block) : RuntimeE unit
| InitializeBlock (h : Header) : RuntimeE unit
| RuntimeMetadata : RuntimeE OpaqueMetadata
| ApplyExtrinsic (x : Extrinsic) : RuntimeE ApplyExtrinsicResult
| FinalizeBlock : RuntimeE Header
| CreateExtrinsics (d : InherentData) : RuntimeE (list Extrinsic)
| CheckExtrinsics (d : InherentData) (b : Block) : RuntimeE CheckInherentsResult
| CollectiveFlipSeed : RuntimeE Hash
| ValidateTransaction (s : TransactionSource) (x : Extrinsic) : RuntimeE TransactionValidity
| OffchainWorker (h : Header) : RuntimeE unit
| BabeSlotDuration : RuntimeE Z
| BabeAuthorities : RuntimeE AuthorityList
| BabeRandomness : RuntimeE Randomness
| BabeCurrentEpochStart : RuntimeE Slot
| BabeCurrentEpoch : RuntimeE Epoch
| BabeNextEpoch : RuntimeE Epoch
| HistoricalProve (key : KeyTypeId * BabeAuthorityId) : RuntimeE (option Proof)
| BabeSubmitReport (e : BabeEquivocationProof) (p : Proof) : RuntimeE (option unit)
| SessionKeysGenerate (seed : option Bytes) : RuntimeE Bytes
| SessionKeysDecode (encoded : Bytes) : RuntimeE (option (list (Bytes * KeyTypeId)))
| GrandpaAuthorities : RuntimeE GrandpaAuthorityList
| SystemAccountNonce (who : AccountId) : RuntimeE Z
| PaymentQueryInfo (x : Extrinsic) (len : Z) : RuntimeE RuntimeDispatchInfo
| PaymentQueryFeeDetails (x : Extrinsic) (len : Z) : RuntimeE FeeDetails
| AddBenchmark (config : BenchmarkConfig) (whitelist : list TrackedStorageKey)
    (pallet location : string) (batches : list BenchmarkBatch) :
    RuntimeE (result string (list BenchmarkBatch)).

Record RuntimeVersion := {
  spec_name : string; impl_name : string; authoring_version : Z; spec_version : Z;
  impl_version : Z; apis : ApiVersions; transaction_version : Z }.

Definition VERSION : RuntimeVersion := {|
  spec_name := "node-template"; impl_name := "node-template"; authoring_version := 1;
  spec_version := 1; impl_version := 1; apis := RUNTIME_API_VERSIONS;
  transaction_version := 1 |}.

(** The parameter [Version] of frame_system. *)
Definition Version : RuntimeVersion := VERSION.

(** [native_version] *)
Record NativeVersion := {
  runtime_version : RuntimeVersion; can_author_with : CanAuthorWithVersions }.
Definition native_version : NativeVersion :=
  {| runtime_version := VERSION; can_author_with := can_author_with_default |}.

(** *** Core, Metadata, BlockBuilder, TaggedTransactionQueue, OffchainWorkerApi *)
Definition version : RuntimeVersion := VERSION.
Definition execute_block (b : Block) : prog RuntimeE unit := call (ExecuteBlock b).
Definition initialize_block (h : Header) : prog RuntimeE unit := call (InitializeBlock h).
Definition metadata : prog RuntimeE OpaqueMetadata := call RuntimeMetadata.
Definition apply_extrinsic (x : Extrinsic) : prog RuntimeE ApplyExtrinsicResult :=
  call (ApplyExtrinsic x).
Definition finalize_block : prog RuntimeE Header := call FinalizeBlock.
Definition inherent_extrinsics (d : InherentData) : prog RuntimeE (list Extrinsic) :=
  call (CreateExtrinsics d).
Definition check_inherents (b : Block) (d : InherentData) :
    prog RuntimeE CheckInherentsResult := call (CheckExtrinsics d b).
Definition random_seed : prog RuntimeE Hash := call CollectiveFlipSeed.
Definition validate_transaction (s : TransactionSource) (x : Extrinsic) :
    prog RuntimeE TransactionValidity := call (ValidateTransaction s x).
Definition offchain_worker (h : Header) : prog RuntimeE unit := call (OffchainWorker h).

(** *** BabeApi *)
Inductive AllowedSlots :=
| PrimarySlots | PrimaryAndSecondaryPlainSlots | PrimaryAndSecondaryVRFSlots.

Record BabeGenesisConfiguration := {
  slot_duration : Z; epoch_length : Z; c : Z * Z; genesis_authorities : AuthorityList;
  randomness : Randomness; allowed_slots : AllowedSlots }.

Definition configuration : prog RuntimeE BabeGenesisConfiguration :=
  let* slot_duration := call BabeSlotDuration in
  let* authorities := call BabeAuthorities in
  let* randomness := call BabeRandomness in
  Ret {| slot_duration := slot_duration; epoch_length := EpochDuration;
         c := PRIMARY_PROBABILITY; genesis_authorities := authorities;
         randomness := randomness; allowed_slots := PrimaryAndSecondaryPlainSlots |}.

Definition current_epoch_start : prog RuntimeE Slot := call BabeCurrentEpochStart.
Definition current_epoch : prog RuntimeE Epoch := call BabeCurrentEpoch.
Definition next_epoch : prog RuntimeE Epoch := call BabeNextEpoch.

Definition babe_generate_key_ownership_proof (_slot : Slot) (authority_id : BabeAuthorityId) :
    prog RuntimeE (option OpaqueKeyOwnershipProof) :=
  let* proof := call (HistoricalProve (BABE_KEY_TYPE, authority_id)) in
  Ret (option_map opaque_new (option_map encode proof)).

Definition babe_submit_report_equivocation (equivocation_proof : BabeEquivocationProof)
    (key_owner_proof : OpaqueKeyOwnershipProof) : prog RuntimeE (option unit) :=
  match opaque_decode key_owner_proof with
  | None => Ret None
  | Some key_owner_proof => call (BabeSubmitReport equivocation_proof key_owner_proof)
  end.

(** *** SessionKeys *)
Definition generate_session_keys (seed : option Bytes) : prog RuntimeE Bytes :=
  call (SessionKeysGenerate seed).
Definition decode_session_keys (encoded : Bytes) :
    prog RuntimeE (option (list (Bytes * KeyTypeId))) := call (SessionKeysDecode encoded).

(** *** GrandpaApi *)
Definition grandpa_authorities : prog RuntimeE GrandpaAuthorityList := call GrandpaAuthorities.
Definition grandpa_submit_report_equivocation (_equivocation_proof : GrandpaEquivocationProof)
    (_key_owner_proof : OpaqueKeyOwnershipProof) : prog RuntimeE (option unit) := Ret None.
Definition grandpa_generate_key_ownership_proof (_set_id : SetId)
    (_authority_id : GrandpaAuthorityId) : prog RuntimeE (option OpaqueKeyOwnershipProof) :=
  Ret None.

(** *** AccountNonceApi, TransactionPaymentApi *)
Definition account_nonce (account : AccountId) : prog RuntimeE Z :=
  call (SystemAccountNonce account).
Definition query_info (uxt : Extrinsic) (len : Z) : prog RuntimeE RuntimeDispatchInfo :=
  call (PaymentQueryInfo uxt len).
Definition query_fee_details (uxt : Extrinsic) (len : Z) : prog RuntimeE FeeDetails :=
  call (PaymentQueryFeeDetails uxt len).

(** *** Benchmark *)
Definition whitelist : list TrackedStorageKey := hex_key <$> [
  "26aa394eea5630e07c48ae0c9558cef702a5c1b19ab7a04f536c519aca4983ac";
  "c2261276cc9d1f8598ea4b6a74b15c2f57c875e4cff74148e4628f264b974c80";
  "26aa394eea5630e07c48ae0c9558cef7ff553b5a9862a516939d82b3d3d8661a";
  "26aa394eea5630e07c48ae0c9558cef70a98fdbe9ce6c55837576c60c7af3850";
  "26aa394eea5630e07c48ae0c9558cef780d41e5e16056765bc8461851072c9d7"].

Definition dispatch_benchmark (config : BenchmarkConfig) :
    prog RuntimeE (result string (list BenchmarkBatch)) :=
  let? batches := call (AddBenchmark config whitelist "frame_system" "SystemBench" []) in
  let? batches := call (AddBenchmark config whitelist "pallet_balances" "Balances" batches) in
  let? batches := call (AddBenchmark config whitelist "pallet_timestamp" "Timestamp" batches) in
  match batches with
  | [] => Ret (Err "Benchmark not found for this pallet.")
  | _ => Ret (Ok batches)
  end.

(** ** Theorems *)

(** What pallet_babe answers for the slot duration: twice the minimum period. *)
Definition slot_duration_derived (e : event RuntimeE) : Prop :=
  match e with
  | Event BabeSlotDuration x => x = 2 * MinimumPeriod
  | _ => True
  end.

Context {codec : CodecLaws types}.

(** C28: equivocation reports round-trip: a proof that the BABE API generates
    comes from the historical session of exactly that authority, and
    submitting it forwards that very proof, with the report, to the pallet,
    whose answer is returned. *)
Theorem equivocation_report_roundtrip slot id t opaque :
  exec (babe_generate_key_ownership_proof slot id) t (Some opaque) ->
  exists p, t = [Event (HistoricalProve (BABE_KEY_TYPE, id)) (Some p)] /\
    forall report t' r,
      exec (babe_submit_report_equivocation report opaque) t' r <->
      t' = [Event (BabeSubmitReport report p) r].
Proof.
  intros ([p|] & ? & -> & -> & H); cbn in H; [|done]. injection H as ->.
  exists p. split; [done|]. intros report t' r.
  unfold babe_submit_report_equivocation. rewrite opaque_decode_encode.
  apply exec_call.
Qed.

(** a report with an undecodable proof is dropped before it reaches the
    pallet, and so is any report to the GRANDPA API, which generates no proof
    either: in all three cases nothing is called and the answer is [None]. *)
Theorem equivocation_report_dropped :
  (forall report opaque t r, opaque_decode opaque = None ->
     exec (babe_submit_report_equivocation report opaque) t r <-> t = [] /\ r = None) /\
  (forall report opaque t r,
     exec (grandpa_submit_report_equivocation report opaque) t r <-> t = [] /\ r = None) /\
  (forall set id t r,
     exec (grandpa_generate_key_ownership_proof set id) t r <-> t = [] /\ r = None).
Proof.
  split; [|done]. intros report opaque t r Hd.
  unfold babe_submit_report_equivocation. by rewrite Hd.
Qed.

(** with the slot duration pallet_babe derives from the timestamp pallet
    (twice its minimum period), the BABE configuration is that of the chain
    constants: slots as long as the block time, epochs of one hour, one
    primary slot in four, and secondary plain slots. *)
Theorem babe_configuration_timing t cfg :
  Forall slot_duration_derived t ->
  exec configuration t cfg ->
  slot_duration cfg = MILLISECS_PER_BLOCK /\
  epoch_length cfg * slot_duration cfg = 60 * 60 * 1000 /\
  c cfg = (1, 4) /\ allowed_slots cfg = PrimaryAndSecondaryPlainSlots /\
  length t = 3%nat.
Proof.
  intros Hslot (d & ? & -> & a & ? & -> & r & ? & -> & -> & ->). cbn.
  apply Forall_cons in Hslot as [-> _]. by vm_compute.
Qed.

(** C33: a benchmark run tries the three pallets in order, each with the whitelist
    and the batches of those before it, and returns the batches of the last; it
    never reports success with no batch, but fails with "not found"; and the
    first pallet that fails ends the run with its error. *)
Theorem benchmark_never_empty config t r :
  exec (dispatch_benchmark config) t r ->
  let system := AddBenchmark config whitelist "frame_system" "SystemBench" [] in
  let balances := AddBenchmark config whitelist "pallet_balances" "Balances" in
  let timestamp := AddBenchmark config whitelist "pallet_timestamp" "Timestamp" in
  match r with
  | Ok batches => batches <> [] /\ exists b1 b2,
      t = [Event system (Ok b1); Event (balances b1) (Ok b2); Event (timestamp b2) (Ok batches)]
  | Err e =>
      (exists b1 b2, e = "Benchmark not found for this pallet." /\
         t = [Event system (Ok b1); Event (balances b1) (Ok b2); Event (timestamp b2) (Ok [])]) \/
      t = [Event system (Err e)] \/
      (exists b1, t = [Event system (Ok b1); Event (balances b1) (Err e)]) \/
      (exists b1 b2,
         t = [Event system (Ok b1); Event (balances b1) (Ok b2); Event (timestamp b2) (Err e)])
  end.
Proof.
  unfold dispatch_benchmark. intros H; cbn zeta.
  apply exec_try_bind in H as [(? & ? & b1 & -> & ->%exec_call & H)|(e & ->%exec_call & ->)].
  2: { by right; left. }
  apply exec_try_bind in H as [(? & ? & b2 & -> & ->%exec_call & H)|(e & ->%exec_call & ->)].
  2: { right; right; left. by eexists. }
  apply exec_try_bind in H as [(? & ? & b3 & -> & ->%exec_call & H)|(e & ->%exec_call & ->)].
  2: { right; right; right. by eexists _, _. }
  destruct b3 as [|b b3]; destruct H as [-> ->]; [left|split]; eauto.
Qed.
End Api.

(** ** A concrete runtime *)

(** Every opaque type is a number, but for storage keys; a proof encodes as
    itself. *)
#[export] Instance demo_types : RuntimeTypes := {|
  Block := Z; Header := Z; Extrinsic := Z; Hash := Z;
  ApplyExtrinsicResult := Z; InherentData := Z; CheckInherentsResult := Z;
  OpaqueMetadata := Z; TransactionSource := Z; TransactionValidity := Z;
  ApiVersions := Z; RUNTIME_API_VERSIONS := 0;
  CanAuthorWithVersions := list Z; can_author_with_default := [];
  AuthorityList := Z; Randomness := Z; Slot := Z; Epoch := Z;
  KeyTypeId := string; BABE_KEY_TYPE := "babe"; BabeAuthorityId := Z;
  GrandpaAuthorityId := Z; GrandpaAuthorityList := Z; SetId := Z;
  BabeEquivocationProof := Z; GrandpaEquivocationProof := Z;
  AccountId := Z; RuntimeDispatchInfo := Z; FeeDetails := Z;
  BenchmarkConfig := Z; BenchmarkBatch := Z; TrackedStorageKey := list Z;
  hex_key := parse_hex;
  Proof := Z; Bytes := Z; OpaqueKeyOwnershipProof := Z;
  encode := fun p => p; opaque_new := fun b => b; opaque_decode := fun o => Some o |}.

#[export] Instance demo_codec : CodecLaws demo_types.
Proof. by split. Qed.

Lemma equivocation_report_roundtrip_witness :
  exists p, [Event (HistoricalProve ("babe", 3)) (Some 7)] =
            [Event (HistoricalProve (BABE_KEY_TYPE, 3)) (Some p)] /\
    forall report t' r,
      exec (babe_submit_report_equivocation report 7) t' r <->
      t' = [Event (BabeSubmitReport report p) r].
Proof.
  apply (equivocation_report_roundtrip (types := demo_types) 0 3 _ 7).
  eexists _, _; split; [reflexivity|]. by split.
Defined.

Lemma babe_configuration_timing_witness :
  let cfg := {| slot_duration := 6000; epoch_length := EpochDuration; c := PRIMARY_PROBABILITY;
                genesis_authorities := 1; randomness := 2;
                allowed_slots := PrimaryAndSecondaryPlainSlots |} in
  epoch_length cfg * slot_duration cfg = 60 * 60 * 1000.
Proof.
  intros cfg.
  apply (babe_configuration_timing (types := demo_types)
           [Event BabeSlotDuration 6000; Event BabeAuthorities 1; Event BabeRandomness 2] cfg).
  - repeat apply Forall_cons_2; [reflexivity|exact I|exact I|apply Forall_nil_2].
  - eexists _, _; split; [reflexivity|]. eexists _, _; split; [reflexivity|].
    eexists _, _; split; [reflexivity|]. done.
Defined.

(** An environment in which only the Balances pallet was asked for. *)
Definition demo_benchmarks : handler (@RuntimeE demo_types) unit := fun X e s =>
  (match e in RuntimeE X return X with
   | AddBenchmark _ _ pallet _ batches =>
       Ok (if bool_decide (pallet = "pallet_balances") then (batches ++ [1])%list else batches)
   | ExecuteBlock _ | InitializeBlock _ | OffchainWorker _ => tt
   | CreateExtrinsics _ => []
   | HistoricalProve _ | SessionKeysDecode _ | BabeSubmitReport _ _ => None
   | _ => 0
   end, s).

Lemma benchmark_never_empty_witness :
  [1] <> [] /\ exists b1 b2,
    run_trace demo_benchmarks (dispatch_benchmark (types := demo_types) 0) tt =
      [Event (AddBenchmark (types := demo_types) 0 whitelist "frame_system" "SystemBench" [])
         (Ok b1);
       Event (AddBenchmark (types := demo_types) 0 whitelist "pallet_balances" "Balances" b1)
         (Ok b2);
       Event (AddBenchmark (types := demo_types) 0 whitelist "pallet_timestamp" "Timestamp" b2)
         (Ok [1])].
Proof.
  exact (benchmark_never_empty (types := demo_types) 0 _ (Ok [1])
    (run_exec demo_benchmarks (dispatch_benchmark (types := demo_types) 0) tt)).
Defined.
