(* ===== verification/BenchmarkKeys.v ===== *)
(** * The keys excluded from benchmarks

    [dispatch_benchmark] passes a list of storage keys, written out in
    hexadecimal, that are not counted as database accesses.  They are the keys
    of five storage values of frame_system and pallet_balances. *)
From S2P Require Import Prelude Effects Hashing RuntimeParams RuntimeApi ConstructRuntime.
From S2P Require Import CompositionSpec.

#[local] Open Scope string_scope.
#[local] Open Scope list_scope.
#[local] Open Scope Z_scope.

(** [hex_literal::hex!] denotes those bytes, and a [TrackedStorageKey] is made
    from the bytes of a key. *)
Class HexLaws (types : RuntimeTypes) := {
  tracked : list Z -> TrackedStorageKey;
  hex_key_bytes s : hex_key s = tracked (parse_hex s);
}.

Section Keys.
Context {types : RuntimeTypes} {hex : HexLaws types}.
Context {hashing : Hashing} {hash_laws : HashingLaws hashing}.

(** The storage values the comments of the source name. *)
Definition untracked_values : list (string * string) :=
  [("System", "Number"); ("Balances", "TotalIssuance"); ("System", "ExecutionPhase");
   ("System", "EventCount"); ("System", "Events")].

(** C29: the five hexadecimal keys are what their comments say: the storage keys
    of the block number, the total issuance, the execution phase, the event
    count and the events, in pallets that [construct_runtime!] declares under
    the names that are hashed into those keys, with storage. *)
Theorem whitelist_keys :
  whitelist = (fun '(pallet, item) => tracked (storage_key pallet item)) <$> untracked_values /\
  Forall (fun '(pallet, _) =>
    exists d, d ∈ construct_runtime /\ pallet_name d = pallet /\ Storage_ ∈ pallet_parts d)
    untracked_values.
Proof.
  split.
  - unfold whitelist, storage_key, pallet_prefix, untracked_values. cbn [fmap list_fmap].
    rewrite !hex_key_bytes, !twox_128_xxh64. repeat f_equal; vm_compute; reflexivity.
  - assert (H : forall p, Exists (fun d => pallet_name d = p /\ Storage_ ∈ pallet_parts d)
        construct_runtime -> exists d, d ∈ construct_runtime /\ pallet_name d = p /\
        Storage_ ∈ pallet_parts d).
    { intros p (d & Hd & Hn & Hs)%Exists_exists. eauto. }
    repeat constructor; apply H; apply (bool_decide_unpack _); vm_compute; exact I.
Qed.
End Keys.

#[export] Instance demo_hex : HexLaws demo_types := {| tracked l := l; hex_key_bytes _ := eq_refl |}.

Lemma whitelist_keys_witness :
  whitelist (types := demo_types) =
  (fun '(pallet, item) => storage_key (hashing := xx_hashing) pallet item) <$> untracked_values.
Proof. exact (proj1 (whitelist_keys (hex := demo_hex))). Defined.
