(* ===== verification/Cli.v ===== *)
(** * The command line: node/src/cli.rs and node/src/command.rs

    [load_spec] picks the chain specification; [run] dispatches on the
    subcommand.  A closure that [run] hands to the runner is a function of the
    model that maps a configuration to a program: its theorems speak about
    what it does when the runner calls it.  The command types, the runner and
    its errors come from sc_cli ([CliApi]). *)
From S2P Require Import RuntimeApi.
From S2P Require Import Prelude Effects Rpc ServiceApi Service RuntimeParams ChainSpec.

#[local] Open Scope string_scope.

(** ** Chain specifications by name *)
Section Spec.
Context {keys : Keys} {sp : SpArithmetic} {defaults : GenesisDefaults}.
Context {profile : BuildProfile}.
(** A specification read from a file, as sc_service represents it. *)
Context {JsonSpec : Type}.

(** [Box<dyn sc_service::ChainSpec>]. *)
Inductive BoxedSpec :=
| FromGenesis (spec : ChainSpec.ChainSpec)
| FromFile (spec : JsonSpec).

Inductive SpecE : Type -> Type :=
| FromJsonFile (path : string) : SpecE (result string JsonSpec).

Definition load_spec (WASM_BINARY : option (list Byte.byte)) (id : string) :
    prog SpecE (result string BoxedSpec) :=
  if bool_decide (id = "dev") then
    let? spec := Ret (development_config WASM_BINARY) in Ret (Ok (FromGenesis spec))
  else if bool_decide (id = "" \/ id = "local") then
    let? spec := Ret (local_testnet_config WASM_BINARY) in Ret (Ok (FromGenesis spec))
  else
    let? spec := call (FromJsonFile id) in Ret (Ok (FromFile spec)).
End Spec.
Arguments BoxedSpec {keys sp defaults} JsonSpec.
Arguments SpecE JsonSpec _ : clear implicits.

(** ** What the program says about itself *)

(** The variables that [env!] reads when the node is built. *)
Class BuildEnv := {
  SUBSTRATE_CLI_IMPL_VERSION : string;
  CARGO_PKG_DESCRIPTION : string;
  CARGO_PKG_AUTHORS : string;
}.

Section Info.
Context {env : BuildEnv} {types : RuntimeTypes}.

Definition cli_impl_name : string := "Substrate Node".
Definition cli_impl_version : string := SUBSTRATE_CLI_IMPL_VERSION.
Definition cli_description : string := CARGO_PKG_DESCRIPTION.
Definition cli_author : string := CARGO_PKG_AUTHORS.
Definition cli_support_url : string := "support.anonymous.an".
Definition cli_copyright_start_year : Z := 2017.
Definition native_runtime_version : RuntimeApi.RuntimeVersion := RuntimeApi.VERSION.
End Info.

(** ** Subcommands *)

(** The types of sc_cli and frame_benchmarking_cli. *)
Class CliApi (api : ServiceApi) := {
  RunCmd : Type; KeySubcommand : Type; BuildSpecCmd : Type; CheckBlockCmd : Type;
  ExportBlocksCmd : Type; ExportStateCmd : Type; ImportBlocksCmd : Type;
  PurgeChainCmd : Type; RevertCmd : Type; BenchmarkCmd : Type;
  Runner : Type; CliError : Type;
  (** [sc_cli::Error::Service], the conversion of [?] from a service error, and
      the conversion [.into()] from a string *)
  ErrorService : ServiceError -> CliError;
  from_service_error : ServiceError -> CliError;
  from_str : string -> CliError;
}.

Section Cli.
Context {api : ServiceApi} {cli_api : CliApi api}.

Inductive Subcommand :=
| Key (cmd : KeySubcommand)
| BuildSpec (cmd : BuildSpecCmd)
| CheckBlock (cmd : CheckBlockCmd)
| ExportBlocks (cmd : ExportBlocksCmd)
| ExportState (cmd : ExportStateCmd)
| ImportBlocks (cmd : ImportBlocksCmd)
| PurgeChain (cmd : PurgeChainCmd)
| Revert (cmd : RevertCmd)
| Benchmark (cmd : BenchmarkCmd).

Record Cli := { subcommand : option Subcommand; run_cmd : RunCmd }.

(** The argument of [create_runner], an implementation of [CliConfiguration]. *)
Inductive CliConfiguration :=
| ForSubcommand (s : Subcommand)
| ForRun (cmd : RunCmd).

(** What a synchronous closure calls: the [run] method of its command. *)
Inductive SyncE : Type -> Type :=
| BuildSpecRun (cmd : BuildSpecCmd) (spec : ChainSpecBox) (net : NetworkConfiguration) :
    SyncE (result CliError unit)
| PurgeChainRun (cmd : PurgeChainCmd) (db : DatabaseConfig) : SyncE (result CliError unit)
| BenchmarkRun (cmd : BenchmarkCmd) (config : Configuration) : SyncE (result CliError unit).

(** The future an asynchronous closure returns: [cmd.run(...)], not yet run. *)
Inductive Future :=
| CheckBlockRun (cmd : CheckBlockCmd) (client : Client FullNode) (q : ImportQueue FullNode)
| ExportBlocksRun (cmd : ExportBlocksCmd) (client : Client FullNode) (db : DatabaseConfig)
| ExportStateRun (cmd : ExportStateCmd) (client : Client FullNode) (spec : ChainSpecBox)
| ImportBlocksRun (cmd : ImportBlocksCmd) (client : Client FullNode) (q : ImportQueue FullNode)
| RevertRun (cmd : RevertCmd) (client : Client FullNode) (backend : Backend FullNode).

Definition SyncClosure : Type := Configuration -> prog SyncE (result CliError unit).
Definition AsyncClosure : Type :=
  Configuration -> prog ServiceE (result CliError (Future * TaskManager)).
Definition NodeClosure : Type := Configuration -> prog ServiceE (result CliError TaskManager).

Inductive CommandE : Type -> Type :=
| KeyRun (cmd : KeySubcommand) (cli : Cli) : CommandE (result CliError unit)
| CreateRunner (cli : Cli) (c : CliConfiguration) : CommandE (result CliError Runner)
| SyncRun (runner : Runner) (f : SyncClosure) : CommandE (result CliError unit)
| AsyncRun (runner : Runner) (f : AsyncClosure) : CommandE (result CliError unit)
| RunNodeUntilExit (runner : Runner) (f : NodeClosure) : CommandE (result CliError unit).

(** A call whose error [?] converts. *)
Definition map_err_prog {E Er Er' A} (f : Er -> Er') (p : prog E (result Er A)) :
    prog E (result Er' A) :=
  bind p (fun r => Ret (map_err f r)).

(** The closures of [run], one per subcommand. *)
Definition build_spec_closure (cmd : BuildSpecCmd) : SyncClosure := fun config =>
  call (BuildSpecRun cmd (chain_spec config) (network config)).

Definition check_block_closure (cmd : CheckBlockCmd) : AsyncClosure := fun config =>
  let? c := map_err_prog from_service_error (new_partial config) in
  Ret (Ok (CheckBlockRun cmd (pc_client c) (pc_import_queue c), pc_task_manager c)).

Definition export_blocks_closure (cmd : ExportBlocksCmd) : AsyncClosure := fun config =>
  let? c := map_err_prog from_service_error (new_partial config) in
  Ret (Ok (ExportBlocksRun cmd (pc_client c) (database config), pc_task_manager c)).

Definition export_state_closure (cmd : ExportStateCmd) : AsyncClosure := fun config =>
  let? c := map_err_prog from_service_error (new_partial config) in
  Ret (Ok (ExportStateRun cmd (pc_client c) (chain_spec config), pc_task_manager c)).

Definition import_blocks_closure (cmd : ImportBlocksCmd) : AsyncClosure := fun config =>
  let? c := map_err_prog from_service_error (new_partial config) in
  Ret (Ok (ImportBlocksRun cmd (pc_client c) (pc_import_queue c), pc_task_manager c)).

Definition purge_chain_closure (cmd : PurgeChainCmd) : SyncClosure := fun config =>
  call (PurgeChainRun cmd (database config)).

Definition revert_closure (cmd : RevertCmd) : AsyncClosure := fun config =>
  let? c := map_err_prog from_service_error (new_partial config) in
  Ret (Ok (RevertRun cmd (pc_client c) (pc_backend c), pc_task_manager c)).

Definition benchmark_closure (cmd : BenchmarkCmd) : SyncClosure := fun config =>
  call (BenchmarkRun cmd config).

Definition node_closure : NodeClosure := fun config =>
  map_err_prog ErrorService
    (if is_light (role config) then new_light config else new_full config).

(** [cfg!(feature = "runtime-benchmarks")] is a constant of the build. *)
Definition run (runtime_benchmarks : bool) (cli : Cli) :
    prog CommandE (result CliError unit) :=
  match subcommand cli with
  | Some (Key cmd) => call (KeyRun cmd cli)
  | Some (BuildSpec cmd) =>
      let? runner := call (CreateRunner cli (ForSubcommand (BuildSpec cmd))) in
      call (SyncRun runner (build_spec_closure cmd))
  | Some (CheckBlock cmd) =>
      let? runner := call (CreateRunner cli (ForSubcommand (CheckBlock cmd))) in
      call (AsyncRun runner (check_block_closure cmd))
  | Some (ExportBlocks cmd) =>
      let? runner := call (CreateRunner cli (ForSubcommand (ExportBlocks cmd))) in
      call (AsyncRun runner (export_blocks_closure cmd))
  | Some (ExportState cmd) =>
      let? runner := call (CreateRunner cli (ForSubcommand (ExportState cmd))) in
      call (AsyncRun runner (export_state_closure cmd))
  | Some (ImportBlocks cmd) =>
      let? runner := call (CreateRunner cli (ForSubcommand (ImportBlocks cmd))) in
      call (AsyncRun runner (import_blocks_closure cmd))
  | Some (PurgeChain cmd) =>
      let? runner := call (CreateRunner cli (ForSubcommand (PurgeChain cmd))) in
      call (SyncRun runner (purge_chain_closure cmd))
  | Some (Revert cmd) =>
      let? runner := call (CreateRunner cli (ForSubcommand (Revert cmd))) in
      call (AsyncRun runner (revert_closure cmd))
  | Some (Benchmark cmd) =>
      if runtime_benchmarks then
        let? runner := call (CreateRunner cli (ForSubcommand (Benchmark cmd))) in
        call (SyncRun runner (benchmark_closure cmd))
      else Ret (Err (from_str ("Benchmarking wasn't enabled when building the node. " ++
        "You can enable it with `--features runtime-benchmarks`.")))
  | None =>
      let? runner := call (CreateRunner cli (ForRun (run_cmd cli))) in
      call (RunNodeUntilExit runner node_closure)
  end.

(** main.rs *)
Definition main : bool -> Cli -> prog CommandE (result CliError unit) := run.
End Cli.
