(* ===== verification/CliSpec.v ===== *)
(** * What the command line does

    Theorems about [load_spec] and [run]: which chain a name selects, the one
    runner every command creates, and what the closures handed to the runner do
    when it calls them. *)
From S2P Require Import Prelude Effects Rpc ServiceApi Service ServiceSpec.
From S2P Require Import RuntimeParams ChainSpec Cli.

#[local] Open Scope list_scope.

(** ** Errors under another type *)
Section MapErr.
Context {E : Type -> Type} {Er Er' : Type} (f : Er -> Er').

Lemma exec_map_err {A} (p : prog E (result Er A)) t r :
  exec (map_err_prog f p) t r <-> exists r', exec p t r' /\ r = map_err f r'.
Proof.
  unfold map_err_prog. rewrite exec_bind. split.
  - intros (t1 & t2 & r' & -> & H & [-> ->]). rewrite app_nil_r. eauto.
  - intros (r' & H & ->). exists t, [], r'. by rewrite app_nil_r.
Qed.

#[export] Instance map_err_prog_proper {A} :
  Proper (peq ==> peq) (@map_err_prog E Er Er' A f).
Proof. intros p q H t r. rewrite !exec_map_err. by setoid_rewrite (fun a => H t a). Qed.

(** [?] on a call whose error is converted. *)
Lemma exec_try_map_err {A B} (p : prog E (result Er A)) (g : A -> result Er' B) t r :
  exec (try_bind (map_err_prog f p) (fun a => Ret (g a))) t r <->
  exists r', exec p t r' /\ r = result_bind (map_err f r') g.
Proof.
  rewrite exec_try_bind. setoid_rewrite exec_map_err. split.
  - intros [(t1 & t2 & a & -> & (r' & H & Ha) & [-> ->])|(e & (r' & H & He) & ->)].
    + rewrite app_nil_r. exists r'. split; [done|]. by rewrite <- Ha.
    + exists r'. split; [done|]. by rewrite <- He.
  - intros ([a|e] & H & ->).
    + left. exists t, [], a. rewrite app_nil_r. split; [done|]. split; [|done].
      by exists (Ok a).
    + right. exists (f e). split; [|done]. by exists (Err e).
Qed.
End MapErr.

(** ** Choosing a chain *)
Section Spec.
Context {keys : Keys} {sp : SpArithmetic} {defaults : GenesisDefaults} {JsonSpec : Type}.
Context {profile : BuildProfile}.

(** The chain type of a preset name. *)
Definition preset_type (id : string) : option ChainType :=
  if bool_decide (id = "dev"%string) then Some Development
  else if bool_decide (id = ""%string \/ id = "local"%string) then Some Local
  else None.

(** C30: a chain name selects exactly one specification.  A preset name never
    reads a file; it gives the preset of its chain type if the runtime binary
    was built and the error of that preset otherwise.  Every other name is a
    path: that file, and only it, is read, and its specification or error is
    returned unchanged.  No name panics. *)
Theorem load_spec_selects (wasm : option (list Byte.byte)) (id : string) t r :
  exec (load_spec (JsonSpec := JsonSpec) wasm id) t r ->
  match preset_type id with
  | Some ty =>
      t = [] /\
      match wasm with
      | Some _ => exists spec, r = Ok (FromGenesis spec) /\ chain_type spec = ty /\
                    Some (Ok spec) = (if ty is Development then Some (development_config wasm)
                                      else Some (local_testnet_config wasm))
      | None => r = Err "Development wasm not available"%string
      end
  | None => exists f, t = [Event (FromJsonFile id) f] /\ r = result_map FromFile f
  end.
Proof.
  unfold load_spec, preset_type.
  destruct (bool_decide (id = "dev"%string)); [|destruct (bool_decide _)].
  1,2: destruct wasm; intros [-> ->]; eauto 10.
  intros [(t1 & t2 & a & -> & ->%exec_call & [-> ->])|(e & ->%exec_call & ->)]%exec_try_bind.
  - by exists (Ok a).
  - by exists (Err e).
Qed.
End Spec.

(** ** The order of a command's steps *)

Inductive CommandStep := RunKey | MakeRunner | ExecSync | ExecAsync | ExecNode.

Section Run.
Context {api : ServiceApi} {cli_api : CliApi api}.

#[export] Instance command_labels : Labels CommandE CommandStep := fun X e =>
  match e with
  | KeyRun _ _ => RunKey
  | CreateRunner _ _ => MakeRunner
  | SyncRun _ _ => ExecSync
  | AsyncRun _ _ => ExecAsync
  | RunNodeUntilExit _ _ => ExecNode
  end.

#[export] Instance command_failure : Failure CommandE CliError := fun X e =>
  match e in CommandE X return X -> option CliError with
  | KeyRun _ _ => err_of
  | CreateRunner _ _ => err_of
  | SyncRun _ _ => err_of
  | AsyncRun _ _ => err_of
  | RunNodeUntilExit _ _ => err_of
  end.

(** The steps of a command; [None] if the build does not support it. *)
Definition command_schedule (runtime_benchmarks : bool) (s : option Subcommand) :
    option (list CommandStep) :=
  match s with
  | Some (Key _) => Some [RunKey]
  | Some (BuildSpec _ | PurgeChain _) => Some [MakeRunner; ExecSync]
  | Some (CheckBlock _ | ExportBlocks _ | ExportState _ | ImportBlocks _ | Revert _) =>
      Some [MakeRunner; ExecAsync]
  | Some (Benchmark _) => if runtime_benchmarks then Some [MakeRunner; ExecSync] else None
  | None => Some [MakeRunner; ExecNode]
  end.

Lemma follows_runner {X} (e : CommandE (result CliError X))
    (k : X -> CommandE (result CliError unit)) (l : CommandStep) :
  (forall r, failure (Er:=CliError) e r = err_of r) ->
  (forall x r, failure (Er:=CliError) (k x) r = err_of r) ->
  (forall x, label (k x) = l) ->
  follows (let? x := call e in call (k x)) [label e; l].
Proof.
  intros He Hk Hl. apply follows_call_try_cons; [done|]. intros x.
  rewrite <- (Hl x). by apply follows_call_try.
Qed.

(** C19: a command creates exactly one runner and hands it exactly one job, or
    is [key], which needs none; it succeeds only if every step did, and
    otherwise returns the error of the first step that failed, the job not
    being started when there is no runner.  A benchmark in a build without
    them is refused before a runner is created. *)
Theorem run_single_runner (runtime_benchmarks : bool) (cli : Cli) t r :
  exec (run runtime_benchmarks cli) t r ->
  match command_schedule runtime_benchmarks (subcommand cli), r with
  | None, _ => t = [] /\ is_ok r = false
  | Some s, Ok _ => ev_label <$> t = s /\ Forall succeeded t
  | Some s, Err e => exists t' ev, t = t' ++ [ev] /\ Forall succeeded t' /\
      ev_failure ev = Some e /\ (ev_label <$> t) `prefix_of` s
  end.
Proof.
  unfold run. destruct (subcommand cli) as [[]|]; cbn [command_schedule].
  9: destruct runtime_benchmarks; [|by intros [-> ->]].
  1: exact (follows_call_try (KeyRun cmd cli) (fun _ => eq_refl) t r).
  all: refine (follows_runner (CreateRunner cli _) _ _ _ _ _ t r); done.
Qed.

(** ** What the runner's jobs do *)

(** The parts of the node [c] that the job of a chain operation works on. *)
Definition future_wired (config : Configuration) (c : PartialComponents) (f : Future) : Prop :=
  match f with
  | CheckBlockRun _ client q | ImportBlocksRun _ client q =>
      client = pc_client c /\ q = pc_import_queue c
  | ExportBlocksRun _ client db => client = pc_client c /\ db = database config
  | ExportStateRun _ client spec => client = pc_client c /\ spec = chain_spec config
  | RevertRun _ client backend => client = pc_client c /\ backend = pc_backend c
  end.

(** The subcommand a job belongs to. *)
Definition future_of (f : Future) : Subcommand :=
  match f with
  | CheckBlockRun cmd _ _ => CheckBlock cmd
  | ExportBlocksRun cmd _ _ => ExportBlocks cmd
  | ExportStateRun cmd _ _ => ExportState cmd
  | ImportBlocksRun cmd _ _ => ImportBlocks cmd
  | RevertRun cmd _ _ => Revert cmd
  end.

Definition chain_operation (cli : Cli) (f : AsyncClosure) : Prop :=
  forall config t r, exec (f config) t r ->
  match r with
  | Ok (job, task_manager) => exists c, exec (new_partial config) t (Ok c) /\
      task_manager = pc_task_manager c /\ future_wired config c job /\
      subcommand cli = Some (future_of job)
  | Err e => exists e', e = from_service_error e' /\ exec (new_partial config) t (Err e')
  end /\
  (GoOnline ∉ (ev_label <$> t)) /\ essential_tasks (ev_label <$> t) = [] /\
  (is_Some (keystore_remote config) ->
     t = [] /\ r = Err (from_service_error (Other "Remote Keystores are not supported."))).

(** A partial node neither goes online nor starts a task. *)
Lemma new_partial_quiet (config : Configuration) t r :
  exec (new_partial config) t r ->
  (GoOnline ∉ (ev_label <$> t)) /\ essential_tasks (ev_label <$> t) = [].
Proof.
  destruct (keystore_remote config) eqn:Hk.
  - rewrite new_partial_refuses by eauto. intros [-> _]. by split; [apply not_elem_of_nil|].
  - intros [s Hs]%(follows_prefix _ _ _ _ (new_partial_follows config Hk)). split.
    + intros Hin. assert (Hp : GoOnline ∈ partial_schedule)
        by (rewrite Hs; apply elem_of_app; by left).
      revert Hp. apply (bool_decide_unpack _). by vm_compute.
    + apply (f_equal essential_tasks) in Hs. unfold essential_tasks in *.
      rewrite omap_app in Hs. by destruct (omap _ (ev_label <$> t)).
Qed.

Lemma chain_operation_intro (cli : Cli) (f : AsyncClosure)
    (job : Configuration -> PartialComponents -> Future) :
  (forall config, f config = (let? c := map_err_prog from_service_error (new_partial config)
                              in Ret (Ok (job config c, pc_task_manager c)))) ->
  (forall config c, future_wired config c (job config c) /\
                    subcommand cli = Some (future_of (job config c))) ->
  chain_operation cli f.
Proof.
  intros Hf Hjob config t r. rewrite Hf. intros H.
  apply (exec_try_map_err _ _ (fun c => Ok (job config c, pc_task_manager c)))
    in H as (r' & H & ->).
  destruct (new_partial_quiet _ _ _ H) as [Hq1 Hq2]. split; [|split_and!; [done..|]].
  - destruct r' as [c|e]; cbn; [|by exists e]. exists c. by destruct (Hjob config c).
  - intros Hk. rewrite new_partial_refuses in H by done. by destruct H as [-> ->].
Qed.

(** The steps of the node a configuration asks for. *)
Definition node_schedule (config : Configuration) : list ServiceStep :=
  if is_light (role config) then light_schedule (offchain_worker_enabled config)
  else full_schedule (is_authority (role config)) (negb (disable_grandpa config))
         (offchain_worker_enabled config).

(** A synchronous job makes one call: its command, on the parts of the
    configuration it needs. *)
Definition sync_operation (cli : Cli) (f : SyncClosure) : Prop :=
  forall config t r, exec (f config) t r ->
  exists e : SyncE (result CliError unit), t = [Event e r] /\
    match subcommand cli with
    | Some (BuildSpec cmd) => e = BuildSpecRun cmd (chain_spec config) (network config)
    | Some (PurgeChain cmd) => e = PurgeChainRun cmd (database config)
    | Some (Benchmark cmd) => e = BenchmarkRun cmd config
    | _ => False
    end.

(** How the node itself must start. *)
Definition node_start (f : NodeClosure) : Prop :=
  forall config t r, exec (f config) t r ->
  match r with
  | Ok _ => ev_label <$> t = node_schedule config /\ Forall succeeded t
  | Err e => (exists e', e = ErrorService e') /\ (GoOnline ∉ (ev_label <$> t)) /\
             (ev_label <$> t) `prefix_of` node_schedule config
  end.

Lemma new_node_schedule (config : Configuration) :
  let p := if is_light (role config) then new_light config else new_full config in
  follows p (node_schedule config) \/ p = refusal.
Proof.
  unfold node_schedule. destruct (is_light _); cbn; [left; apply new_light_follows|].
  destruct (keystore_remote config) eqn:Hk.
  - right. apply new_full_refuses. eauto.
  - left. by apply new_full_follows.
Qed.

Lemma node_closure_start : node_start node_closure.
Proof.
  intros config t r (r' & H & ->)%exec_map_err. cbn.
  destruct (new_node_schedule config) as [Hf|Hf]; cbv zeta in Hf.
  - pose proof (follows_prefix _ _ _ _ Hf H) as Hpre.
    destruct r' as [tm|e]; [by apply Hf in H|]. cbn.
    split; [by exists e|]. split; [|done].
    assert (exists s, node_schedule config = s ++ [GoOnline] /\ (GoOnline ∉ s))
      as (s & Hs & Hnot).
    { unfold node_schedule. destruct (is_light _);
        [apply light_schedule_online|apply full_schedule_online]. }
    rewrite Hs in Hf. exact (abort_offline _ s t e Hf Hnot H).
  - rewrite Hf in H. destruct H as [-> ->]. cbn. split; [eauto|].
    split; [apply not_elem_of_nil|apply prefix_nil].
Qed.

(** What every call of [run] satisfies. *)
Definition job_ok (cli : Cli) (X : Type) (e : CommandE X) : Prop :=
  match e with
  | CreateRunner cli' c =>
      cli' = cli /\ c = from_option ForSubcommand (ForRun (run_cmd cli)) (subcommand cli)
  | KeyRun cmd cli' => cli' = cli /\ subcommand cli = Some (Key cmd)
  | SyncRun _ f => sync_operation cli f
  | AsyncRun _ f => chain_operation cli f
  | RunNodeUntilExit _ f => subcommand cli = None /\ node_start f
  end.

Lemma run_jobs (runtime_benchmarks : bool) (cli : Cli) :
  calls (job_ok cli) (run runtime_benchmarks cli).
Proof.
  unfold run. destruct (subcommand cli) as [[]|] eqn:Hs; walk_calls; rewrite ?Hs; try done.
  all: try (by eapply chain_operation_intro; [intros config; reflexivity|]; cbn; eauto).
  all: try (intros config t r ->%exec_call; rewrite Hs; eauto; done).
  split; [done|apply node_closure_start].
Qed.

(** C14: the job of a chain operation (checking, exporting and importing blocks,
    exporting the state, reverting) builds a partial node from the runner's
    configuration and works on the client, and the import queue, backend,
    database or chain specification of that node and configuration; the task
    manager it returns is that node's, and a failure is the one of building
    it.  It never goes online or spawns an essential task, and a remote
    keystore is refused before anything is built. *)
Theorem chain_operations_partial (runtime_benchmarks : bool) (cli : Cli) t r :
  exec (run runtime_benchmarks cli) t r ->
  Forall (ev_holds (fun X e =>
    match e with AsyncRun _ f => chain_operation cli f | _ => True end)) t.
Proof.
  intros H. eapply Forall_impl; [exact (calls_sound _ _ _ _ (run_jobs _ cli) H)|].
  by intros [X []].
Qed.

(** only the command without a subcommand starts a node, and the node it
    starts is the one of the configured role: it comes up along the schedule
    of a light node, or of a full node with that configuration, or fails with
    a service error along that schedule and never goes online. *)
Theorem node_start_by_role (runtime_benchmarks : bool) (cli : Cli) t r :
  exec (run runtime_benchmarks cli) t r ->
  Forall (ev_holds (fun X e =>
    match e with
    | RunNodeUntilExit _ f => subcommand cli = None /\ node_start f
    | _ => True
    end)) t.
Proof.
  intros H. eapply Forall_impl; [exact (calls_sound _ _ _ _ (run_jobs _ cli) H)|].
  by intros [X []].
Qed.

(** the runner is created for the command that was given, from the parsed
    command line, and a synchronous command (building a specification,
    purging the chain, benchmarking) makes one call: its own, on the parts of
    the configuration it needs. *)
Theorem sync_operations_single (runtime_benchmarks : bool) (cli : Cli) t r :
  exec (run runtime_benchmarks cli) t r ->
  Forall (ev_holds (fun X e =>
    match e with
    | CreateRunner cli' c =>
        cli' = cli /\ c = from_option ForSubcommand (ForRun (run_cmd cli)) (subcommand cli)
    | SyncRun _ f => sync_operation cli f
    | _ => True
    end)) t.
Proof.
  intros H. eapply Forall_impl; [exact (calls_sound _ _ _ _ (run_jobs _ cli) H)|].
  by intros [X []].
Qed.
End Run.
