(* ===== verification/ServiceOwnership.v ===== *)
(** * The node's objects and who owns them

    The discipline of [Ownership] for the calls of the node service: which of
    the objects in node/src/service.rs each call takes, uses and makes.

    An argument passed by value is taken ([service_moves]): the object is gone
    after the call.  One that is passed as [&x] or as [x.clone()] is used
    ([service_borrows]): it must be there and stays.  The two differ from call
    to call for the same object, and for [SpawnTasks] between the two kinds of
    node: a light node gives its client, pool and network away where a full
    node gives clones.  An accessor borrows its object and returns a fresh
    handle, so what it returns is listed, as available, with the object.  The
    one clone that is kept in a variable, [justification_import], is listed with
    the call whose result is cloned.  The configuration is there from the start
    ([OConfiguration]) until [spawn_tasks] takes it; what the code needs of it
    later it has copied before. *)
From S2P Require Import Prelude Effects Ownership Rpc ServiceApi Service.
From S2P Require Import Cli CliSpec.

#[local] Open Scope list_scope.

Section ServiceOwnership.
Context {api : ServiceApi}.

Inductive Object :=
| OTaskManager (o : TaskManager) | OSpawnHandle (o : SpawnHandle) | OKeystore (o : Keystore)
| OOnDemand (o : OnDemand) | ORemoteBlockchain (o : RemoteBlockchain) | OExecutor (o : Executor)
| OProviders (o : InherentDataProviders) | OBabeLink (o : BabeLink) | ORpcHandlers (o : RpcHandlers)
| OClient {m} (o : Client m) | OBackend {m} (o : Backend m) | OSelectChain {m} (o : SelectChain m)
| OPool {m} (o : Pool m) | OGrandpaImport {m} (o : GrandpaBlockImport m)
| OJustificationImport {m} (o : GrandpaBlockImport m) | OConfiguration
| OBabeImport {m} (o : BabeBlockImport m) | ONetwork {m} (o : Network m)
| OBabeConfig (o : BabeConfig) | OImportQueue {m} (o : ImportQueue m) | OLinkHalf {m} (o : LinkHalf m)
| OStatusSinks (o : StatusSinks) | OSystemRpcTx (o : SystemRpcTx)
| ONetworkStarter (o : NetworkStarter) | OTelemetry (o : TelemetryStream)
| OProposer (o : Proposer) | OTask (o : Task).

(** Made by a call and never cloned. *)
Definition one_shot (o : Object) : bool :=
  match o with
  | OBabeConfig _ | OImportQueue _ | OLinkHalf _ | OStatusSinks _ | OSystemRpcTx _
  | ONetworkStarter _ | OTelemetry _ | OProposer _ | OTask _ => true
  | _ => false
  end.

(** What only the GRANDPA voter takes. *)
Definition for_voter (o : Object) : bool :=
  match o with OLinkHalf _ | OTelemetry _ => true | _ => false end.

Definition author_executor (c : CanAuthorWith) : list Object :=
  match c with CanAuthorWithNativeVersion e => [OExecutor e] | NeverCanAuthor => [] end.

(** What [spawn_tasks] takes besides its one-shot arguments, and what it uses. *)
Definition spawn_tasks_moves {m} : SpawnTasksParams m -> list Object :=
  match m with
  | FullNode => fun p => [OBackend (st_backend p)]
  | LightNode => fun p =>
      [OPool (st_transaction_pool p); OClient (st_client p); OBackend (st_backend p);
       ONetwork (st_network p)] ++ (OOnDemand <$> option_list (st_on_demand p))
  end.
Definition spawn_tasks_borrows {m} : SpawnTasksParams m -> list Object :=
  match m with
  | FullNode => fun p =>
      [ONetwork (st_network p); OClient (st_client p); OPool (st_transaction_pool p)]
  | LightNode => fun p => ORemoteBlockchain <$> option_list (st_remote_blockchain p)
  end.

Definition service_moves (X : Type) (e : ServiceE X) : list Object :=
  match e with
  | BabeBlockImportNew config wrapped _ => [OBabeConfig config; OGrandpaImport wrapped]
  | BabeImportQueue _ _ justification _ _ _ _ _ _ =>
      OJustificationImport <$> option_list justification
  | BuildNetwork p => [OImportQueue (np_import_queue p)]
  | SpawnTasks p =>
      [OStatusSinks (st_network_status_sinks p); OSystemRpcTx (st_system_rpc_tx p);
       OConfiguration] ++ spawn_tasks_moves p
  | ProposerFactoryNew _ _ pool _ => [OPool pool]
  | StartBabe p =>
      [OSelectChain (bp_select_chain p); OProposer (bp_env p);
       OBabeImport (bp_block_import p); OBabeLink (bp_babe_link p)]
  | RunGrandpaVoter p =>
      [OLinkHalf (gp_link p); ONetwork (gp_network p)] ++
      (OTelemetry <$> option_list (gp_telemetry_on_connect p))
  | SpawnEssentialBlocking _ _ task => [OTask task]
  | StartNetwork starter => [ONetworkStarter starter]
  | _ => []
  end.

Definition service_borrows (X : Type) (e : ServiceE X) : list Object :=
  match e with
  | NewFullParts _ | NewLightParts _ => [OConfiguration]
  | InherentDataProvidersNew | StartNetwork _ => []
  | LongestChainNew backend => [OBackend backend]
  | BasicPoolNewFull _ _ _ spawner client =>
      [OConfiguration; OSpawnHandle spawner; OClient client]
  | BasicPoolNewLight _ _ spawner client fetcher =>
      [OConfiguration; OSpawnHandle spawner; OClient client; OOnDemand fetcher]
  | GrandpaBlockImportNew client provider select_chain =>
      [OClient client; OClient provider; OSelectChain select_chain]
  | BabeConfigGetOrCompute client => [OClient client]
  | BabeBlockImportNew _ _ client => [OClient client]
  | BabeImportQueue link block_import _ client select_chain providers
      spawner _ can_author_with =>
      [OConfiguration; OBabeLink link; OBabeImport block_import; OClient client;
       OSelectChain select_chain; OProviders providers; OSpawnHandle spawner] ++
      author_executor can_author_with
  | BuildNetwork p =>
      [OConfiguration; OClient (np_client p); OPool (np_transaction_pool p);
       OSpawnHandle (np_spawn_handle p)] ++ (OOnDemand <$> option_list (np_on_demand p))
  | BuildOffchainWorkers _ backend spawner client net =>
      [OConfiguration; OBackend backend; OSpawnHandle spawner; OClient client; ONetwork net]
  | SpawnTasks p =>
      [OKeystore (st_keystore p); OTaskManager (st_task_manager p)] ++ spawn_tasks_borrows p
  | ProposerFactoryNew spawner client _ _ => [OSpawnHandle spawner; OClient client]
  | StartBabe p =>
      [OKeystore (bp_keystore p); OClient (bp_client p); ONetwork (bp_sync_oracle p);
       OProviders (bp_inherent_data_providers p)] ++ author_executor (bp_can_author_with p)
  | RunGrandpaVoter p => OKeystore <$> option_list (gc_keystore (gp_config p))
  | SpawnEssentialBlocking task_manager _ _ => [OTaskManager task_manager]
  end.

(** What the parts of a node give access to. *)
Definition parts {m} (client : Client m) (backend : Backend m) (keystores : KeystoreContainer)
    (task_manager : TaskManager) : list Object :=
  [OClient client; OExecutor (executor client); OBackend backend;
   OKeystore (sync_keystore keystores); OTaskManager task_manager;
   OSpawnHandle (spawn_handle task_manager)].

(** A call that fails makes nothing. *)
Definition on_ok {Er A} (f : A -> list Object) (r : result Er A) : list Object :=
  match r with Ok a => f a | Err _ => [] end.

Definition service_yields (X : Type) (e : ServiceE X) : X -> list Object :=
  match e in ServiceE X return X -> list Object with
  | NewFullParts _ => on_ok (fun '(client, backend, keystores, task_manager) =>
      parts client backend keystores task_manager)
  | NewLightParts _ => on_ok (fun '(client, backend, keystores, task_manager, on_demand) =>
      OOnDemand on_demand :: ORemoteBlockchain (remote_blockchain backend) ::
      parts client backend keystores task_manager)
  | LongestChainNew _ => fun select_chain => [OSelectChain select_chain]
  | InherentDataProvidersNew => fun providers => [OProviders providers]
  | BasicPoolNewFull _ _ _ _ _ => fun pool => [OPool pool]
  | BasicPoolNewLight _ _ _ _ _ => fun pool => [OPool pool]
  | GrandpaBlockImportNew _ _ _ => on_ok (fun '(block_import, link) =>
      [OGrandpaImport block_import; OJustificationImport block_import; OLinkHalf link])
  | BabeConfigGetOrCompute _ => on_ok (fun config => [OBabeConfig config])
  | BabeBlockImportNew _ _ _ => on_ok (fun '(block_import, link) =>
      [OBabeImport block_import; OBabeLink link])
  | BabeImportQueue _ _ _ _ _ _ _ _ _ => on_ok (fun queue => [OImportQueue queue])
  | BuildNetwork _ => on_ok (fun '(net, sinks, system_rpc_tx, starter) =>
      [ONetwork net; OStatusSinks sinks; OSystemRpcTx system_rpc_tx; ONetworkStarter starter])
  | SpawnTasks _ => on_ok (fun '(handlers, telemetry) =>
      ORpcHandlers handlers :: (OTelemetry <$> option_list (on_connect_stream <$> telemetry)))
  | ProposerFactoryNew _ _ _ _ => fun proposer => [OProposer proposer]
  | StartBabe _ => on_ok (fun worker => [OTask (BabeTask worker)])
  | RunGrandpaVoter _ => on_ok (fun voter => [OTask (GrandpaTask voter)])
  | BuildOffchainWorkers _ _ _ _ _ | SpawnEssentialBlocking _ _ _ | StartNetwork _ => fun _ => []
  end.

#[export] Instance service_ownership : Ownership ServiceE Object := {|
  moves := service_moves; borrows := service_borrows; yields := service_yields |}.

End ServiceOwnership.

(** The next call of a program: what it takes and what it borrows is found
    among the objects held, and what it makes is added to them. *)
Ltac held :=
  repeat first [apply Forall_nil_2 | apply Forall_cons_2];
  repeat first [apply list_elem_of_here | apply list_elem_of_further].
Ltac made :=
  cbn [yields service_ownership service_yields on_ok parts app fmap list_fmap
       option_list option_fmap option_map].
Ltac own_step :=
  repeat match goal with
  | |- permitted _ ((match ?x with _ => _ end) ++ _) _ => destruct x; made
  | |- permitted _ ?h _ =>
      match h with context [option_list (fmap _ ?o)] => destruct o; made end
  end;
  lazymatch goal with
  | |- permitted (try_bind (call _) _) _ _ =>
      eapply permitted_call_try; [cbn; apply _|cbn; held|intros; exact I|intros ?; made]
  | |- permitted (bind (call _) _) _ _ =>
      eapply permitted_call; [cbn; apply _|cbn; held|intros ?; made]
  | |- permitted (try_bind _ _) _ _ => apply permitted_try
  | |- permitted (bind _ _) _ _ => apply permitted_bind
  | |- permitted (match ?x with _ => _ end) _ _ => destruct x eqn:?; made
  | |- permitted (Ret _) _ _ => apply permitted_ret; cbv beta iota
  end.

Section Nodes.
Context {api : ServiceApi}.

(** What is held once the partial components [c] are built. *)
Definition partial_objects (c : PartialComponents) : list Object :=
  let '(block_import, grandpa_link, babe_link) := pc_other c in
  [OImportQueue (pc_import_queue c); OBabeImport block_import; OBabeLink babe_link;
   OLinkHalf grandpa_link; OPool (pc_transaction_pool c);
   OProviders (pc_inherent_data_providers c); OSelectChain (pc_select_chain c)] ++
  parts (pc_client c) (pc_backend c) (pc_keystore_container c) (pc_task_manager c) ++
  [OConfiguration].

Lemma new_partial_permitted config :
  permitted (new_partial config) [OConfiguration] (fun r held =>
    match r with
    | Ok c => held = partial_objects c
    | Err _ => True
    end).
Proof.
  unfold new_partial. case_bool_decide; [exact I|].
  repeat own_step. done.
Qed.

(** The objects a node that is up leaves behind: its task manager is there, and
    of the one-shot objects none but what a voter would have taken, and those
    only if [no_voter]. *)
Definition left_over (no_voter : Prop) (r : result ServiceError TaskManager)
    (held : list Object) : Prop :=
  match r with
  | Ok task_manager => OTaskManager task_manager ∈ held /\
      Forall (fun o => one_shot o = true -> for_voter o = true /\ no_voter) held
  | Err _ => True
  end.

Ltac left_over_tac :=
  split; [cbn; held|];
  repeat first [apply Forall_nil_2 | apply Forall_cons_2]; cbn;
  first [by intros ?|intros _; split; [done|]; first [exact I|by apply negb_false_iff]].

Lemma new_full_permitted config :
  permitted (new_full config) [OConfiguration] (left_over (disable_grandpa config = true)).
Proof.
  unfold new_full. apply permitted_try.
  eapply permitted_weaken; [|apply new_partial_permitted].
  intros [c|e] held; [|done]. intros ->.
  unfold partial_objects, start_authoring, start_grandpa.
  destruct (pc_other c) as [[block_import link] babe_link]. made.
  repeat own_step; left_over_tac.
Qed.

Lemma new_light_permitted config :
  permitted (new_light config) [OConfiguration] (left_over True).
Proof. unfold new_light. repeat own_step; left_over_tac. Qed.

(** Every run of the node, whatever the client crates answer. *)
Lemma node_permitted config :
  permitted (if is_light (role config) then new_light config else new_full config) [OConfiguration]
    (left_over (is_light (role config) = true \/ disable_grandpa config = true)).
Proof.
  destruct (is_light _).
  - eapply permitted_weaken; [|apply new_light_permitted].
    intros [tm|e] held; cbn; [|done]. rewrite !Forall_forall. naive_solver.
  - eapply permitted_weaken; [|apply new_full_permitted].
    intros [tm|e] held; cbn; [|done]. rewrite !Forall_forall. naive_solver.
Qed.

Lemma new_partial_owned config t r :
  exec (new_partial config) t r ->
  exists held, owned_run [OConfiguration] t held /\
    match r with Ok c => held = partial_objects c | Err _ => True end.
Proof. intros H. exact (permitted_sound _ _ _ _ _ (new_partial_permitted config) H). Qed.

Context {cli_api : CliApi api}.

Lemma node_closure_owned config t r :
  exec (node_closure config) t r ->
  exists held, owned_run [OConfiguration] t held /\
    forall tm, r = Ok tm ->
      left_over (is_light (role config) = true \/ disable_grandpa config = true) (Ok tm) held.
Proof.
  intros (r' & Hex & ->)%exec_map_err.
  apply (permitted_sound _ _ _ _ _ (node_permitted config)) in Hex as (held & Hrun & Hleft).
  exists held. split; [done|]. intros tm Hr. destruct r' as [tm'|e]; cbn in Hr; congruence.
Qed.

(** C13: a node that comes up has put every one-shot object it made to its use,
    exactly once: the import queue went to the network, the authoring worker
    and the voter to the task manager, and so on.  Unused are only the GRANDPA
    link and the telemetry stream, on a light node or when GRANDPA is disabled.
    The task manager it returns is one the run made. *)
Theorem node_spends_all (config : Configuration) t (task_manager : TaskManager) :
  exec (node_closure config) t (Ok task_manager) ->
  OTaskManager task_manager ∈ concat (ev_yields <$> t) /\
  exists unused,
    filter (fun o => one_shot o = true) (concat (ev_yields <$> t)) ≡ₚ
      filter (fun o => one_shot o = true) (concat (ev_moves <$> t)) ++ unused /\
    Forall (fun o => for_voter o = true) unused /\
    (unused <> [] -> is_light (role config) = true \/ disable_grandpa config = true).
Proof.
  intros (held & Hrun & Hleft)%node_closure_owned.
  destruct (Hleft task_manager eq_refl) as [Htm Hheld]. rewrite Forall_forall in Hheld.
  apply owned_conserved in Hrun. cbn [app] in Hrun. split.
  { assert (OTaskManager task_manager ∈ OConfiguration :: concat (ev_yields <$> t)) as Hin
      by (rewrite <- Hrun; apply elem_of_app; by right).
    by apply elem_of_cons in Hin as [|Hin]. }
  exists (filter (fun o => one_shot o = true) held). split_and!.
  - rewrite <- filter_app, Hrun. by rewrite filter_cons_False.
  - apply Forall_forall. intros o [Ho Hin]%list_elem_of_filter. by apply (Hheld o).
  - intros Hne. destruct (filter _ held) as [|o l] eqn:Hf; [done|].
    assert (o ∈ filter (fun o => one_shot o = true) held) as [Ho Hin]%list_elem_of_filter
      by (rewrite Hf; left).
    by apply (Hheld o).
Qed.
End Nodes.
