(* ===== verification/CliDemo.v ===== *)
(** * Concrete command lines

    Commands are names, the runner is its position, and a node is the one of
    [ServiceDemo]: the inputs at which the theorems of [CliSpec] apply. *)
From S2P Require Import Prelude Effects Rpc ServiceApi Service ServiceSpec ServiceDemo.
From S2P Require Import RuntimeParams ChainSpec GenesisSpec Cli CliSpec.

#[local] Open Scope string_scope.

(** A specification file is its path; a missing file is an error. *)
Definition demo_files : handler (SpecE string) unit := fun X e s =>
  (match e in SpecE _ X return X with
   | FromJsonFile path =>
       if bool_decide (path = "missing.json") then Err "no such file" else Ok path
   end, s).

Definition demo_load (id : string) :=
  load_spec (keys := uri_keys) (sp := demo_perbill) (defaults := demo_defaults)
    (JsonSpec := string) (Some [Byte.x00]) id.

Lemma load_spec_selects_witness :
  exists f, run_trace demo_files (demo_load "custom.json") tt =
              [Event (FromJsonFile "custom.json") f] /\
    run_result demo_files (demo_load "custom.json") tt = result_map FromFile f.
Proof.
  exact (load_spec_selects (keys := uri_keys) (sp := demo_perbill)
    (defaults := demo_defaults) (JsonSpec := string) (Some [Byte.x00]) "custom.json" _ _
    (run_exec demo_files (demo_load "custom.json") tt)).
Defined.

#[export] Instance demo_cli : CliApi demo_api := {|
  RunCmd := unit; KeySubcommand := unit; BuildSpecCmd := unit; CheckBlockCmd := unit;
  ExportBlocksCmd := unit; ExportStateCmd := unit; ImportBlocksCmd := unit;
  PurgeChainCmd := unit; RevertCmd := unit; BenchmarkCmd := unit;
  Runner := nat; CliError := string;
  ErrorService := fun e => e : string; from_service_error := fun e => e : string;
  from_str := fun s => s;
|}.

(** A runner whose jobs run against the demo node environment. *)
Definition demo_runner (config : Configuration) : handler CommandE unit := fun X e s =>
  (match e in CommandE X return X with
   | KeyRun _ _ => Ok tt
   | CreateRunner _ _ => Ok 0%nat
   | SyncRun _ _ => Ok tt
   | AsyncRun _ f => result_map (fun _ => tt) (run_result (demo_env None) (f config) tt)
   | RunNodeUntilExit _ f => result_map (fun _ => tt) (run_result (demo_env None) (f config) tt)
   end, s).

Definition revert : Subcommand := Revert (cli_api := demo_cli) tt.
Definition purge_chain : Subcommand := PurgeChain (cli_api := demo_cli) tt.
Definition benchmark : Subcommand := Benchmark (cli_api := demo_cli) tt.

Definition with_subcommand (s : option Subcommand) : Cli := {| subcommand := s; run_cmd := tt |}.
Definition demo_command (s : option Subcommand) (config : Configuration) :=
  run_trace (demo_runner config) (run false (with_subcommand s)) tt.

Lemma run_single_runner_witness :
  ev_label <$> demo_command (Some revert) (demo_config Full None) =
    [MakeRunner; ExecAsync].
Proof.
  apply (run_single_runner false (with_subcommand (Some revert)) _ _
    (run_exec (demo_runner (demo_config Full None))
       (run false (with_subcommand (Some revert))) tt)).
Defined.

Lemma chain_operations_partial_witness :
  chain_operation (with_subcommand (Some revert)) (revert_closure (cli_api := demo_cli) tt).
Proof.
  pose proof (chain_operations_partial false (with_subcommand (Some revert)) _ _
    (run_exec (demo_runner (demo_config Full None))
       (run false (with_subcommand (Some revert))) tt)) as H.
  exact (Forall_inv (Forall_inv_tail H)).
Defined.

Lemma node_start_by_role_witness : node_start (node_closure (cli_api := demo_cli)).
Proof.
  pose proof (node_start_by_role false (with_subcommand None) _ _
    (run_exec (demo_runner (demo_config Light None)) (run false (with_subcommand None)) tt))
    as H.
  exact (proj2 (Forall_inv (Forall_inv_tail H))).
Defined.

Lemma sync_operations_single_witness :
  sync_operation (with_subcommand (Some purge_chain)) (purge_chain_closure (cli_api := demo_cli) tt).
Proof.
  pose proof (sync_operations_single false (with_subcommand (Some purge_chain)) _ _
    (run_exec (demo_runner (demo_config Full None))
       (run false (with_subcommand (Some purge_chain))) tt)) as H.
  exact (Forall_inv (Forall_inv_tail H)).
Defined.

(** A benchmark in a build without the feature is refused. *)
Example benchmark_disabled :
  demo_command (Some benchmark) (demo_config Full None) = [].
Proof. reflexivity. Qed.

(** Reverting on a node with a remote keystore fails in the job. *)
Example revert_remote :
  run_result (demo_runner (demo_config Full (Some "http://keys")))
    (run false (with_subcommand (Some revert))) tt =
  Err "Remote Keystores are not supported.".
Proof. reflexivity. Qed.
