(* ===== verification/Process.v ===== *)
(** * The life of a node process

    From the command line to the running node: the node that the command
    without a subcommand starts comes up whenever the client crates let it, it
    decides in a bounded number of calls, and of all commands it is the only
    one whose process goes online. *)
From S2P Require Import Prelude Effects Rpc ServiceApi Service ServiceSpec.
From S2P Require Import RuntimeParams ChainSpec Cli CliSpec.

#[local] Open Scope list_scope.

(** ** Runs of a call whose error is converted *)
Section MapErr.
Context {E : Type -> Type} {Er Er' : Type} (f : Er -> Er').

Lemma run_map_err {S A} (h : handler E S) (p : prog E (result Er A)) s :
  run_trace h (map_err_prog f p) s = run_trace h p s /\
  run_result h (map_err_prog f p) s = map_err f (run_result h p s).
Proof.
  unfold run_trace, run_result, map_err_prog. rewrite run_bind.
  destruct (Effects.run h p s) as [[t r] s']. cbn. by rewrite app_nil_r.
Qed.
End MapErr.

Section Node.
Context {api : ServiceApi} {cli_api : CliApi api}.

(** The configurations under which a node can start. *)
Definition startable (config : Configuration) : Prop :=
  is_light (role config) = true \/ keystore_remote config = None.

Lemma node_schedule_online config :
  exists s, node_schedule config = s ++ [GoOnline] /\ (GoOnline ∉ s).
Proof.
  unfold node_schedule. destruct (is_light _);
    [apply light_schedule_online|apply full_schedule_online].
Qed.

Lemma node_schedule_length config :
  (length (node_schedule config) <= if is_light (role config) then 12 else 17)%nat.
Proof.
  unfold node_schedule. destruct (is_light _).
  - destruct (offchain_worker_enabled _); cbn; lia.
  - destruct (is_authority _), (negb _), (offchain_worker_enabled _); cbn; lia.
Qed.

Lemma startable_follows config :
  startable config ->
  follows (if is_light (role config) then new_light config else new_full config)
    (node_schedule config).
Proof.
  unfold node_schedule. intros [Hl|Hk].
  - rewrite Hl. apply new_light_follows.
  - destruct (is_light _); [apply new_light_follows|by apply new_full_follows].
Qed.

(** C6: a node comes up whenever nothing prevents it: with a configuration that
    can start and an environment in which no call fails, whatever it answers
    otherwise, the node's start returns its task manager after the whole
    schedule of its role, and the last thing it did was to go online. *)
Theorem node_comes_up {S} (h : handler ServiceE S) (s : S) (config : Configuration) :
  startable config -> never_fails h ->
  exists task_manager,
    run_result h (node_closure config) s = Ok task_manager /\
    ev_label <$> run_trace h (node_closure config) s = node_schedule config /\
    last (ev_label <$> run_trace h (node_closure config) s) = Some GoOnline.
Proof.
  intros Hc Hh. unfold node_closure.
  destruct (run_map_err ErrorService h
    (if is_light (role config) then new_light config else new_full config) s) as [-> ->].
  destruct (follows_live h _ _ s (startable_follows config Hc) Hh) as (tm & -> & ->).
  exists tm. split_and!; [done..|].
  destruct (node_schedule_online config) as (s' & -> & _). apply last_snoc.
Qed.

(** C7: starting a node terminates: in every environment it decides after at
    most 17 calls, 12 for a light node, whether the node is up, and it is up
    exactly if it went online; a configuration that cannot start is refused
    without any call. *)
Theorem node_start_decides {S} (h : handler ServiceE S) (s : S) (config : Configuration) :
  let t := run_trace h (node_closure config) s in
  let r := run_result h (node_closure config) s in
  (length t <= if is_light (role config) then 12 else 17)%nat /\
  (is_ok r = true <-> GoOnline ∈ (ev_label <$> t)) /\
  (~ startable config -> t = [] /\ is_ok r = false).
Proof.
  cbv zeta. pose proof (node_closure_start config _ _ (run_exec h (node_closure config) s)) as H.
  pose proof (node_schedule_length config) as Hlen. split_and!.
  - destruct (run_result _ _ _).
    + destruct H as [Hl _]. apply (f_equal length) in Hl. rewrite length_fmap in Hl. lia.
    + destruct H as (_ & _ & Hpre%prefix_length). rewrite length_fmap in Hpre. lia.
  - destruct (run_result _ _ _); cbn.
    + destruct H as [-> _]. destruct (node_schedule_online config) as (s' & -> & _).
      split; [intros _|done]. apply elem_of_app. right. left.
    + destruct H as (_ & Hoff & _). by split.
  - intros Hs. unfold node_closure.
    destruct (run_map_err ErrorService h
      (if is_light (role config) then new_light config else new_full config) s) as [-> ->].
    unfold startable in Hs. destruct (is_light _); [naive_solver|].
    destruct (keystore_remote config) eqn:Hk; [|naive_solver].
    by rewrite new_full_refuses by eauto.
Qed.
(** ** The process

    sc_cli's runner calls the job it is handed with the configuration it was
    created with: a job of a chain operation or of the node makes its calls
    into the client crates there, and an error of the job is the runner's.
    [hosts configuration ev calls] says that the process made [calls] while the
    runner handled [ev]; the other events make no such calls. *)
Definition hosts (configuration : Runner -> Configuration) (ev : event CommandE)
    (calls : list (event ServiceE)) : Prop :=
  match ev with
  | Event (AsyncRun runner f) res => exists x,
      exec (f (configuration runner)) calls x /\ (forall e, x = Err e -> res = Err e)
  | Event (RunNodeUntilExit runner f) res => exists x,
      exec (f (configuration runner)) calls x /\ (forall e, x = Err e -> res = Err e)
  | _ => calls = []
  end.

Lemma hosts_online configuration cli ev calls :
  ev_holds (job_ok cli) ev -> hosts configuration ev calls ->
  GoOnline ∈ (ev_label <$> calls) -> subcommand cli = None.
Proof.
  destruct ev as [X e x]. destruct e; cbn; intros Hjob Hh Hon.
  - subst. by apply elem_of_nil in Hon.
  - subst. by apply elem_of_nil in Hon.
  - subst. by apply elem_of_nil in Hon.
  - destruct Hh as (y & Hex & _). by apply Hjob in Hex as (_ & ? & _).
  - by destruct Hjob.
Qed.

Lemma hosts_all_online configuration cli t tss :
  Forall (ev_holds (job_ok cli)) t -> Forall2 (hosts configuration) t tss ->
  GoOnline ∈ (ev_label <$> concat tss) -> subcommand cli = None.
Proof.
  intros Hjobs H. induction H as [|ev ts t tss Hev _ IH]; cbn.
  { by intros ?%elem_of_nil. }
  apply Forall_cons in Hjobs as [Hjob Hjobs]. rewrite fmap_app, elem_of_app.
  intros [Hon|Hon]; [by eapply hosts_online|by apply IH].
Qed.

(** C3: the only process that goes online is that of the command without a
    subcommand: a process that goes online made exactly the calls of the node
    of its runner's configuration, from the schedule's start to its end; and
    such a command that exits successfully has gone online. *)
Theorem process_online configuration runtime_benchmarks cli t r tss :
  exec (Cli.run runtime_benchmarks cli) t r ->
  Forall2 (hosts configuration) t tss ->
  let steps := ev_label <$> concat tss in
  (GoOnline ∈ steps ->
     subcommand cli = None /\
     exists runner, steps = node_schedule (configuration runner) /\
       t = [Event (CreateRunner cli (ForRun (run_cmd cli))) (Ok runner);
            Event (RunNodeUntilExit runner node_closure) r]) /\
  (subcommand cli = None -> r = Ok tt -> GoOnline ∈ steps).
Proof.
  intros Hex Hhosts steps.
  assert (Honly : GoOnline ∈ steps -> subcommand cli = None).
  { eapply hosts_all_online; [|exact Hhosts]. exact (calls_sound _ _ _ _ (run_jobs _ cli) Hex). }
  destruct (subcommand cli) eqn:Hs; [split; [naive_solver|done]|].
  unfold Cli.run in Hex. rewrite Hs in Hex.
  apply exec_try_bind in Hex
    as [(t1 & t2 & runner & -> & ->%exec_call & ->%exec_call)|(e & ->%exec_call & ->)].
  2: { apply Forall2_cons_inv_l in Hhosts as (ts & tss' & -> & ->%Forall2_nil_inv_l & ->).
       subst steps. cbn. split; [by intros ?%elem_of_nil|done]. }
  apply Forall2_cons_inv_l in Hhosts as (ts1 & tss1 & Hts1 & Hhosts & ->).
  apply Forall2_cons_inv_l in Hhosts as (ts2 & tss2 & Hts2 & ->%Forall2_nil_inv_l & ->).
  cbn in Hts1. subst ts1 steps. cbn. rewrite app_nil_r.
  destruct Hts2 as (x & Hx & Herr). apply node_closure_start in Hx. destruct x as [tm|e].
  - destruct Hx as [Hx _]. split; [intros _; eauto|]. intros _ _. rewrite Hx.
    destruct (node_schedule_online (configuration runner)) as (s & -> & _).
    apply elem_of_app. right. left.
  - destruct Hx as (_ & Hoff & _). split; [done|]. intros _ ->. by specialize (Herr e eq_refl).
Qed.
End Node.
