(* ===== verification/ProcessOwnership.v ===== *)
(** * Who owns the objects of a process

    The ownership discipline of [ServiceOwnership] for a whole process,
    whatever its command: the jobs that sc_cli's runner calls make their calls
    into the client crates as Rust's ownership rules allow. *)
From S2P Require Import Prelude Effects Ownership Rpc ServiceApi Service.
From S2P Require Import Cli CliSpec ServiceOwnership Process.

#[local] Open Scope list_scope.

Section ProcessOwnership.
Context {api : ServiceApi} {cli_api : CliApi api}.

(** The only job that is run until exit is that of the node. *)
Definition node_job (X : Type) (e : CommandE X) : Prop :=
  match e with RunNodeUntilExit _ f => f = node_closure | _ => True end.

Lemma run_node_job runtime_benchmarks cli : calls node_job (run runtime_benchmarks cli).
Proof. unfold run. destruct (subcommand cli) as [[]|]; walk_calls; done. Qed.

Lemma chain_job_owned cli f config t r :
  chain_operation cli f -> exec (f config) t r -> exists held, owned_run [OConfiguration] t held.
Proof.
  intros Hf [Hr _]%Hf.
  assert (exists r', exec (new_partial config) t r') as [r' (held & Hown & _)%new_partial_owned].
  { destruct r as [[job tm]|e]; naive_solver. }
  by exists held.
Qed.

Lemma hosts_owned configuration cli ev calls :
  ev_holds (job_ok cli) ev -> ev_holds node_job ev -> hosts configuration ev calls ->
  exists held, owned_run [OConfiguration] calls held.
Proof.
  destruct ev as [X e x]. destruct e; cbn; intros Hjob Hnode Hhosts.
  1-3: subst; eexists; constructor.
  - destruct Hhosts as (y & Hex & _). by eapply chain_job_owned.
  - subst. destruct Hhosts as (y & (held & Hown & _)%node_closure_owned & _). by exists held.
Qed.

(** C4: the objects of a node are used the way Rust lets them be used: in every
    job that a process hosts, whatever its command and whether or not it
    succeeds, at every call into the client crates what the call takes by value
    and what it uses by reference or as a clone is the configuration or had
    been made by the job's earlier calls, and had not been taken by one of
    them; and the call does not take what it also borrows. *)
Theorem process_ownership configuration runtime_benchmarks cli t r tss calls before ev after :
  exec (run runtime_benchmarks cli) t r -> Forall2 (hosts configuration) t tss ->
  calls ∈ tss -> calls = before ++ ev :: after ->
  exists rest,
    concat (ev_moves <$> before) ++ ev_moves ev ++ rest ≡ₚ
      OConfiguration :: concat (ev_yields <$> before) /\
    Forall (fun o => o ∈ rest) (ev_borrows ev).
Proof.
  intros Hex Hhosts [i Hi]%list_elem_of_lookup ->.
  destruct (Forall2_lookup_r _ _ _ _ _ Hhosts Hi) as (job & Hjob & Hosts).
  pose proof (calls_sound _ _ _ _ (run_jobs runtime_benchmarks cli) Hex) as Hjobs.
  pose proof (calls_sound _ _ _ _ (run_node_job runtime_benchmarks cli) Hex) as Hnode.
  destruct (hosts_owned configuration cli job (before ++ ev :: after)) as [held Hown].
  - by eapply Forall_lookup_1.
  - by eapply Forall_lookup_1.
  - done.
  - apply owned_at in Hown as (rest & Hb & Hperm). by exists rest.
Qed.
End ProcessOwnership.
