(* ===== verification/ProcessDemo.v ===== *)
(** * A concrete node process

    The environments of [ServiceDemo] and [CliDemo], in which the theorems of
    [Process] apply. *)
From S2P Require Import Prelude Effects Rpc ServiceApi Service ServiceSpec.
From S2P Require Import RuntimeParams ChainSpec Cli CliSpec CliDemo Process.
From S2P Require Import Ownership ServiceOwnership ProcessOwnership ServiceDemo.

#[local] Open Scope string_scope.
#[local] Open Scope list_scope.

Lemma demo_env_never_fails : never_fails (demo_env None).
Proof. intros X e s. destruct e; reflexivity. Defined.

Lemma node_comes_up_witness :
  exists tm : nat, run_result (demo_env None)
    (node_closure (cli_api := demo_cli) (demo_config Light (Some "http://keys"))) tt = Ok tm.
Proof.
  destruct (node_comes_up (cli_api := demo_cli) (demo_env None) tt
    (demo_config Light (Some "http://keys")) (or_introl eq_refl) demo_env_never_fails)
    as (tm & H & _).
  exists tm. exact H.
Defined.

Lemma node_start_decides_witness :
  run_trace (demo_env None) (node_closure (cli_api := demo_cli)
    (demo_config Full (Some "http://keys"))) tt = [].
Proof.
  refine (proj1 (proj2 (proj2 (node_start_decides (cli_api := demo_cli) (demo_env None) tt
    (demo_config Full (Some "http://keys")))) _)).
  intros [H|H]; discriminate.
Defined.

(** An authority whose process is that of the command without a subcommand. *)
Definition node_command : Cli := with_subcommand None.
Definition node_events : list (event CommandE) :=
  run_trace (demo_runner (demo_config Authority None)) (run false node_command) tt.
Definition node_calls : list (event ServiceE) :=
  run_trace (demo_env None) (node_closure (cli_api := demo_cli)
    (demo_config Authority None)) tt.

Lemma node_calls_exec :
  exec (node_closure (cli_api := demo_cli) (demo_config Authority None)) node_calls (Ok 4%nat).
Proof.
  exact (run_exec (demo_env None) (node_closure (cli_api := demo_cli)
    (demo_config Authority None)) tt).
Defined.

Lemma node_events_hosted : Forall2 (hosts (fun _ => demo_config Authority None))
  node_events [[]; node_calls].
Proof.
  constructor; [reflexivity|]. constructor; [|constructor].
  exists (Ok 4%nat). split; [exact node_calls_exec|discriminate].
Defined.

Lemma process_online_witness : GoOnline ∈ (ev_label <$> concat [[]; node_calls]).
Proof.
  refine (proj2 (process_online (fun _ => demo_config Authority None) false node_command
    node_events (Ok tt) [[]; node_calls] _ _) eq_refl eq_refl).
  - exact (run_exec (demo_runner (demo_config Authority None)) (run false node_command) tt).
  - exact node_events_hosted.
Defined.

(** The last call of the authority starts the network with the starter that
    building the network made. *)
Lemma process_ownership_witness : exists rest,
  concat (ev_moves <$> removelast node_calls) ++
    [ONetworkStarter (api := demo_api) 13%nat] ++ rest ≡ₚ
  OConfiguration :: concat (ev_yields <$> removelast node_calls).
Proof.
  destruct (process_ownership (fun _ => demo_config Authority None) false node_command
    node_events (Ok tt) [[]; node_calls] node_calls (removelast node_calls)
    (Event (StartNetwork (api := demo_api) 13%nat) tt) []
    (run_exec (demo_runner (demo_config Authority None)) (run false node_command) tt)
    node_events_hosted (list_elem_of_further _ _ _ (list_elem_of_here _ _)) eq_refl)
    as (rest & H & _).
  exists rest. exact H.
Defined.

(** The authority moved all the one-shot objects it made. *)
Lemma node_spends_all_witness :
  filter (fun o => one_shot o = true) (concat (ev_yields <$> node_calls)) ≡ₚ
    filter (fun o => one_shot o = true) (concat (ev_moves <$> node_calls)).
Proof.
  destruct (node_spends_all (cli_api := demo_cli) (demo_config Authority None) node_calls
    4%nat node_calls_exec) as (_ & unused & H & _ & Hused).
  destruct unused as [|o unused].
  - rewrite app_nil_r in H. exact H.
  - exfalso. assert (o :: unused <> []) as Hne by discriminate.
    destruct (Hused Hne); discriminate.
Defined.
